(** * HoneyBadger Vanguard API: the authenticated ingestion pipeline

    A shallow embedding of the self-hosted API server (the Express
    application with its [authenticateApiKey] middleware and the beacon,
    results and agents routes), of the key-provisioning script
    ([generateApiKey]) and of the PostgreSQL schema the two run against.

    The JavaScript code is written over an abstract connection pool
    (class [Pool]); the SQL statements it sends are kept as syntax trees
    that mirror the statement texts, and a small interpreter over the
    schema of the repository gives them their meaning (instance
    [PgPool]). *)

From stdpp Require Import prelude gmap strings pretty sorting.
From Stdlib Require Import ZArith String Ascii Sorted Permutation Lia.

Set Warnings "-register-all".

Local Open Scope string_scope.
Local Open Scope Z_scope.

(** ** JavaScript values *)

(** JSON documents as [express.json()] hands them to the routes. Numbers
    are carried as integers: the routes never compute with them. *)
Inductive json :=
| JNull
| JBool (b : bool)
| JNum (z : Z)
| JStr (s : string)
| JArr (items : list json)
| JObj (fields : list (string * json)).

(** A value of [req.query] as the [qs] parser of Express builds it: a
    string, an array ([a=1&a=2]) or a nested object ([a[b]=1]). *)
Inductive qval :=
| QStr (s : string)
| QArr (items : list qval)
| QObj (fields : list (string * qval)).

(** A JavaScript number that holds an integer, [NaN], or a number too
    large to be printed in digits (1e21 and beyond, and the infinities). *)
Inductive number :=
| NaN
| Int (z : Z)
| Beyond.

(** Column values, as PostgreSQL stores them and as [pg] gives them back
    in the fields of a row object. *)
Inductive sqlval :=
| SNull
| SBool (b : bool)
| SText (s : string)
| STime (t : Z)
| SUuid (n : nat)
| SJson (j : json).

(** A row object: column name to value, in column order. *)
Definition row := list (string * sqlval).

(** Property access [obj.key]: [None] is [undefined]. *)
Fixpoint prop {A} (key : string) (obj : list (string * A)) : option A :=
  match obj with
  | [] => None
  | (k, v) :: rest => if String.eqb k key then Some v else prop key rest
  end.

(** ** What the platform provides

    Functions of the runtime and of the libraries whose results the
    program only passes along. Nothing is assumed about them. *)
Class Platform := {
  (** bcrypt's key derivation: [bcrypt_crypt data salt] is the 60-character
      hash string of [data] under the parameters and salt that prefix
      [salt] (a salt or a full hash string). *)
  bcrypt_crypt : string -> string -> string;
  (** the rest of bcrypt's check of a hash string that starts with '$'
      (version, cost, salt length). *)
  bcrypt_salt_ok : string -> bool;
  (** [JSON.parse], [None] when it throws. *)
  JSON_parse : string -> option json;
  (** [JSON.stringify]. *)
  JSON_stringify : json -> string;
  (** the text [pg] sends for an array or object parameter. *)
  pg_compound_text : qval -> string;
  (** PostgreSQL's input function of [timestamp with time zone]. *)
  timestamptz_in : string -> option Z;
  (** for an integer beyond 2^53 in magnitude: the integer that the
      decimal text of the nearest Number denotes, [None] when that text
      is in exponent form or is Infinity. *)
  big_number_text : Z -> option Z
}.

(** ** SQL statements, as syntax *)

Inductive table_name := api_keys | agents | beacons | results.

Inductive expr :=
| Param (n : nat)              (* $n *)
| Excluded (col : string)      (* EXCLUDED.col *)
| CURRENT_TIMESTAMP
| TRUE.

Inductive cmp := OpEq | OpGe.

(** [col = e] or [col >= e]. *)
Record cond := Cond { cond_col : string; cond_op : cmp; cond_rhs : expr }.

Inductive stmt :=
| SELECT (cols : option (list string))   (* None is [*] *)
         (from : table_name)
         (where_ : list cond)            (* joined by AND *)
         (order_by_desc : option string)
         (limit offset : option expr)
| INSERT (into : table_name)
         (cols : list string)
         (values : list expr)
         (on_conflict : option (string * list (string * expr)))
         (returning : list string)
| UPDATE (tbl : table_name)
         (set : list (string * expr))
         (where_ : list cond).

(** A parameter of [pool.query(text, params)]. *)
Inductive jsparam :=
| PUndefined
| PText (s : string)
| PNum (n : number)
| PJsonText (j : json)     (* the string JSON.stringify(j) *)
| PCompound (v : qval)     (* an array or object of req.query *)
| PField (v : sqlval).     (* a field read from a row object *)

(** ** The handlers' monad: state, a trace of effects, exceptions *)

Inductive log_level := info | warn | error.

Inductive event :=
| EvQuery (s : stmt) (params : list jsparam)   (* pool.query was called *)
| EvCompare (data hash : string)              (* bcrypt.compare was called *)
| EvLog (level : log_level) (message : string).

(** The connection pool: [pool_query] answers with the rows or rejects
    with an error message. *)
Class Pool (DB : Type) := {
  pool_query : stmt -> list jsparam -> DB -> (string + list row) * DB
}.

(** One window of the rate limiter: hits so far and the time it ends. *)
Record window := { hits : nat; reset_time : Z }.

Record state (DB : Type) := State {
  pool : DB;                       (* what the pool is connected to *)
  limits : gmap string window;     (* the limiter's store, by client *)
  date : Z;                        (* the server's clock, milliseconds *)
  trace : list event               (* effects so far, latest last *)
}.
Arguments State {DB}.
Arguments pool {DB}.
Arguments limits {DB}.
Arguments date {DB}.
Arguments trace {DB}.

(** A computation ends with a value or with a thrown error. *)
Definition M (DB A : Type) : Type := state DB -> (string + A) * state DB.

Definition ret {DB A} (a : A) : M DB A := fun s => (inr a, s).
Definition throw {DB A} (msg : string) : M DB A := fun s => (inl msg, s).
Definition bind {DB A B} (c : M DB A) (k : A -> M DB B) : M DB B :=
  fun s => match c s with
           | (inr a, s') => k a s'
           | (inl e, s') => (inl e, s')
           end.
(** [try { c } catch (error) { h error }] *)
Definition try_catch {DB A} (c : M DB A) (h : string -> M DB A) : M DB A :=
  fun s => match c s with
           | (inr a, s') => (inr a, s')
           | (inl e, s') => h e s'
           end.

Declare Scope js_scope.
Delimit Scope js_scope with js.
Notation "x <- c ;; k" := (bind c (fun x => k))
  (at level 100, c at next level, right associativity) : js_scope.
Notation "c ;;; k" := (bind c (fun _ => k))
  (at level 100, right associativity) : js_scope.

Definition emit {DB} (e : event) : M DB unit :=
  fun s => (inr tt, State (pool s) (limits s) (date s) (trace s ++ [e])).

Definition logger {DB} (level : log_level) (message : string) : M DB unit :=
  emit (EvLog level message).

(** [await pool.query(text, params)] *)
Definition query {DB} `{Pool DB} (q : stmt) (params : list jsparam) : M DB (list row) :=
  fun s =>
    let s1 := State (pool s) (limits s) (date s) (trace s ++ [EvQuery q params]) in
    match pool_query q params (pool s1) with
    | (inr rows, db') => (inr rows, State db' (limits s1) (date s1) (trace s1))
    | (inl e, db') => (inl e, State db' (limits s1) (date s1) (trace s1))
    end.

(** [new Date()] *)
Definition Date_now {DB} : M DB Z := fun s => (inr (date s), s).

(** ** Requests and responses *)

Record request := Request {
  headers : gmap string string;     (* names in lower case, as Node gives them *)
  query_string : gmap string qval;  (* req.query *)
  body : option json;               (* req.body; None is undefined *)
  ip : option string;               (* req.ip *)
  apiKey : option row               (* req.apiKey, set by the middleware *)
}.

Inductive payload :=
| ErrorBody (error : string)                         (* { error } *)
| BeaconAck (agent_id : option json) (timestamp : Z) (* { success, agent_id, timestamp } *)
| ResultAck (id timestamp : option sqlval)           (* { success, id, timestamp } *)
| ResultsPage (results : list row) (count : nat) (limit offset : number)
| AgentsPage (agents : list row) (count : nat).

Record response := Response {
  status : nat;
  res_headers : list (string * string);
  res_body : payload
}.

(** [res.status(code).json(body)]; [res.json(body)] is status 200. *)
Definition res_json (code : nat) (b : payload) : response := Response code [] b.

(** ** The database: schema, constraints and the statement interpreter *)

Inductive sqltype := UUID | VARCHAR (n : nat) | INET | TIMESTAMPTZ | BOOLEAN | JSONB.

Inductive default_expr :=
| NoDefault
| uuid_generate_v4
| DefaultNow               (* DEFAULT CURRENT_TIMESTAMP *)
| DefaultTrue              (* DEFAULT TRUE *)
| DefaultEmptyJson         (* DEFAULT '{}'::JSONB *)
| DefaultText (s : string).

Record column := Column {
  col_name : string;
  col_type : sqltype;
  not_null : bool;
  unique : bool;            (* UNIQUE or PRIMARY KEY *)
  col_default : default_expr
}.

(** The four tables of the schema that the server and the provisioning
    script touch, column by column as the DDL declares them. *)
Definition schema_of (t : table_name) : list column :=
  match t with
  | api_keys =>
      [ Column "id" UUID true true uuid_generate_v4;
        Column "key_hash" (VARCHAR 255) true true NoDefault;
        Column "name" (VARCHAR 255) true false NoDefault;
        Column "created_at" TIMESTAMPTZ false false DefaultNow;
        Column "last_used_at" TIMESTAMPTZ false false NoDefault;
        Column "is_active" BOOLEAN false false DefaultTrue;
        Column "metadata" JSONB false false DefaultEmptyJson ]
  | agents =>
      [ Column "id" UUID true true uuid_generate_v4;
        Column "agent_id" (VARCHAR 255) true true NoDefault;
        Column "hostname" (VARCHAR 255) false false NoDefault;
        Column "platform" (VARCHAR 100) false false NoDefault;
        Column "ip_address" INET false false NoDefault;
        Column "version" (VARCHAR 50) false false NoDefault;
        Column "first_seen" TIMESTAMPTZ false false DefaultNow;
        Column "last_seen" TIMESTAMPTZ false false DefaultNow;
        Column "is_active" BOOLEAN false false DefaultTrue;
        Column "metadata" JSONB false false DefaultEmptyJson ]
  | beacons =>
      [ Column "id" UUID true true uuid_generate_v4;
        Column "agent_id" (VARCHAR 255) true false NoDefault;
        Column "timestamp" TIMESTAMPTZ false false DefaultNow;
        Column "ip_address" INET false false NoDefault;
        Column "status" (VARCHAR 50) false false (DefaultText "active");
        Column "metadata" JSONB false false DefaultEmptyJson ]
  | results =>
      [ Column "id" UUID true true uuid_generate_v4;
        Column "agent_id" (VARCHAR 255) true false NoDefault;
        Column "module" (VARCHAR 100) true false NoDefault;
        Column "target" (VARCHAR 500) false false NoDefault;
        Column "result_type" (VARCHAR 100) false false NoDefault;
        Column "data" JSONB true false NoDefault;
        Column "timestamp" TIMESTAMPTZ false false DefaultNow;
        Column "severity" (VARCHAR 50) false false NoDefault;
        Column "metadata" JSONB false false DefaultEmptyJson ]
  end.

(** FOREIGN KEY (agent_id) REFERENCES agents(agent_id), on beacons and
    on results. *)
Definition references_agents (t : table_name) : bool :=
  match t with
  | beacons | results => true
  | api_keys | agents => false
  end.

(** What happens to the connection at one statement: the time that
    passes before it runs, and whether the pool fails to serve it
    (connection lost, or none free within the pool's timeout). *)
Record tick := Tick { delay : nat; fault : bool }.

Record database := Database {
  tbl_api_keys : list row;
  tbl_agents : list row;
  tbl_beacons : list row;
  tbl_results : list row;
  uuid_seed : nat;          (* uuid_generate_v4() never repeats a value *)
  now : Z;                  (* the database server's clock *)
  schedule : list tick      (* what happens at the statements to come *)
}.

Definition table_of (t : table_name) (db : database) : list row :=
  match t with
  | api_keys => tbl_api_keys db
  | agents => tbl_agents db
  | beacons => tbl_beacons db
  | results => tbl_results db
  end.

Definition with_table (t : table_name) (rows : list row) (db : database) : database :=
  match t with
  | api_keys => Database rows (tbl_agents db) (tbl_beacons db) (tbl_results db)
                  (uuid_seed db) (now db) (schedule db)
  | agents => Database (tbl_api_keys db) rows (tbl_beacons db) (tbl_results db)
                  (uuid_seed db) (now db) (schedule db)
  | beacons => Database (tbl_api_keys db) (tbl_agents db) rows (tbl_results db)
                  (uuid_seed db) (now db) (schedule db)
  | results => Database (tbl_api_keys db) (tbl_agents db) (tbl_beacons db) rows
                  (uuid_seed db) (now db) (schedule db)
  end.

Definition with_seed (n : nat) (db : database) : database :=
  Database (tbl_api_keys db) (tbl_agents db) (tbl_beacons db) (tbl_results db)
    n (now db) (schedule db).

(** Results with an error message on the left. *)
Definition ebind {A B} (x : string + A) (k : A -> string + B) : string + B :=
  match x with
  | inl e => inl e
  | inr a => k a
  end.

Declare Scope sql_scope.
Delimit Scope sql_scope with sql.
Notation "x <-- c ;; k" := (ebind c (fun x => k))
  (at level 100, c at next level, right associativity) : sql_scope.

(** Equality of column values of one type. *)
Definition sqlval_eqb (a b : sqlval) : bool :=
  match a, b with
  | SBool x, SBool y => Bool.eqb x y
  | SText x, SText y => String.eqb x y
  | STime x, STime y => x =? y
  | SUuid x, SUuid y => Nat.eqb x y
  | _, _ => false
  end.

(** Strings are sequences of UTF-8 bytes. The number of characters of
    [s]: the bytes that do not continue a character. *)
Fixpoint char_length (s : string) : nat :=
  match s with
  | EmptyString => O
  | String a rest =>
      let n := nat_of_ascii a in
      ((if Nat.leb 128 n && Nat.ltb n 192 then 0 else 1) + char_length rest)%nat
  end.

(** Does a value belong to a column type (length limits, in characters,
    included). *)
Definition fits (ty : sqltype) (v : sqlval) : bool :=
  match v, ty with
  | SNull, _ => true
  | SUuid _, UUID => true
  | SText s, VARCHAR n => Nat.leb (char_length s) n
  | SText _, INET => true
  | STime _, TIMESTAMPTZ => true
  | SBool _, BOOLEAN => true
  | SJson _, JSONB => true
  | _, _ => false
  end.

Section Postgres.
Context `{Platform}.

(** The input function of a column type on the text of a parameter. The
    program sends text for character, address, document and timestamp
    columns only; address text comes from the socket ([req.ip]) and is
    taken as it is. *)
Definition input_text (ty : sqltype) (s : string) : string + sqlval :=
  match ty with
  | VARCHAR _ => inr (SText s)
  | INET => inr (SText s)
  | JSONB => match JSON_parse s with
             | Some j => inr (SJson j)
             | None => inl "invalid input syntax for type json"
             end
  | TIMESTAMPTZ => match timestamptz_in s with
                   | Some t => inr (STime t)
                   | None => inl "invalid input syntax for type timestamp with time zone"
                   end
  | UUID => inl "invalid input syntax for type uuid"
  | BOOLEAN => inl "invalid input syntax for type boolean"
  end.

(** A parameter read at a column type. [undefined] is sent as NULL; a
    document sent as [JSON.stringify(j)] is read back as [j]; a field
    taken from a row is read back as the value it was. *)
Definition input (ty : sqltype) (p : jsparam) : string + sqlval :=
  match p with
  | PUndefined => inr SNull
  | PText s => input_text ty s
  | PJsonText j => match ty with
                   | JSONB => inr (SJson j)
                   | _ => input_text ty (JSON_stringify j)
                   end
  | PCompound v => input_text ty (pg_compound_text v)
  | PField v => inr v
  | PNum _ => inl "a number is sent for LIMIT and OFFSET only"
  end.

(** A parameter read as the bigint of LIMIT or OFFSET; NULL is no bound. *)
Definition bigint_in (p : jsparam) : string + option Z :=
  match p with
  | PUndefined => inr None
  | PNum (Int z) =>
      if (- 2 ^ 63 <=? z) && (z <? 2 ^ 63) then inr (Some z)
      else inl "value is out of range for type bigint"
  | _ => inl "invalid input syntax for type bigint"
  end.

Definition type_of_column (t : table_name) (c : string) : string + sqltype :=
  match List.find (fun cd => String.eqb (col_name cd) c) (schema_of t) with
  | Some cd => inr (col_type cd)
  | None => inl "column does not exist"
  end.

(** An expression evaluated at a column type. *)
Definition eval_expr (ty : sqltype) (params : list jsparam) (clock : Z)
    (excluded : option row) (e : expr) : string + sqlval :=
  match e with
  | Param n =>
      match n with
      | O => inl "there is no parameter $0"
      | S i => match nth_error params i with
               | Some p => input ty p
               | None => inl "bind message supplies too few parameters"
               end
      end
  | Excluded c =>
      match excluded with
      | Some r => match prop c r with
                  | Some v => inr v
                  | None => inl "column does not exist"
                  end
      | None => inl "missing FROM-clause entry for table excluded"
      end
  | CURRENT_TIMESTAMP => inr (STime clock)
  | TRUE => inr (SBool true)
  end.

(** A condition with its right-hand side evaluated. *)
Definition bound_cond : Type := string * cmp * sqlval.

Definition bind_cond (t : table_name) (params : list jsparam) (clock : Z)
    (c : cond) : string + bound_cond :=
  (ty <-- type_of_column t (cond_col c) ;;
   v <-- eval_expr ty params clock None (cond_rhs c) ;;
   match cond_op c, ty with
   | OpEq, _ => inr (cond_col c, OpEq, v)
   | OpGe, TIMESTAMPTZ => inr (cond_col c, OpGe, v)
   | OpGe, _ => inl "ordering is modelled on timestamps only"
   end)%sql.

Fixpoint bind_conds (t : table_name) (params : list jsparam) (clock : Z)
    (cs : list cond) : string + list bound_cond :=
  match cs with
  | [] => inr []
  | c :: rest =>
      (b <-- bind_cond t params clock c ;;
       bs <-- bind_conds t params clock rest ;;
       inr (b :: bs))%sql
  end.

(** A row passes a condition when the comparison is true; a comparison
    with NULL is not. *)
Definition holds (r : row) (b : bound_cond) : bool :=
  match b with
  | (c, OpEq, v) => match prop c r with
                    | Some x => sqlval_eqb x v
                    | None => false
                    end
  | (c, OpGe, v) => match prop c r, v with
                    | Some (STime x), STime y => y <=? x
                    | _, _ => false
                    end
  end.

Definition passes (bs : list bound_cond) (r : row) : bool := forallb (holds r) bs.

(** ORDER BY c DESC on a timestamp column; NULLs come first. Rows with
    equal keys keep the order of the table (PostgreSQL promises none). *)
Definition time_key (c : string) (r : row) : option Z :=
  match prop c r with
  | Some (STime t) => Some t
  | _ => None
  end.

Definition desc_le (c : string) (r1 r2 : row) : bool :=
  match time_key c r1, time_key c r2 with
  | None, _ => true
  | Some _, None => false
  | Some x, Some y => y <=? x
  end.

Fixpoint insert_desc (c : string) (r : row) (sorted : list row) : list row :=
  match sorted with
  | [] => [r]
  | r' :: rest => if desc_le c r r' then r :: sorted
                  else r' :: insert_desc c r rest
  end.

Definition order_by_desc (c : string) (rows : list row) : list row :=
  foldr (insert_desc c) [] rows.

Definition order_rows (t : table_name) (o : option string) (rows : list row)
  : string + list row :=
  match o with
  | None => inr rows
  | Some c =>
      (ty <-- type_of_column t c ;;
       match ty with
       | TIMESTAMPTZ => inr (order_by_desc c rows)
       | _ => inl "ordering is modelled on timestamps only"
       end)%sql
  end.

Definition bound (params : list jsparam) (e : option expr) : string + option Z :=
  match e with
  | None => inr None
  | Some (Param (S i)) =>
      match nth_error params i with
      | Some p => bigint_in p
      | None => inl "bind message supplies too few parameters"
      end
  | Some _ => inl "LIMIT and OFFSET are modelled on parameters only"
  end.

Definition apply_offset (o : option Z) (rows : list row) : string + list row :=
  match o with
  | None => inr rows
  | Some n => if n <? 0 then inl "OFFSET must not be negative"
              else inr (drop (Z.to_nat n) rows)
  end.

Definition apply_limit (l : option Z) (rows : list row) : string + list row :=
  match l with
  | None => inr rows
  | Some n => if n <? 0 then inl "LIMIT must not be negative"
              else inr (take (Z.to_nat n) rows)
  end.

Fixpoint project_row (cols : list string) (r : row) : string + row :=
  match cols with
  | [] => inr []
  | c :: rest =>
      match prop c r with
      | Some v => (r' <-- project_row rest r ;; inr ((c, v) :: r'))%sql
      | None => inl "column does not exist"
      end
  end.

Fixpoint project_rows (cols : list string) (rows : list row) : string + list row :=
  match rows with
  | [] => inr []
  | r :: rest =>
      (r' <-- project_row cols r ;;
       rest' <-- project_rows cols rest ;;
       inr (r' :: rest'))%sql
  end.

Definition project (cols : option (list string)) (rows : list row) : string + list row :=
  match cols with
  | None => inr rows
  | Some cs => project_rows cs rows
  end.

Definition exec_select (cols : option (list string)) (t : table_name)
    (where_ : list cond) (order : option string) (limit offset : option expr)
    (params : list jsparam) (db : database) : string + list row :=
  (bs <-- bind_conds t params (now db) where_ ;;
   l <-- bound params limit ;;
   o <-- bound params offset ;;
   ordered <-- order_rows t order (List.filter (passes bs) (table_of t db)) ;;
   skipped <-- apply_offset o ordered ;;
   page <-- apply_limit l skipped ;;
   project cols page)%sql.

(** *** INSERT and UPDATE *)

Definition default_value (d : default_expr) (db : database) : sqlval :=
  match d with
  | NoDefault => SNull
  | uuid_generate_v4 => SUuid (uuid_seed db)
  | DefaultNow => STime (now db)
  | DefaultTrue => SBool true
  | DefaultEmptyJson => SJson (JObj [])
  | DefaultText s => SText s
  end.

Fixpoint index_of (c : string) (cols : list string) : option nat :=
  match cols with
  | [] => None
  | c' :: rest => if String.eqb c' c then Some O
                  else option_map S (index_of c rest)
  end.

Definition is_null (v : sqlval) : bool :=
  match v with
  | SNull => true
  | _ => false
  end.

(** The type (with its length limit) and NOT NULL, checked on a value
    about to be stored. *)
Definition check_column (cd : column) (v : sqlval) : string + sqlval :=
  if negb (fits (col_type cd) v) then inl "value does not fit the type of the column"
  else if not_null cd && is_null v then inl "null value violates not-null constraint"
  else inr v.

Definition proposed_value (cd : column) (cols : list string) (values : list expr)
    (params : list jsparam) (db : database) : string + sqlval :=
  match index_of (col_name cd) cols with
  | Some i => match nth_error values i with
              | Some e => eval_expr (col_type cd) params (now db) None e
              | None => inl "INSERT has more target columns than expressions"
              end
  | None => inr (default_value (col_default cd) db)
  end.

(** The row an INSERT proposes: every column of the table in turn, from
    VALUES or from its default, checked against the column. *)
Fixpoint proposed_row (schema : list column) (cols : list string) (values : list expr)
    (params : list jsparam) (db : database) : string + row :=
  match schema with
  | [] => inr []
  | cd :: rest =>
      (v <-- proposed_value cd cols values params db ;;
       v' <-- check_column cd v ;;
       r <-- proposed_row rest cols values params db ;;
       inr ((col_name cd, v') :: r))%sql
  end.

Definition has_column (t : table_name) (c : string) : bool :=
  existsb (fun cd => String.eqb (col_name cd) c) (schema_of t).

Definition same_at (c : string) (r1 r2 : row) : bool :=
  match prop c r1, prop c r2 with
  | Some x, Some y => sqlval_eqb x y
  | _, _ => false
  end.

(** Does [r] break a UNIQUE constraint against the rows of the table? *)
Definition violates_unique (schema : list column) (r : row) (rows : list row) : bool :=
  existsb (fun cd => unique cd && existsb (same_at (col_name cd) r) rows) schema.

Definition set_col (c : string) (v : sqlval) (r : row) : row :=
  List.map (fun kv => if String.eqb (fst kv) c then (fst kv, v) else kv) r.

(** SET c1 = e1, c2 = e2, ... on one row. None of the program's
    statements assigns a UNIQUE column. *)
Fixpoint assign (t : table_name) (set : list (string * expr)) (params : list jsparam)
    (clock : Z) (excluded : option row) (r : row) : string + row :=
  match set with
  | [] => inr r
  | (c, e) :: rest =>
      match List.find (fun cd => String.eqb (col_name cd) c) (schema_of t) with
      | None => inl "column does not exist"
      | Some cd =>
          if unique cd then inl "assignment to a UNIQUE column is not modelled"
          else
            (v <-- eval_expr (col_type cd) params clock excluded e ;;
             v' <-- check_column cd v ;;
             assign t rest params clock excluded (set_col c v' r))%sql
      end
  end.

(** The assignment on every row that [sel] selects; the rows it changed
    are returned beside the new table. *)
Fixpoint assign_where (sel : row -> bool) (t : table_name) (set : list (string * expr))
    (params : list jsparam) (clock : Z) (excluded : option row) (rows : list row)
  : string + (list row * list row) :=
  match rows with
  | [] => inr ([], [])
  | r :: rest =>
      (tl <-- assign_where sel t set params clock excluded rest ;;
       if sel r then
         (r' <-- assign t set params clock excluded r ;;
          inr (r' :: fst tl, r' :: snd tl))
       else inr (r :: fst tl, snd tl))%sql
  end.

(** CREATE TRIGGER trigger_update_agent_last_seen AFTER INSERT ON beacons:
    UPDATE agents SET last_seen = NEW.timestamp, is_active = TRUE
    WHERE agent_id = NEW.agent_id. *)
Definition update_agent_last_seen (new : row) (agent_rows : list row) : list row :=
  List.map (fun a =>
         if same_at "agent_id" a new then
           set_col "is_active" (SBool true)
             (set_col "last_seen" (default (SNull) (prop "timestamp" new)) a)
         else a) agent_rows.

Definition after_insert (t : table_name) (new : row) (db : database) : database :=
  match t with
  | beacons => with_table agents (update_agent_last_seen new (tbl_agents db)) db
  | _ => db
  end.

(** RETURNING c1, c2, ...; without the clause there are no rows. *)
Definition returning_rows (returning : list string) (rows : list row) : string + list row :=
  match returning with
  | [] => inr []
  | _ => project_rows returning rows
  end.

Definition exec_insert (t : table_name) (cols : list string) (values : list expr)
    (on_conflict : option (string * list (string * expr))) (returning : list string)
    (params : list jsparam) (db : database) : string + (list row * database) :=
  if negb (forallb (has_column t) cols) then inl "column does not exist"
  else if negb (Nat.eqb (List.length cols) (List.length values)) then
    inl "INSERT has more expressions than target columns"
  else
    (new <-- proposed_row (schema_of t) cols values params db ;;
     let db1 := with_seed (S (uuid_seed db)) db in
     let plain :=
       if violates_unique (schema_of t) new (table_of t db1) then
         inl "duplicate key value violates unique constraint"
       else if references_agents t && negb (existsb (same_at "agent_id" new) (tbl_agents db1)) then
         inl "insert violates foreign key constraint"
       else
         (out <-- returning_rows returning [new] ;;
          inr (out, after_insert t new (with_table t (table_of t db1 ++ [new]) db1))) in
     match on_conflict with
     | Some (c, set) =>
         if existsb (same_at c new) (table_of t db1) then
           (upd <-- assign_where (same_at c new) t set params (now db1) (Some new)
                      (table_of t db1) ;;
            out <-- returning_rows returning (snd upd) ;;
            inr (out, with_table t (fst upd) db1))
         else plain
     | None => plain
     end)%sql.

Definition exec_update (t : table_name) (set : list (string * expr)) (where_ : list cond)
    (params : list jsparam) (db : database) : string + (list row * database) :=
  (bs <-- bind_conds t params (now db) where_ ;;
   upd <-- assign_where (passes bs) t set params (now db) None (table_of t db) ;;
   inr ([], with_table t (fst upd) db))%sql.

Definition exec (q : stmt) (params : list jsparam) (db : database)
  : string + (list row * database) :=
  match q with
  | SELECT cols t where_ order limit offset =>
      (rows <-- exec_select cols t where_ order limit offset params db ;;
       inr (rows, db))%sql
  | INSERT t cols values on_conflict returning =>
      exec_insert t cols values on_conflict returning params db
  | UPDATE t set where_ => exec_update t set where_ params db
  end.

(** Time passes, the connection may fail, and then the statement runs:
    all of it or, on an error, none of it. *)
Definition arrive (db : database) : bool * database :=
  match schedule db with
  | [] => (false, db)
  | k :: rest =>
      (fault k,
       Database (tbl_api_keys db) (tbl_agents db) (tbl_beacons db) (tbl_results db)
         (uuid_seed db) (now db + Z.of_nat (delay k)) rest)
  end.

Definition pg_query (q : stmt) (params : list jsparam) (db : database)
  : (string + list row) * database :=
  let (failed, db1) := arrive db in
  if failed then (inl "Connection terminated unexpectedly", db1)
  else match exec q params db1 with
       | inr (rows, db2) => (inr rows, db2)
       | inl e => (inl e, db1)
       end.

#[export] Instance PgPool : Pool database := {| pool_query := pg_query |}.

End Postgres.

(** ** JavaScript helpers *)

(** Truthiness of a string and of a query value: only the empty string is
    falsy (arrays and objects are truthy). *)
Definition truthy_string (s : string) : bool := negb (String.eqb s "").

Definition truthy (v : qval) : bool :=
  match v with
  | QStr s => truthy_string s
  | _ => true
  end.

(** Truthiness of a JSON value: [null], [false], [0] and [''] are falsy. *)
Definition json_truthy (j : json) : bool :=
  match j with
  | JNull => false
  | JBool b => b
  | JNum z => negb (z =? 0)
  | JStr s => truthy_string s
  | JArr _ | JObj _ => true
  end.

(** [s.replace(pat, by)] with a string pattern: the first occurrence. *)
Fixpoint replace_first (pat by_ s : string) : string :=
  if String.prefix pat s then by_ ++ String.substring (String.length pat) (String.length s) s
  else match s with
       | EmptyString => EmptyString
       | String a rest => String a (replace_first pat by_ rest)
       end.

(** [v === s] for a query value and a string. *)
Definition strict_equal (v : qval) (s : string) : bool :=
  match v with
  | QStr x => String.eqb x s
  | _ => false
  end.

(** [String(v)] of a query value. *)
Fixpoint js_string (v : qval) : string :=
  match v with
  | QStr s => s
  | QArr items =>
      (fix join (l : list qval) : string :=
         match l with
         | [] => ""
         | [x] => js_string x
         | x :: rest => js_string x ++ "," ++ join rest
         end) items
  | QObj _ => "[object Object]"
  end.

(** Strings are sequences of UTF-8 bytes. The number of bytes of the
    white-space character (of [parseInt] and of the regular expression
    class \s) that [s] starts with, 0 when it starts with none: TAB to CR
    and SPACE in one byte, U+00A0 in two, and U+1680, U+2000 to U+200A,
    U+2028, U+2029, U+202F, U+205F, U+3000 and U+FEFF in three. *)
Definition space_width (s : string) : nat :=
  match List.map nat_of_ascii (list_ascii_of_string (String.substring 0 3 s)) with
  | b1 :: tail =>
      if (Nat.leb 9 b1 && Nat.leb b1 13) || Nat.eqb b1 32 then 1%nat
      else match tail with
           | b2 :: tail' =>
               if Nat.eqb b1 194 && Nat.eqb b2 160 then 2%nat
               else match tail' with
                    | b3 :: _ =>
                        if Nat.eqb b1 225 && Nat.eqb b2 154 && Nat.eqb b3 128 then 3%nat
                        else if Nat.eqb b1 226 && Nat.eqb b2 128
                                && (Nat.leb 128 b3 && Nat.leb b3 138
                                    || Nat.eqb b3 168 || Nat.eqb b3 169 || Nat.eqb b3 175)
                        then 3%nat
                        else if Nat.eqb b1 226 && Nat.eqb b2 129 && Nat.eqb b3 159 then 3%nat
                        else if Nat.eqb b1 227 && Nat.eqb b2 128 && Nat.eqb b3 128 then 3%nat
                        else if Nat.eqb b1 239 && Nat.eqb b2 187 && Nat.eqb b3 191 then 3%nat
                        else 0%nat
                    | [] => 0%nat
                    end
           | [] => 0%nat
           end
  | [] => 0%nat
  end.

Fixpoint skip_spaces_upto (fuel : nat) (s : string) : string :=
  match fuel with
  | O => s
  | S fuel' =>
      match space_width s with
      | O => s
      | w => skip_spaces_upto fuel' (String.substring w (String.length s - w) s)
      end
  end.

(** [s] without its leading white space. *)
Definition skip_spaces (s : string) : string := skip_spaces_upto (String.length s) s.

(** The value of a decimal digit. *)
Definition digit_of (a : ascii) : option Z :=
  let n := nat_of_ascii a in
  if Nat.leb 48 n && Nat.leb n 57 then Some (Z.of_nat (n - 48)) else None.

(** The longest prefix of decimal digits, as a number; [acc] is [None]
    until a digit was read. *)
Fixpoint leading_digits (s : string) (acc : option Z) : option Z :=
  match s with
  | String a rest =>
      match digit_of a with
      | Some d => leading_digits rest (Some (10 * default 0 acc + d))
      | None => acc
      end
  | EmptyString => acc
  end.

Section Javascript.
Context `{Platform}.

(** The Number for a parsed integer: exact up to 2^53. *)
Definition number_of (z : Z) : number :=
  if Z.abs z <=? 2 ^ 53 then Int z
  else match big_number_text z with
       | Some v => Int v
       | None => Beyond
       end.

(** [parseInt(s, 10)] *)
Definition parseInt (s : string) : number :=
  let s1 := skip_spaces s in
  let (negative, s2) :=
    match s1 with
    | String "-" rest => (true, rest)
    | String "+" rest => (false, rest)
    | _ => (false, s1)
    end in
  match leading_digits s2 None with
  | None => NaN
  | Some n => number_of (if negative then - n else n)
  end.

(** [parseInt(v, 10)] of a destructured query parameter with a numeric
    default [d]. *)
Definition parseInt_or (v : option qval) (d : Z) : number :=
  match v with
  | None => number_of d
  | Some q => parseInt (js_string q)
  end.

(** *** bcrypt *)

(** [bcrypt.compare(data, hash)]: a hash string that is not of bcrypt's
    shape (which starts with '$') compares false without being hashed;
    otherwise [data] is hashed under the parameters of [hash] and the two
    hash strings are compared. *)
Definition bcrypt_compare (data hash : string) : bool :=
  match hash with
  | String "$" _ => bcrypt_salt_ok hash && String.eqb (bcrypt_crypt data hash) hash
  | _ => false
  end.

(** [bcrypt.hash(data, rounds)] with the salt string that [rounds] and
    the random bytes drawn give. *)
Definition bcrypt_hash (data salt : string) : string := bcrypt_crypt data salt.

(** *** Joi schemas *)

Inductive joi_type :=
| Joi_string (valid : list string)    (* Joi.string(), with .valid(...) when not empty *)
| Joi_object.                         (* Joi.object() *)

Record joi_key := JoiKey { key_name : string; key_type : joi_type; required : bool }.

Definition quoted (s : string) : string :=
  String (ascii_of_nat 34) (s ++ String (ascii_of_nat 34) "").

Fixpoint join_comma (l : list string) : string :=
  match l with
  | [] => ""
  | [x] => x
  | x :: rest => x ++ ", " ++ join_comma rest
  end.

(** Joi reads a string that looks like an object as JSON before it
    checks the type of an object key. *)
Definition coerce_object (j : json) : json :=
  match j with
  | JStr s =>
      match skip_spaces s with
      | String "{" _ => default j (JSON_parse s)
      | _ => j
      end
  | _ => j
  end.

Definition validate_key (k : joi_key) (v : option json) : string + option json :=
  match v with
  | None => if required k then inl (quoted (key_name k) ++ " is required") else inr None
  | Some j =>
      match key_type k with
      | Joi_string [] =>
          match j with
          | JStr "" => inl (quoted (key_name k) ++ " is not allowed to be empty")
          | JStr _ => inr (Some j)
          | _ => inl (quoted (key_name k) ++ " must be a string")
          end
      | Joi_string valid =>
          match j with
          | JStr s => if existsb (String.eqb s) valid then inr (Some j)
                      else inl (quoted (key_name k) ++ " must be one of [" ++ join_comma valid ++ "]")
          | _ => inl (quoted (key_name k) ++ " must be one of [" ++ join_comma valid ++ "]")
          end
      | Joi_object =>
          match coerce_object j with
          | JObj fields => inr (Some (JObj fields))
          | _ => inl (quoted (key_name k) ++ " must be of type object")
          end
      end
  end.

(** The keys of the schema in turn; the first error ends the validation. *)
Fixpoint validate_keys (schema : list joi_key) (fields : list (string * json))
  : string + list (string * json) :=
  match schema with
  | [] => inr []
  | k :: rest =>
      (v <-- validate_key k (prop (key_name k) fields) ;;
       vs <-- validate_keys rest fields ;;
       inr (match v with
            | Some j => (key_name k, j) :: vs
            | None => vs
            end))%sql
  end.

Definition unknown_key (schema : list joi_key) (fields : list (string * json)) : option string :=
  option_map fst
    (List.find (fun kv => negb (existsb (fun k => String.eqb (key_name k) (fst kv)) schema)) fields).

(** [schema.validate(value)]: the error message, or the validated value
    ([None] is [undefined], which an object schema that is not required
    lets through). *)
Definition validate (schema : list joi_key) (value : option json)
  : string + option (list (string * json)) :=
  match value with
  | None => inr None
  | Some j =>
      match coerce_object j with
      | JObj fields =>
          (vs <-- validate_keys schema fields ;;
           match unknown_key schema fields with
           | Some k => inl (quoted k ++ " is not allowed")
           | None => inr (Some vs)
           end)%sql
      | _ => inl (quoted "value" ++ " must be of type object")
      end
  end.

Definition schemas_beacon : list joi_key :=
  [ JoiKey "agent_id" (Joi_string []) true;
    JoiKey "hostname" (Joi_string []) false;
    JoiKey "platform" (Joi_string []) false;
    JoiKey "version" (Joi_string []) false;
    JoiKey "metadata" Joi_object false ].

Definition schemas_result : list joi_key :=
  [ JoiKey "agent_id" (Joi_string []) true;
    JoiKey "module" (Joi_string []) true;
    JoiKey "target" (Joi_string []) false;
    JoiKey "result_type" (Joi_string []) false;
    JoiKey "data" Joi_object true;
    JoiKey "severity" (Joi_string ["low"; "medium"; "high"; "critical"]) false;
    JoiKey "metadata" Joi_object false ].

(** A validated field passed as a query parameter. *)
Definition param_of (v : option json) : jsparam :=
  match v with
  | None | Some JNull => PUndefined
  | Some (JStr s) => PText s
  | Some j => PJsonText j
  end.

(** [JSON.stringify(v || {})] passed as a query parameter. *)
Definition stringify_or_empty (v : option json) : jsparam :=
  match v with
  | Some j => if json_truthy j then PJsonText j else PJsonText (JObj [])
  | None => PJsonText (JObj [])
  end.

(** A query value passed as a query parameter. *)
Definition param_of_query (v : qval) : jsparam :=
  match v with
  | QStr s => PText s
  | _ => PCompound v
  end.

End Javascript.

(** ** The server *)

Section Server.
Context `{Platform} {DB : Type} `{Pool DB}.

(** [CONFIG.rateLimit]: API_RATE_LIMIT of the environment, 100 without. *)
Variable rateLimit : nat.

Local Open Scope js_scope.

(** *** Rate limiting

    [express-rate-limit] as the server configures it: a window of one
    minute per client address, [max] requests in it, the standard
    RateLimit headers and no legacy ones, and the configured message as
    the body of a rejection. The store is taken to answer. *)

Definition windowMs : Z := 60 * 1000.

Definition limiter_message : payload :=
  ErrorBody "Too many requests, please try again later".

(** One more hit of [key] at time [t]. *)
Definition increment (key : string) (t : Z) (store : gmap string window) : window :=
  match store !! key with
  | Some w => if reset_time w <=? t then {| hits := 1; reset_time := t + windowMs |}
              else {| hits := S (hits w); reset_time := reset_time w |}
  | None => {| hits := 1; reset_time := t + windowMs |}
  end.

Definition rate_limit_headers (w : window) (t : Z) : list (string * string) :=
  [ ("RateLimit-Limit", pretty rateLimit);
    ("RateLimit-Remaining", pretty (rateLimit - hits w)%nat);
    ("RateLimit-Reset", pretty ((reset_time w - t + 999) / 1000)) ].

Definition with_headers (hs : list (string * string)) (r : response) : response :=
  Response (status r) (hs ++ res_headers r) (res_body r).

Definition limiter (req : request) (next : request -> M DB response) : M DB response :=
  fun s =>
    let key := default "" (ip req) in
    let w := increment key (date s) (limits s) in
    let s1 := State (pool s) (<[key := w]> (limits s)) (date s) (trace s) in
    let hs := rate_limit_headers w (date s) in
    if Nat.ltb rateLimit (hits w) then
      (inr (Response 429 (hs ++ [("Retry-After", pretty (windowMs / 1000))]) limiter_message), s1)
    else
      match next req s1 with
      | (inr r, s2) => (inr (with_headers hs r), s2)
      | (inl e, s2) => (inl e, s2)
      end.

(** *** Authentication middleware *)

(** [a || b] on header values. *)
Definition js_or (a b : option string) : option string :=
  match a with
  | Some s => if truthy_string s then a else b
  | None => b
  end.

(** [!v] on a header value. *)
Definition js_not (v : option string) : bool :=
  match v with
  | Some s => negb (truthy_string s)
  | None => true
  end.

(** [row.key_hash || '']; on the left, a value that is no string, which
    [bcrypt.compare] rejects. *)
Definition hash_or_empty (v : option sqlval) : string + string :=
  match v with
  | None | Some SNull | Some (SBool false) => inr ""
  | Some (SText s) => inr s
  | Some _ => inl "data and hash must be strings"
  end.

(** 'SELECT id, name, is_active FROM api_keys WHERE is_active = TRUE' *)
Definition select_active_keys : stmt :=
  SELECT (Some ["id"; "name"; "is_active"]) api_keys
    [Cond "is_active" OpEq TRUE] None None None.

(** 'UPDATE api_keys SET last_used_at = CURRENT_TIMESTAMP WHERE id = $1' *)
Definition touch_last_used : stmt :=
  UPDATE api_keys [("last_used_at", CURRENT_TIMESTAMP)] [Cond "id" OpEq (Param 1)].

(** [row.id] as a query parameter. *)
Definition field_param (key : string) (r : row) : jsparam :=
  match prop key r with
  | Some v => PField v
  | None => PUndefined
  end.

(** The loop over [result.rows]: the first row whose hash matches. *)
Fixpoint find_valid_key (apiKey : string) (rows : list row) : M DB (option row) :=
  match rows with
  | [] => ret None
  | r :: rest =>
      match hash_or_empty (prop "key_hash" r) with
      | inl e => throw e
      | inr h =>
          emit (EvCompare apiKey h) ;;;
          if bcrypt_compare apiKey h then ret (Some r)
          else find_valid_key apiKey rest
      end
  end.

Definition with_apiKey (req : request) (k : row) : request :=
  Request (headers req) (query_string req) (body req) (ip req) (Some k).

(** The [try] block up to [next()]: the response that ends the request,
    or the request to go on with. The route that [next()] starts catches
    its own errors, so none of them comes back to this [catch]. *)
Definition check_api_key (req : request) (apiKey : string) : M DB (response + request) :=
  try_catch
    (rows <- query select_active_keys [] ;;
     validKey <- find_valid_key apiKey rows ;;
     match validKey with
     | None =>
         logger warn "Invalid API key attempt" ;;;
         ret (inl (res_json 401 (ErrorBody "Invalid API key")))
     | Some k =>
         query touch_last_used [field_param "id" k] ;;;
         ret (inr (with_apiKey req k))
     end)
    (fun _ =>
       logger error "API key authentication error" ;;;
       ret (inl (res_json 500 (ErrorBody "Authentication failed")))).

(** [req.headers['x-api-key'] || req.headers['authorization']?.replace('Bearer ', '')] *)
Definition presented (req : request) : option string :=
  js_or (headers req !! "x-api-key")
    (replace_first "Bearer " "" <$> headers req !! "authorization").

Definition authenticateApiKey (req : request) (next : request -> M DB response)
  : M DB response :=
  let apiKey := presented req in
  if js_not apiKey then ret (res_json 401 (ErrorBody "API key required"))
  else
    r <- check_api_key req (default "" apiKey) ;;
    match r with
    | inl response => ret response
    | inr req' => next req'
    end.

(** *** POST /api/v1/beacon *)

(** INSERT INTO agents (agent_id, hostname, platform, version, ip_address,
      metadata, first_seen, last_seen)
    VALUES ($1, $2, $3, $4, $5, $6, CURRENT_TIMESTAMP, CURRENT_TIMESTAMP)
    ON CONFLICT (agent_id) DO UPDATE SET hostname = EXCLUDED.hostname,
      platform = EXCLUDED.platform, version = EXCLUDED.version,
      ip_address = EXCLUDED.ip_address, metadata = EXCLUDED.metadata,
      last_seen = CURRENT_TIMESTAMP, is_active = TRUE *)
Definition upsert_agent : stmt :=
  INSERT agents
    ["agent_id"; "hostname"; "platform"; "version"; "ip_address"; "metadata";
     "first_seen"; "last_seen"]
    [Param 1; Param 2; Param 3; Param 4; Param 5; Param 6;
     CURRENT_TIMESTAMP; CURRENT_TIMESTAMP]
    (Some ("agent_id",
           [ ("hostname", Excluded "hostname");
             ("platform", Excluded "platform");
             ("version", Excluded "version");
             ("ip_address", Excluded "ip_address");
             ("metadata", Excluded "metadata");
             ("last_seen", CURRENT_TIMESTAMP);
             ("is_active", TRUE) ]))
    [].

(** 'INSERT INTO beacons (agent_id, ip_address, metadata) VALUES ($1, $2, $3)' *)
Definition record_beacon : stmt :=
  INSERT beacons ["agent_id"; "ip_address"; "metadata"] [Param 1; Param 2; Param 3] None [].

Definition ip_param (req : request) : jsparam :=
  match ip req with
  | Some a => PText a
  | None => PUndefined
  end.

(** [const { a, b } = value]: a TypeError when [value] is undefined. *)
Definition destructure (value : option (list (string * json))) : M DB (list (string * json)) :=
  match value with
  | Some fields => ret fields
  | None => throw "Cannot destructure property of undefined"
  end.

Definition post_beacon (req : request) : M DB response :=
  try_catch
    (match validate schemas_beacon (body req) with
     | inl message => ret (res_json 400 (ErrorBody message))
     | inr value =>
         v <- destructure value ;;
         let agent_id := prop "agent_id" v in
         let hostname := prop "hostname" v in
         let platform := prop "platform" v in
         let version := prop "version" v in
         let metadata := prop "metadata" v in
         query upsert_agent
           [param_of agent_id; param_of hostname; param_of platform; param_of version;
            ip_param req; stringify_or_empty metadata] ;;;
         query record_beacon [param_of agent_id; ip_param req; stringify_or_empty metadata] ;;;
         logger info "Agent beacon received" ;;;
         t <- Date_now ;;
         ret (res_json 200 (BeaconAck agent_id t))
     end)
    (fun _ =>
       logger error "Beacon failed" ;;;
       ret (res_json 500 (ErrorBody "Beacon failed"))).

(** *** POST /api/v1/results *)

(** INSERT INTO results (agent_id, module, target, result_type, data,
      severity, metadata)
    VALUES ($1, $2, $3, $4, $5, $6, $7) RETURNING id, timestamp *)
Definition insert_result : stmt :=
  INSERT results
    ["agent_id"; "module"; "target"; "result_type"; "data"; "severity"; "metadata"]
    [Param 1; Param 2; Param 3; Param 4; Param 5; Param 6; Param 7]
    None
    ["id"; "timestamp"].

(** [JSON.stringify(data)]: of [undefined] it is [undefined]. *)
Definition stringify (v : option json) : jsparam :=
  match v with
  | Some j => PJsonText j
  | None => PUndefined
  end.

Definition post_results (req : request) : M DB response :=
  try_catch
    (match validate schemas_result (body req) with
     | inl message => ret (res_json 400 (ErrorBody message))
     | inr value =>
         v <- destructure value ;;
         rows <- query insert_result
           [param_of (prop "agent_id" v); param_of (prop "module" v);
            param_of (prop "target" v); param_of (prop "result_type" v);
            stringify (prop "data" v); param_of (prop "severity" v);
            stringify_or_empty (prop "metadata" v)] ;;
         match rows with
         | [] => throw "Cannot read properties of undefined (reading 'id')"
         | r :: _ =>
             logger info "Result submitted" ;;;
             ret (res_json 201 (ResultAck (prop "id" r) (prop "timestamp" r)))
         end
     end)
    (fun _ =>
       logger error "Result submission failed" ;;;
       ret (res_json 500 (ErrorBody "Failed to submit result"))).

(** *** GET /api/v1/results *)

(** [if (v) { params.push(v); query += ` AND col op $${++paramCount}` }] *)
Definition add_filter (v : option qval) (col : string) (op : cmp)
    (q : list cond * list jsparam) : list cond * list jsparam :=
  match v with
  | Some x =>
      if truthy x then
        ((fst q ++ [Cond col op (Param (S (List.length (snd q))))])%list,
         (snd q ++ [param_of_query x])%list)
      else q
  | None => q
  end.

(** The statement and the parameters that the route builds from the
    query string: 'SELECT * FROM results WHERE 1=1', the filters that
    are present, ' ORDER BY timestamp DESC', ' LIMIT $n', ' OFFSET $m'. *)
Definition results_query (req : request) : stmt * list jsparam :=
  let q := req.(query_string) in
  let limit := parseInt_or (q !! "limit") 100 in
  let offset := parseInt_or (q !! "offset") 0 in
  let f1 := add_filter (q !! "agent_id") "agent_id" OpEq ([], []) in
  let f2 := add_filter (q !! "module") "module" OpEq f1 in
  let f3 := add_filter (q !! "severity") "severity" OpEq f2 in
  let f4 := add_filter (q !! "since") "timestamp" OpGe f3 in
  let params1 := (snd f4 ++ [PNum limit])%list in
  let params2 := (params1 ++ [PNum offset])%list in
  (SELECT None results (fst f4) (Some "timestamp")
     (Some (Param (List.length params1))) (Some (Param (List.length params2))),
   params2).

Definition get_results (req : request) : M DB response :=
  try_catch
    (let q := req.(query_string) in
     rows <- query (fst (results_query req)) (snd (results_query req)) ;;
     ret (res_json 200
            (ResultsPage rows (List.length rows)
               (parseInt_or (q !! "limit") 100) (parseInt_or (q !! "offset") 0))))
    (fun _ =>
       logger error "Failed to query results" ;;;
       ret (res_json 500 (ErrorBody "Failed to query results"))).

(** *** GET /api/v1/agents *)

(** 'SELECT * FROM agents', ' WHERE is_active = TRUE' when
    [active_only === 'true'], ' ORDER BY last_seen DESC'. *)
Definition agents_query (req : request) : stmt :=
  let active_only := default (QStr "true") (req.(query_string) !! "active_only") in
  SELECT None agents
    (if strict_equal active_only "true" then [Cond "is_active" OpEq TRUE] else [])
    (Some "last_seen") None None.

Definition get_agents (req : request) : M DB response :=
  try_catch
    (rows <- query (agents_query req) [] ;;
     ret (res_json 200 (AgentsPage rows (List.length rows))))
    (fun _ =>
       logger error "Failed to list agents" ;;;
       ret (res_json 500 (ErrorBody "Failed to list agents"))).

(** *** The protected routes: request logging, then
    [app.use('/api/', limiter)], then the middleware and the route *)

Definition protected (handler : request -> M DB response) (req : request) : M DB response :=
  logger info "Incoming request" ;;;
  limiter req (fun r => authenticateApiKey r handler).

(** *** The provisioning script, generate-api-key *)

Definition hex_digit (n : N) : ascii :=
  ascii_of_N (if (n <? 10)%N then 48 + n else 87 + n).

(** [buffer.toString('hex')] *)
Fixpoint hex (bytes : list N) : string :=
  match bytes with
  | [] => ""
  | b :: rest => String (hex_digit (b / 16)) (String (hex_digit (b mod 16)) (hex rest))
  end.

(** INSERT INTO api_keys (key_hash, name, is_active) VALUES ($1, $2, TRUE)
    RETURNING id, created_at *)
Definition insert_api_key : stmt :=
  INSERT api_keys ["key_hash"; "name"; "is_active"] [Param 1; Param 2; TRUE] None
    ["id"; "created_at"].

(** [generateApiKey(name)] with the 32 random bytes and the salt string it
    draws: the key it prints, or [None] where it exits with status 1. *)
Definition generateApiKey (name : string) (randomBytes : list N) (salt : string)
  : M DB (option string) :=
  if negb (truthy_string name) then ret None
  else
    try_catch
      (let apiKey := "hbv_" ++ hex randomBytes in
       let keyHash := bcrypt_hash apiKey salt in
       rows <- query insert_api_key [PText keyHash; PText name] ;;
       match rows with
       | [] => throw "Cannot read properties of undefined (reading 'id')"
       | _ :: _ => ret (Some apiKey)
       end)
      (fun _ => ret None).

End Server.

(** ** The vocabulary of the statements *)

Section Vocabulary.
Context `{Platform} {DB : Type} `{Pool DB}.

(** The request was verified: a key was presented, the pool answered the
    SELECT with [rows], and the loop found the matching row [k]. *)
Definition verified (req : request) (s : state DB) (apiKey : string) (k : row)
    (s2 : state DB) : Prop :=
  presented req = Some apiKey /\ truthy_string apiKey = true /\
  exists rows s1,
    query select_active_keys [] s = (inr rows, s1) /\
    find_valid_key apiKey rows s1 = (inr (Some k), s2).

(** The text that the database receives for a value of the query string. *)
Definition query_text (v : qval) : string :=
  match v with
  | QStr s => s
  | _ => pg_compound_text v
  end.

End Vocabulary.

(** A natural number written in decimal digits, most significant first,
    and the number it denotes. *)
Definition decimal (digits : list nat) : string :=
  string_of_list_ascii (List.map (fun d => ascii_of_nat (48 + d)) digits).

Definition decimal_value (digits : list nat) : Z :=
  fold_left (fun acc d => 10 * acc + Z.of_nat d) digits 0.

(** A limit or offset of the query string that is a number in decimal
    digits, of at most 2^53. *)
Definition written (v : option qval) (n : Z) : Prop :=
  exists digits,
    v = Some (QStr (decimal digits)) /\ digits <> [] /\
    List.Forall (fun d => (d < 10)%nat) digits /\
    decimal_value digits = n /\ n <= 2 ^ 53.

(** The three responses with which the middleware itself ends a request. *)
Definition auth_rejections : list response :=
  [ res_json 401 (ErrorBody "API key required");
    res_json 401 (ErrorBody "Invalid API key");
    res_json 500 (ErrorBody "Authentication failed") ].

(** [rows] is in descending order of the timestamp column [c]. *)
Definition descending (c : string) (rows : list row) : Prop :=
  StronglySorted (fun r1 r2 => desc_le c r1 r2 = true) rows.

(** An active agent. *)
Definition active (r : row) : bool :=
  match prop "is_active" r with
  | Some (SBool true) => true
  | _ => false
  end.

(** The rows that the listing selects: the active ones when active_only
    is absent or is the string 'true', every row otherwise. *)
Definition listed (req : request) (r : row) : bool :=
  match query_string req !! "active_only" with
  | None => active r
  | Some v => if strict_equal v "true" then active r else true
  end.

(** The row of agent [a]. *)
Definition agent_named (a : string) (r : row) : bool :=
  match prop "agent_id" r with
  | Some (SText x) => String.eqb a x
  | _ => false
  end.

(** The row that a first beacon inserts. *)
Definition new_agent (id : nat) (a : string) (hostname platform ip_address version : sqlval)
    (metadata : json) (t : Z) : row :=
  [ ("id", SUuid id); ("agent_id", SText a); ("hostname", hostname);
    ("platform", platform); ("ip_address", ip_address); ("version", version);
    ("first_seen", STime t); ("last_seen", STime t); ("is_active", SBool true);
    ("metadata", SJson metadata) ].

(** What the conflict branch of the upsert does to the row it hits. *)
Definition refreshed (hostname platform ip_address version : sqlval) (metadata : json)
    (t : Z) (r : row) : row :=
  set_col "is_active" (SBool true)
    (set_col "last_seen" (STime t)
       (set_col "metadata" (SJson metadata)
          (set_col "ip_address" ip_address
             (set_col "version" version
                (set_col "platform" platform
                   (set_col "hostname" hostname r)))))).

(** The agents table after the upsert for [a] at time [t]. *)
Definition upserted (id : nat) (a : string) (hostname platform ip_address version : sqlval)
    (metadata : json) (t : Z) (rows : list row) : list row :=
  if existsb (agent_named a) rows then
    List.map (fun r => if agent_named a r
                       then refreshed hostname platform ip_address version metadata t r
                       else r) rows
  else rows ++ [new_agent id a hostname platform ip_address version metadata t].

(** What the trigger on beacons does to the agents table. *)
Definition touched (a : string) (t : Z) (rows : list row) : list row :=
  List.map (fun r => if agent_named a r
                     then set_col "is_active" (SBool true) (set_col "last_seen" (STime t) r)
                     else r) rows.

(** A validated string field as the column value it is stored as. *)
Definition column_of (v : option json) : sqlval :=
  match v with
  | Some (JStr s) => SText s
  | _ => SNull
  end.

Definition ip_column (req : request) : sqlval :=
  match ip req with
  | Some a => SText a
  | None => SNull
  end.

(** The first_seen values of the rows of agent [a]. *)
Definition first_seen_of (a : string) (rows : list row) : list (option sqlval) :=
  List.map (prop "first_seen") (List.filter (agent_named a) rows).

(** What validation leaves of an optional string, and of an optional
    document. *)
Definition string_field (v : option json) : Prop :=
  v = None \/ exists s, v = Some (JStr s).

Definition object_field (v : option json) : Prop :=
  v = None \/ exists fields, v = Some (JObj fields).

(** A row of the agents table has the columns of the schema. *)
Definition agent_shaped (r : row) : Prop :=
  List.map fst r = List.map col_name (schema_of agents).

(** The registry is in order for [a]: its rows have the columns of the
    schema, and at most one of them is the row of [a] (agent_id is UNIQUE). *)
Definition registry_ok (a : string) (rows : list row) : Prop :=
  List.Forall agent_shaped rows /\
  (List.length (List.filter (agent_named a) rows) <= 1)%nat.

(** ** Worked examples: a platform, a pool, requests

    A platform whose [bcrypt_crypt] keeps the seven characters of the
    parameters and appends the data: of the right shape for the examples,
    and of course no hash. *)
Definition example_platform : Platform := {|
  bcrypt_crypt := fun data salt => String.substring 0 7 salt ++ data;
  bcrypt_salt_ok := fun _ => true;
  JSON_parse := fun _ => None;
  JSON_stringify := fun _ => "{}";
  pg_compound_text := fun _ => "{}";
  timestamptz_in := fun _ => None;
  big_number_text := fun z => Some z
|}.

(** A credential row with its hash, for the key "hbv_00". *)
Definition stub_row : row :=
  [("id", SUuid 7); ("name", SText "primary");
   ("key_hash", SText "$2b$12$hbv_00"); ("is_active", SBool true)].

(** A pool in the manner of a test double: every SELECT answers with the
    one credential row, and a write succeeds exactly when the state says
    the connection is up. *)
Definition stub_query (q : stmt) (params : list jsparam) (up : bool)
  : (string + list row) * bool :=
  match q with
  | SELECT _ _ _ _ _ _ => (inr [stub_row], up)
  | _ => if up then (inr [], up)
         else (inl "timeout exceeded when trying to connect", up)
  end.

Definition stub_pool : Pool bool := {| pool_query := stub_query |}.

Definition empty_database : database := Database [] [] [] [] 0 0 [].

Definition fresh {DB} (db : DB) : state DB := State db ∅ 0 [].

Definition anonymous_request : request :=
  Request ∅ ∅ None (Some "203.0.113.9") None.

Definition keyed_request (key : string) : request :=
  Request {["x-api-key" := key]} ∅ None (Some "203.0.113.9") None.

(** The state after the provisioning script ran on the empty database
    with the name "primary", the random bytes 00 ff and the salt string
    "$2b$12$". *)
Definition provisioned : state database :=
  snd (@generateApiKey example_platform database (@PgPool example_platform)
         "primary" [0%N; 255%N] "$2b$12$" (fresh empty_database)).

(** A route that answers every request with an empty agent list. *)
Definition echo_route {DB} (req : request) : M DB response :=
  ret (res_json 200 (AgentsPage [] 0)).

(** Two beacons of agent "a1" with different attributes. *)
Definition first_beacon : request :=
  Request ∅ ∅
    (Some (JObj [("agent_id", JStr "a1"); ("hostname", JStr "h1");
                 ("metadata", JObj [("os", JStr "linux")])]))
    (Some "203.0.113.9") None.

Definition second_beacon : request :=
  Request ∅ ∅
    (Some (JObj [("agent_id", JStr "a1"); ("platform", JStr "linux");
                 ("metadata", JObj [("build", JNum 7)])]))
    (Some "203.0.113.10") None.

(** A database in which a unit of time passes before every statement. *)
Definition ticking_database : database :=
  Database [] [] [] [] 0 0 (repeat (Tick 1 false) 8).

Definition run_beacon (req : request) (s : state database) : state database :=
  snd (@post_beacon example_platform database (@PgPool example_platform) req s).

Definition run_result (req : request) (s : state database) : state database :=
  snd (@post_results example_platform database (@PgPool example_platform) req s).

Definition after_first : state database := run_beacon first_beacon (fresh ticking_database).
Definition after_second : state database := run_beacon second_beacon after_first.

(** A result of agent "a1" with the given severity. *)
Definition finding (severity : string) : request :=
  Request ∅ ∅
    (Some (JObj [("agent_id", JStr "a1"); ("module", JStr "port-scan");
                 ("data", JObj [("ports", JArr [JNum 80; JNum 443])]);
                 ("severity", JStr severity)]))
    (Some "203.0.113.9") None.

(** The state after the first beacon and three findings: high, low, high. *)
Definition reported : state database :=
  run_result (finding "high") (run_result (finding "low") (run_result (finding "high") after_first)).

Definition high_request : request :=
  Request ∅ {["severity" := QStr "high"]} None None None.

Definition plain_request : request := Request ∅ ∅ None None None.

Definition limit_request : request :=
  Request ∅ {["limit" := QStr (decimal [2%nat])]} None None None.

Definition run_query (req : request) : (string + response) * state database :=
  @get_results example_platform database (@PgPool example_platform) req reported.

(** The rows of a results page. *)
Definition page_rows (r : string + response) : list row :=
  match r with
  | inr (Response _ _ (ResultsPage rows _ _ _)) => rows
  | _ => []
  end.

(** A store in which the example client has used up a limit of 100. *)
Definition exhausted : gmap string window :=
  {["203.0.113.9" := {| hits := 100; reset_time := 60000 |}]}.

(** ** Further vocabulary and examples *)

(** The four tables hold the same rows in both databases. *)
Definition same_tables (db db' : database) : Prop :=
  tbl_api_keys db' = tbl_api_keys db /\
  tbl_agents db' = tbl_agents db /\
  tbl_beacons db' = tbl_beacons db /\
  tbl_results db' = tbl_results db.

(** A row whose hash is a string that the key does not match. *)
Definition mismatch `{Platform} (apiKey : string) (r : row) : Prop :=
  exists h, hash_or_empty (prop "key_hash" r) = inr h /\ bcrypt_compare apiKey h = false.

(** The event is a comparison of the key with some hash. *)
Definition is_compare (apiKey : string) (e : event) : Prop :=
  exists h, e = EvCompare apiKey h.

(** A credential row for another key, "hbv_11". *)
Definition other_row : row :=
  [("id", SUuid 8); ("name", SText "secondary");
   ("key_hash", SText "$2b$12$hbv_11"); ("is_active", SBool true)].

(** A request that presents its key as a bearer token. *)
Definition bearer_request (key : string) : request :=
  Request {["authorization" := "Bearer " ++ key]} ∅ None (Some "203.0.113.9") None.

(** A pool whose SELECT answers with the credential row of "hbv_11" only. *)
Definition other_query (q : stmt) (params : list jsparam) (up : bool)
  : (string + list row) * bool :=
  match q with
  | SELECT _ _ _ _ _ _ => (inr [other_row], up)
  | _ => (inr [], up)
  end.

Definition other_pool : Pool bool := {| pool_query := other_query |}.

(** The row that a submitted result is stored as: [n] is the id drawn,
    [t] the time of the database, [v] the validated body. *)
Definition result_row (n : nat) (t : Z) (v : list (string * json)) : row :=
  [ ("id", SUuid n);
    ("agent_id", column_of (prop "agent_id" v));
    ("module", column_of (prop "module" v));
    ("target", column_of (prop "target" v));
    ("result_type", column_of (prop "result_type" v));
    ("data", SJson (default (JObj []) (prop "data" v)));
    ("timestamp", STime t);
    ("severity", column_of (prop "severity" v));
    ("metadata", SJson (default (JObj []) (prop "metadata" v))) ].

(** The record of a beacon in the beacons table. *)
Definition beacon_row (n : nat) (a : string) (t : Z) (ip_address : sqlval) (metadata : json)
  : row :=
  [ ("id", SUuid n); ("agent_id", SText a); ("timestamp", STime t);
    ("ip_address", ip_address); ("status", SText "active");
    ("metadata", SJson metadata) ].

Definition severity_levels : list string := ["low"; "medium"; "high"; "critical"].

(** A result row without a severity, or with one of the four levels. *)
Definition severity_ok (r : row) : Prop :=
  prop "severity" r = Some SNull \/
  exists sev, In sev severity_levels /\ prop "severity" r = Some (SText sev).

(** A string field of at most [n] characters (or no string). *)
Definition within (n : nat) (v : option json) : Prop :=
  forall s, v = Some (JStr s) -> (char_length s <= n)%nat.

(** A beacon without agent_id, a beacon with a key that no schema names,
    and a result of an agent that never sent a beacon. *)
Definition nameless_beacon : request :=
  Request ∅ ∅ (Some (JObj [("hostname", JStr "h1")])) (Some "203.0.113.9") None.

Definition stray_key_body : request :=
  Request ∅ ∅ (Some (JObj [("agent_id", JStr "a1"); ("role", JStr "admin")]))
    (Some "203.0.113.9") None.

Definition stranger_finding : request :=
  Request ∅ ∅
    (Some (JObj [("agent_id", JStr "a2"); ("module", JStr "port-scan");
                 ("data", JObj [])]))
    (Some "203.0.113.9") None.

(** The strings of a result are within the lengths of their columns. *)
Definition result_fits (fields : list (string * json)) : Prop :=
  within 255 (prop "agent_id" fields) /\ within 100 (prop "module" fields) /\
  within 500 (prop "target" fields) /\ within 100 (prop "result_type" fields).

(** A document field as it is stored: read from its text when it was
    written as a string, the empty document when the field is absent. *)
Definition document_of `{Platform} (v : option json) : json :=
  match v with
  | Some j => coerce_object j
  | None => JObj []
  end.

(** The four protected routes, as the server registers them. *)
Definition routes `{Platform} : list (request -> M database response) :=
  [post_beacon; post_results; get_results; get_agents].

(** A row of the beacons or of the results table whose agent_id is that
    of a row of the registry. *)
Definition owned (registry : list row) (r : row) : Prop :=
  exists a, prop "agent_id" r = Some (SText a) /\
            existsb (agent_named a) registry = true.

(** Every beacon record and every result belongs to an agent of the
    registry: the two foreign keys hold. *)
Definition references_hold (db : database) : Prop :=
  Forall (owned (tbl_agents db)) (tbl_beacons db) /\
  Forall (owned (tbl_agents db)) (tbl_results db).

(** A lower-case hexadecimal digit. *)
Definition hex_char (c : ascii) : Prop :=
  In c (list_ascii_of_string "0123456789abcdef").

(** The credential row that the provisioning script stores. *)
Definition key_row (n : nat) (key_hash name : string) (t : Z) : row :=
  [ ("id", SUuid n); ("key_hash", SText key_hash); ("name", SText name);
    ("created_at", STime t); ("last_used_at", SNull); ("is_active", SBool true);
    ("metadata", SJson (JObj [])) ].

(** A query for the results of agent "a1", and one with a word for a
    limit. *)
Definition agent_request : request :=
  Request ∅ {["agent_id" := QStr "a1"]} None None None.

Definition worded_request : request :=
  Request ∅ {["limit" := QStr "ten"]} None None None.

(** ** The middleware: authentication and rate limiting *)

Section MiddlewareFacts.
Context `{Platform} {DB : Type} `{Pool DB}.

(** C2. A request that carries neither the X-API-Key header nor an
    Authorization header is answered 401 'API key required', and nothing
    else happens: the state is the one before, so no statement was sent to
    the pool and no hash was compared (the trace has no new event). *)
Theorem missing_key_fails_fast (req : request) (next : request -> M DB response)
    (s : state DB) :
  headers req !! "x-api-key" = None ->
  headers req !! "authorization" = None ->
  authenticateApiKey req next s
  = (inr (res_json 401 (ErrorBody "API key required")), s).
Proof.
  intros Hkey Hauth.
  unfold authenticateApiKey, presented.
  rewrite Hkey, Hauth. reflexivity.
Qed.

(** C8, as the code has it. After a successful verification the touch of
    last_used_at is awaited: the route runs only in the state in which
    the UPDATE has completed, and when the UPDATE fails the request ends
    with 500 'Authentication failed' and the route does not run. *)
Theorem touch_is_awaited (req : request) (next : request -> M DB response)
    (s s2 : state DB) (apiKey : string) (k : row) :
  verified req s apiKey k s2 ->
  authenticateApiKey req next s
  = match query touch_last_used [field_param "id" k] s2 with
    | (inr _, s3) => next (with_apiKey req k) s3
    | (inl _, s3) =>
        (inr (res_json 500 (ErrorBody "Authentication failed")),
         State (pool s3) (limits s3) (date s3)
           (trace s3 ++ [EvLog error "API key authentication error"]))
    end.
Proof.
  intros (Hkey & Htruthy & rows & s1 & Hselect & Hfind).
  unfold authenticateApiKey, check_api_key, try_catch, bind.
  rewrite Hkey. cbn [js_not default from_option id]. rewrite Htruthy. cbn [negb].
  rewrite Hselect. cbv beta iota. rewrite Hfind. cbv beta iota.
  destruct (query touch_last_used [field_param "id" k] s2) as [[e | out] s3];
    reflexivity.
Qed.

(** The [try] block never throws: it ends with one of its two responses
    or hands a request on. *)
Lemma check_api_key_outcome (req : request) (apiKey : string) (s : state DB) :
  exists x s', check_api_key req apiKey s = (inr x, s') /\
    (x = inl (res_json 401 (ErrorBody "Invalid API key")) \/
     x = inl (res_json 500 (ErrorBody "Authentication failed")) \/
     exists k, x = inr (with_apiKey req k)).
Proof.
  unfold check_api_key, try_catch, bind.
  destruct (query select_active_keys [] s) as [[e | rows] s1]; cbv beta iota.
  - eexists _, _. split; [reflexivity | auto].
  - destruct (find_valid_key apiKey rows s1) as [[e | [k |]] s2]; cbv beta iota.
    + eexists _, _. split; [reflexivity | auto].
    + destruct (query touch_last_used [field_param "id" k] s2) as [[e | out] s3];
        cbv beta iota.
      * eexists _, _. split; [reflexivity | auto].
      * eexists _, _. split; [reflexivity | eauto].
    + eexists _, _. split; [reflexivity | auto].
Qed.

(** The middleware ends the request with one of its own three responses,
    or the route runs. *)
Lemma authenticateApiKey_outcome (req : request) (next : request -> M DB response)
    (s : state DB) :
  (exists r s', authenticateApiKey req next s = (inr r, s') /\ In r auth_rejections) \/
  (exists k s', authenticateApiKey req next s = next (with_apiKey req k) s').
Proof.
  unfold authenticateApiKey.
  destruct (js_not (presented req)).
  - left. eexists _, _. split; [reflexivity | left; reflexivity].
  - destruct (check_api_key_outcome req (default "" (presented req)) s)
      as (x & s' & Hrun & Hx).
    unfold bind. rewrite Hrun.
    destruct Hx as [-> | [-> | [k ->]]].
    + left. eexists _, _. split; [reflexivity | right; left; reflexivity].
    + left. eexists _, _. split; [reflexivity | right; right; left; reflexivity].
    + right. eauto.
Qed.

(** C4. A result submitted without [data] is answered 400 with the
    message of the validation, and the state is the one before: no
    statement was sent to the pool, so no row was stored. *)
Theorem result_without_data_rejected (req : request) (fields : list (string * json))
    (s : state DB) :
  body req = Some (JObj fields) ->
  prop "data" fields = None ->
  exists message,
    post_results req s = (inr (res_json 400 (ErrorBody message)), s).
Proof.
  intros Hbody Hdata.
  assert (exists message, validate schemas_result (body req) = inl message)
    as [message Hmessage].
  { rewrite Hbody. unfold validate. cbn [coerce_object].
    unfold schemas_result, validate_keys. cbn [key_name].
    rewrite Hdata.
    repeat match goal with
           | |- context [ebind (validate_key ?k ?v)] =>
               destruct (validate_key k v) as [? | ?]; cbn [ebind]; eauto
           end. }
  exists message. unfold post_results, try_catch. rewrite Hmessage. reflexivity.
Qed.

End MiddlewareFacts.

Section LimiterFacts.
Context `{Platform} {DB : Type} `{Pool DB}.
Variable rateLimit : nat.

(** C7, as the code has it. A request over the limit is answered 429 with
    the configured message and the RateLimit-Limit, RateLimit-Remaining
    and RateLimit-Reset headers, and neither the middleware nor the route
    runs. The body and the status differ from those of every rejection of
    the authentication middleware: the response tells which check failed. *)
Theorem rate_limit_rejection (req : request) (next : request -> M DB response)
    (s : state DB) :
  (rateLimit < hits (increment (default "" (ip req)) (date s) (limits s)))%nat ->
  exists r s',
    limiter rateLimit req next s = (inr r, s') /\
    status r = 429%nat /\
    res_body r = ErrorBody "Too many requests, please try again later" /\
    prop "RateLimit-Limit" (res_headers r) = Some (pretty rateLimit) /\
    prop "RateLimit-Remaining" (res_headers r) = Some "0" /\
    is_Some (prop "RateLimit-Reset" (res_headers r)) /\
    pool s' = pool s /\ trace s' = trace s /\
    forall a, In a auth_rejections ->
      res_body a <> res_body r /\ status a <> status r.
Proof.
  intros Hover. unfold limiter.
  apply Nat.ltb_lt in Hover as Hltb. rewrite Hltb.
  eexists _, _. split; [reflexivity |].
  cbn [status res_body res_headers pool trace].
  split; [reflexivity |]. split; [reflexivity |]. split; [reflexivity |].
  split; [cbn; replace (rateLimit - _)%nat with 0%nat by lia; reflexivity |].
  split; [cbn; eauto |].
  split; [reflexivity |]. split; [reflexivity |].
  intros a [<- | [<- | [<- | []]]]; split; discriminate.
Qed.

End LimiterFacts.

(** Witness of C2: the anonymous example request. *)
Lemma missing_key_fails_fast_witness :
  @authenticateApiKey example_platform database (@PgPool example_platform)
    anonymous_request echo_route (fresh empty_database)
  = (inr (res_json 401 (ErrorBody "API key required")), fresh empty_database).
Proof.
  apply (@missing_key_fails_fast example_platform database (@PgPool example_platform));
    reflexivity.
Defined.

(** Witness of C4: a submission with an agent and a module and no data. *)
Lemma result_without_data_rejected_witness :
  exists message,
    @post_results example_platform database (@PgPool example_platform)
      (Request ∅ ∅ (Some (JObj [("agent_id", JStr "a1"); ("module", JStr "port-scan")]))
         None None)
      (fresh empty_database)
    = (inr (res_json 400 (ErrorBody message)), fresh empty_database).
Proof.
  apply (@result_without_data_rejected example_platform database
           (@PgPool example_platform) _
           [("agent_id", JStr "a1"); ("module", JStr "port-scan")]);
    reflexivity.
Defined.

(** Witness of C7: the example client at its 101st request of a window. *)
Lemma rate_limit_rejection_witness :
  exists r s',
    @limiter database 100 anonymous_request echo_route
      (State empty_database exhausted 0 []) = (inr r, s') /\
    status r = 429%nat /\
    res_body r = ErrorBody "Too many requests, please try again later" /\
    prop "RateLimit-Limit" (res_headers r) = Some (pretty 100%nat) /\
    prop "RateLimit-Remaining" (res_headers r) = Some "0" /\
    is_Some (prop "RateLimit-Reset" (res_headers r)) /\
    pool s' = empty_database /\ trace s' = [] /\
    forall a, In a auth_rejections ->
      res_body a <> res_body r /\ status a <> status r.
Proof.
  apply (@rate_limit_rejection database 100 anonymous_request echo_route
           (State empty_database exhausted 0 [])).
  vm_compute. lia.
Defined.

(** Counterexample to C7 as stated: for the same anonymous client, the
    rejection by the limiter and the rejection by the authentication
    middleware have different bodies (and different status codes). *)
Lemma rate_limit_body_differs_from_auth_body :
  exists r1 r2,
    fst (@limiter database 100 anonymous_request echo_route
           (State empty_database exhausted 0 [])) = inr r1 /\
    fst (@authenticateApiKey example_platform database (@PgPool example_platform)
           anonymous_request echo_route (fresh empty_database)) = inr r2 /\
    res_body r1 = ErrorBody "Too many requests, please try again later" /\
    res_body r2 = ErrorBody "API key required" /\
    res_body r1 <> res_body r2.
Proof.
  eexists _, _. repeat split; try (vm_compute; reflexivity).
  vm_compute. discriminate.
Qed.

(** Witness of C8 (as the code has it): the stub pool with its connection
    down for writes. *)
Lemma touch_is_awaited_witness :
  @authenticateApiKey example_platform bool stub_pool (keyed_request "hbv_00")
    echo_route (fresh false)
  = match @query bool stub_pool touch_last_used [field_param "id" stub_row]
            (State false ∅ 0
               [EvQuery select_active_keys []; EvCompare "hbv_00" "$2b$12$hbv_00"]) with
    | (inr _, s3) => echo_route (with_apiKey (keyed_request "hbv_00") stub_row) s3
    | (inl _, s3) =>
        (inr (res_json 500 (ErrorBody "Authentication failed")),
         State (pool s3) (limits s3) (date s3)
           (trace s3 ++ [EvLog error "API key authentication error"]))
    end.
Proof.
  apply (@touch_is_awaited example_platform bool stub_pool _ _ _ _ "hbv_00").
  repeat split; try reflexivity.
  eexists _, _. split; reflexivity.
Defined.

(** Counterexample to C8 as stated: the same verified request gets the
    route's answer when the touch write completes and 500 when it does
    not, so the response waits for the write. *)
Lemma response_waits_for_touch :
  (exists s2, @verified example_platform bool stub_pool (keyed_request "hbv_00")
                (fresh true) "hbv_00" stub_row s2) /\
  (exists s2, @verified example_platform bool stub_pool (keyed_request "hbv_00")
                (fresh false) "hbv_00" stub_row s2) /\
  fst (@authenticateApiKey example_platform bool stub_pool (keyed_request "hbv_00")
         echo_route (fresh true))
  = inr (res_json 200 (AgentsPage [] 0)) /\
  fst (@authenticateApiKey example_platform bool stub_pool (keyed_request "hbv_00")
         echo_route (fresh false))
  = inr (res_json 500 (ErrorBody "Authentication failed")).
Proof.
  repeat split; try reflexivity.
  - eexists. repeat split; try reflexivity. eexists _, _. split; reflexivity.
  - eexists. repeat split; try reflexivity. eexists _, _. split; reflexivity.
Qed.

(** ** The credential store as the database serves it *)

Section CredentialFacts.
Context `{Platform}.

Lemma prop_absent {A} (key : string) (obj : list (string * A)) :
  ~ In key (List.map fst obj) -> prop key obj = None.
Proof.
  induction obj as [| [k v] rest IH]; intros Hnot; [reflexivity |].
  cbn in *. destruct (String.eqb k key) eqn:Heq.
  - apply String.eqb_eq in Heq. tauto.
  - apply IH. tauto.
Qed.

Lemma project_row_keys (cols : list string) (r out : row) :
  project_row cols r = inr out -> List.map fst out = cols.
Proof.
  revert out. induction cols as [| c rest IH]; intros out Hout; cbn in Hout.
  - injection Hout as <-. reflexivity.
  - destruct (prop c r) as [v |]; [| discriminate].
    destruct (project_row rest r) as [e | out']; cbn in Hout; [discriminate |].
    injection Hout as <-. cbn. f_equal. apply IH. reflexivity.
Qed.

Lemma project_rows_keys (cols : list string) (rows out : list row) :
  project_rows cols rows = inr out ->
  Forall (fun r => List.map fst r = cols) out.
Proof.
  revert out. induction rows as [| r rest IH]; intros out Hout; cbn in Hout.
  - injection Hout as <-. constructor.
  - destruct (project_row cols r) as [e | r'] eqn:Hr; cbn in Hout; [discriminate |].
    destruct (project_rows cols rest) as [e | rest']; cbn in Hout; [discriminate |].
    injection Hout as <-. constructor; [eapply project_row_keys; eassumption | auto].
Qed.

Lemma select_active_keys_exec (db : database) :
  exec select_active_keys [] db
  = match project_rows ["id"; "name"; "is_active"]
            (List.filter (passes [("is_active", OpEq, SBool true)]) (tbl_api_keys db)) with
    | inr rows => inr (rows, db)
    | inl e => inl e
    end.
Proof. reflexivity. Qed.

(** The rows that the SELECT of the middleware returns have the three
    columns it names, and so no [key_hash]. *)
Lemma active_keys_have_no_hash (db db' : database) (rows : list row) :
  pg_query select_active_keys [] db = (inr rows, db') ->
  Forall (fun r => prop "key_hash" r = None) rows.
Proof.
  unfold pg_query. destruct (arrive db) as [failed db1].
  destruct failed; [discriminate |].
  rewrite select_active_keys_exec.
  destruct (project_rows _ _) as [e | out] eqn:Hout; [discriminate |].
  intros Heq. injection Heq as <- <-.
  apply project_rows_keys in Hout.
  eapply Forall_impl; [exact Hout |].
  intros r Hkeys. apply prop_absent. rewrite Hkeys.
  cbn. intros [Hin | [Hin | [Hin | []]]]; discriminate.
Qed.

(** Against rows without a hash, every comparison is with the empty
    string and fails: the loop finds no key. *)
Lemma find_valid_key_without_hash {DB : Type} `{Pool DB} (apiKey : string)
    (rows : list row) :
  Forall (fun r => prop "key_hash" r = None) rows ->
  forall s : state DB, exists events,
    find_valid_key apiKey rows s
    = (inr None, State (pool s) (limits s) (date s) (trace s ++ events)) /\
    Forall (fun e => e = EvCompare apiKey "") events.
Proof.
  induction 1 as [| r rest Hr _ IH]; intros s.
  - exists []. rewrite app_nil_r. destruct s; split; [reflexivity | constructor].
  - cbn [find_valid_key]. rewrite Hr. cbn [hash_or_empty].
    unfold bind, emit. cbn [bcrypt_compare].
    destruct (IH (State (pool s) (limits s) (date s) (trace s ++ [EvCompare apiKey ""])))
      as (events & Hrun & Hevents).
    exists (EvCompare apiKey "" :: events). rewrite Hrun. cbn [pool limits date trace].
    rewrite <- app_assoc. split; [reflexivity | constructor; auto].
Qed.

End CredentialFacts.

Section ProvisioningFacts.
Context `{Platform}.

Lemma check_column_inr (cd : column) (v v' : sqlval) :
  check_column cd v = inr v' ->
  v' = v /\ fits (col_type cd) v = true /\ (not_null cd = true -> v <> SNull).
Proof.
  unfold check_column.
  destruct (fits (col_type cd) v); cbn [negb]; [| discriminate].
  destruct (not_null cd); cbn [andb].
  - destruct v; cbn [is_null]; intros Heq; try discriminate;
      injection Heq as <-; repeat split; discriminate.
  - intros Heq; injection Heq as <-; repeat split; discriminate.
Qed.

(** What the script stores: when it prints a key, the table holds an
    active row with the bcrypt hash of that key. *)
Lemma generateApiKey_stores (name : string) (bytes : list N) (salt key : string)
    (s s1 : state database) :
  generateApiKey name bytes salt s = (inr (Some key), s1) ->
  key = "hbv_" ++ hex bytes /\
  exists r, In r (tbl_api_keys (pool s1)) /\
    prop "key_hash" r = Some (SText (bcrypt_hash key salt)) /\
    prop "is_active" r = Some (SBool true).
Proof.
  unfold generateApiKey.
  destruct (truthy_string name); cbn [negb]; [| discriminate].
  unfold try_catch, bind, query. cbn [pool_query PgPool pool limits date trace].
  destruct (pg_query _ _ (pool s)) as [[e | rows] db'] eqn:Hq; [discriminate |].
  destruct rows as [| r0 rows]; [discriminate |].
  intros Heq. injection Heq as <- <-. split; [reflexivity |].
  cbn [pool]. unfold pg_query in Hq.
  destruct (arrive (pool s)) as [failed db1]. destruct failed; [discriminate |].
  destruct (exec _ _ db1) as [e | [out db2]] eqn:Hexec; [discriminate |].
  injection Hq as _ <-.
  cbn in Hexec.
  destruct (check_column _ (SText (bcrypt_hash _ salt))) as [e | v1] eqn:H1;
    [discriminate |].
  apply check_column_inr in H1 as [-> _].
  destruct (check_column _ (SText name)) as [e | v2] eqn:H2; [discriminate |].
  apply check_column_inr in H2 as [-> _].
  cbn in Hexec.
  destruct (_ || _); [discriminate |].
  injection Hexec as _ <-. cbn [tbl_api_keys].
  eexists. split; [apply in_or_app; right; left; reflexivity |].
  split; reflexivity.
Qed.

(** Over the database the [try] block always ends the request: with 401
    when the pool serves the SELECT, with 500 when it does not. *)
Lemma check_api_key_over_database (req : request) (apiKey : string)
    (s : state database) :
  exists r s',
    check_api_key req apiKey s = (inr (inl r), s') /\
    (r = res_json 401 (ErrorBody "Invalid API key") \/
     r = res_json 500 (ErrorBody "Authentication failed")) /\
    (forall rows db', pg_query select_active_keys [] (pool s) = (inr rows, db') ->
       r = res_json 401 (ErrorBody "Invalid API key")).
Proof.
  unfold check_api_key, try_catch. unfold bind at 1.
  unfold query at 1. cbn [pool_query PgPool pool limits date trace].
  destruct (pg_query select_active_keys [] (pool s)) as [[e | rows] db'] eqn:Hq.
  - eexists _, _. split; [reflexivity |]. split; [right; reflexivity |].
    intros rows db'' Heq. discriminate.
  - apply active_keys_have_no_hash in Hq.
    destruct (find_valid_key_without_hash apiKey rows Hq
                (State db' (limits s) (date s)
                   (trace s ++ [EvQuery select_active_keys []])))
      as (events & Hrun & _).
    unfold bind at 1. rewrite Hrun.
    eexists _, _. split; [reflexivity |]. split; [left; reflexivity |].
    intros; reflexivity.
Qed.

(** So no request passes the middleware over the database: every answer
    is one of its three rejections. *)
Lemma database_never_authenticates (req : request)
    (next : request -> M database response) (s : state database) :
  exists r s', authenticateApiKey req next s = (inr r, s') /\ In r auth_rejections.
Proof.
  unfold authenticateApiKey.
  destruct (js_not (presented req)).
  - eexists _, _. split; [reflexivity | left; reflexivity].
  - destruct (check_api_key_over_database req (default "" (presented req)) s)
      as (r & s' & Hrun & [-> | ->] & _); unfold bind; rewrite Hrun;
      eexists _, _; (split; [reflexivity |]); cbn; auto.
Qed.

(** C1, where the code departs from it. Whatever the credential store
    holds, the middleware over the database never lets a request through:
    its SELECT names the columns id, name and is_active, the rows come back
    without key_hash, and every presented key is compared with the empty
    string. In particular the key that the provisioning script has just
    printed and stored is answered 401 'Invalid API key' (500 when the pool
    fails to serve the SELECT). *)
Theorem provisioned_key_is_rejected (name : string) (bytes : list N)
    (salt key : string) (s s1 s2 : state database) (req : request)
    (next : request -> M database response) :
  generateApiKey name bytes salt s = (inr (Some key), s1) ->
  headers req !! "x-api-key" = Some key ->
  pool s2 = pool s1 ->
  (exists r, In r (tbl_api_keys (pool s2)) /\
     prop "key_hash" r = Some (SText (bcrypt_hash key salt)) /\
     prop "is_active" r = Some (SBool true)) /\
  exists r s3,
    authenticateApiKey req next s2 = (inr r, s3) /\
    (r = res_json 401 (ErrorBody "Invalid API key") \/
     r = res_json 500 (ErrorBody "Authentication failed")) /\
    (forall rows db', pg_query select_active_keys [] (pool s2) = (inr rows, db') ->
       r = res_json 401 (ErrorBody "Invalid API key")).
Proof.
  intros Hgen Hheader Hpool.
  apply generateApiKey_stores in Hgen as [Hkey Hrow].
  split; [rewrite Hpool; exact Hrow |].
  unfold authenticateApiKey, presented. rewrite Hheader.
  assert (truthy_string key = true) as Htruthy by (rewrite Hkey; reflexivity).
  cbn [js_or]. rewrite Htruthy. cbn [js_not]. rewrite Htruthy.
  cbn [negb default from_option id].
  destruct (check_api_key_over_database req key s2) as (r & s3 & Hrun & Hr & Hserved).
  unfold bind. rewrite Hrun. eauto 6.
Qed.

End ProvisioningFacts.

(** Witness of C1: a key provisioned into the empty database and
    presented at once is answered 401. *)
Lemma provisioned_key_is_rejected_witness :
  let s1 := provisioned in
  (exists r, In r (tbl_api_keys (pool s1)) /\
     prop "key_hash" r = Some (SText (@bcrypt_hash example_platform "hbv_00ff" "$2b$12$")) /\
     prop "is_active" r = Some (SBool true)) /\
  exists r s3,
    @authenticateApiKey example_platform database (@PgPool example_platform)
      (keyed_request "hbv_00ff") echo_route s1 = (inr r, s3) /\
    (r = res_json 401 (ErrorBody "Invalid API key") \/
     r = res_json 500 (ErrorBody "Authentication failed")) /\
    (forall rows db',
       @pg_query example_platform select_active_keys [] (pool s1) = (inr rows, db') ->
       r = res_json 401 (ErrorBody "Invalid API key")).
Proof.
  apply (@provisioned_key_is_rejected example_platform "primary" [0%N; 255%N]
           "$2b$12$" "hbv_00ff" (fresh empty_database) provisioned provisioned);
    reflexivity.
Defined.

(** The failing run of C1, evaluated: the stored hash matches the key
    under [bcrypt_compare], and the request that presents the key is
    answered 401 after one comparison with the empty string. *)
Example provisioned_key_run :
  let s1 := provisioned in
  prop "key_hash" <$> tbl_api_keys (pool s1) = [Some (SText "$2b$12$hbv_00ff")] /\
  @bcrypt_compare example_platform "hbv_00ff" "$2b$12$hbv_00ff" = true /\
  fst (@authenticateApiKey example_platform database (@PgPool example_platform)
         (keyed_request "hbv_00ff") echo_route s1)
  = inr (res_json 401 (ErrorBody "Invalid API key")) /\
  List.filter (fun e => match e with EvCompare _ _ => true | _ => false end)
    (trace (snd (@authenticateApiKey example_platform database (@PgPool example_platform)
                   (keyed_request "hbv_00ff") echo_route s1)))
  = [EvCompare "hbv_00ff" ""].
Proof. repeat split. Qed.

(** ** Queries: ordering, filters and pages *)

Section OrderingFacts.

Lemma desc_le_total (c : string) (r1 r2 : row) :
  desc_le c r1 r2 = true \/ desc_le c r2 r1 = true.
Proof.
  unfold desc_le. destruct (time_key c r1) as [x |], (time_key c r2) as [y |]; auto.
  destruct (Z.leb_spec y x); [auto | right; apply Z.leb_le; lia].
Qed.

Lemma desc_le_trans (c : string) (r1 r2 r3 : row) :
  desc_le c r1 r2 = true -> desc_le c r2 r3 = true -> desc_le c r1 r3 = true.
Proof.
  unfold desc_le.
  destruct (time_key c r1) as [x |], (time_key c r2) as [y |],
    (time_key c r3) as [z |]; try (intros; congruence).
  rewrite !Z.leb_le. lia.
Qed.

Lemma insert_desc_perm (c : string) (r : row) (rows : list row) :
  Permutation (insert_desc c r rows) (r :: rows).
Proof.
  induction rows as [| r' rest IH]; cbn; [reflexivity |].
  destruct (desc_le c r r'); [reflexivity |].
  rewrite IH. apply perm_swap.
Qed.

Lemma insert_desc_sorted (c : string) (r : row) (rows : list row) :
  descending c rows -> descending c (insert_desc c r rows).
Proof.
  unfold descending.
  induction 1 as [| r' rest Hrest IH Hall]; cbn.
  - repeat constructor.
  - destruct (desc_le c r r') eqn:Hle.
    + constructor; [constructor; assumption |].
      constructor; [assumption |].
      eapply Forall_impl; [exact Hall |].
      intros x Hx. eapply desc_le_trans; eassumption.
    + constructor; [assumption |].
      rewrite (insert_desc_perm c r rest).
      constructor; [| assumption].
      destruct (desc_le_total c r r'); congruence.
Qed.

Lemma order_by_desc_perm (c : string) (rows : list row) :
  Permutation (order_by_desc c rows) rows.
Proof.
  induction rows as [| r rest IH]; cbn; [reflexivity |].
  rewrite insert_desc_perm. constructor. exact IH.
Qed.

Lemma order_by_desc_sorted (c : string) (rows : list row) :
  descending c (order_by_desc c rows).
Proof.
  induction rows as [| r rest IH]; cbn; [constructor |].
  apply insert_desc_sorted, IH.
Qed.

Lemma descending_take (c : string) (n : nat) (rows : list row) :
  descending c rows -> descending c (take n rows).
Proof.
  unfold descending. intros Hsorted.
  rewrite <- (take_drop n rows) in Hsorted.
  eapply StronglySorted_app_1_l, Hsorted.
Qed.

Lemma descending_drop (c : string) (n : nat) (rows : list row) :
  descending c rows -> descending c (drop n rows).
Proof.
  unfold descending. intros Hsorted.
  rewrite <- (take_drop n rows) in Hsorted.
  eapply StronglySorted_app_1_r, Hsorted.
Qed.

End OrderingFacts.

Section SelectFacts.
Context `{Platform}.

(** What an ordered SELECT * returns: the rows of the table that pass the
    conditions, ordered, then cut by OFFSET and LIMIT. *)
Lemma exec_select_ordered (t : table_name) (where_ : list cond) (c : string)
    (limit offset : option expr) (params : list jsparam) (db : database)
    (rows : list row) :
  exec_select None t where_ (Some c) limit offset params db = inr rows ->
  exists bs l o skipped,
    bind_conds t params (now db) where_ = inr bs /\
    bound params limit = inr l /\
    bound params offset = inr o /\
    apply_offset o (order_by_desc c (List.filter (passes bs) (table_of t db)))
    = inr skipped /\
    apply_limit l skipped = inr rows.
Proof.
  unfold exec_select, order_rows.
  destruct (bind_conds t params (now db) where_) as [e | bs]; [discriminate |].
  destruct (bound params limit) as [e | l]; [discriminate |].
  destruct (bound params offset) as [e | o]; [discriminate |].
  cbn [ebind].
  destruct (type_of_column t c) as [e | ty]; [discriminate |].
  cbn [ebind].
  destruct ty; try discriminate. cbn [ebind].
  destruct (apply_offset o _) as [e | skipped] eqn:Hskip; [discriminate |].
  cbn [ebind project]. intros Hlimit.
  exists bs, l, o, skipped. repeat split; try assumption.
  destruct (apply_limit l skipped) as [e | page]; [discriminate | exact Hlimit].
Qed.

Lemma apply_offset_inr (o : option Z) (rows out : list row) :
  apply_offset o rows = inr out ->
  exists n, out = drop n rows /\ forall z, o = Some z -> 0 <= z.
Proof.
  unfold apply_offset. destruct o as [z |].
  - destruct (Z.ltb_spec z 0); [discriminate |].
    intros Heq. injection Heq as <-. exists (Z.to_nat z). split; [reflexivity |].
    intros z' Hz. injection Hz as <-. assumption.
  - intros Heq. injection Heq as <-. exists 0%nat. split; [reflexivity | discriminate].
Qed.

Lemma apply_limit_inr (l : option Z) (rows out : list row) :
  apply_limit l rows = inr out ->
  exists n, out = take n rows /\
    forall z, l = Some z -> 0 <= z /\ Z.of_nat (List.length out) <= z.
Proof.
  unfold apply_limit. destruct l as [z |].
  - destruct (Z.ltb_spec z 0); [discriminate |].
    intros Heq. injection Heq as <-. exists (Z.to_nat z). split; [reflexivity |].
    intros z' Hz. injection Hz as <-. split; [assumption |].
    rewrite length_take. lia.
  - intros Heq. injection Heq as <-. exists (List.length rows).
    split; [symmetry; apply firstn_all | discriminate].
Qed.

Lemma bind_conds_in (t : table_name) (params : list jsparam) (clock : Z)
    (cs : list cond) (bs : list bound_cond) (c : cond) :
  bind_conds t params clock cs = inr bs ->
  In c cs ->
  exists b, bind_cond t params clock c = inr b /\ In b bs.
Proof.
  revert bs. induction cs as [| c' rest IH]; intros bs Hbind Hin; [destruct Hin |].
  cbn in Hbind.
  destruct (bind_cond t params clock c') as [e | b'] eqn:Hc'; [discriminate |].
  destruct (bind_conds t params clock rest) as [e | bs']; [discriminate |].
  cbn in Hbind. injection Hbind as <-.
  destruct Hin as [<- | Hin].
  - exists b'. split; [assumption | left; reflexivity].
  - destruct (IH bs' eq_refl Hin) as (b & Hb & Hbin).
    exists b. split; [assumption | right; assumption].
Qed.

Lemma add_filter_keeps (v : option qval) (col : string) (op : cmp)
    (q : list cond * list jsparam) :
  (forall c, In c (fst q) -> In c (fst (add_filter v col op q))) /\
  (forall i p, nth_error (snd q) i = Some p ->
     nth_error (snd (add_filter v col op q)) i = Some p).
Proof.
  unfold add_filter. destruct v as [x |]; [| auto].
  destruct (truthy x); [| auto]. cbn [fst snd]. split.
  - intros c Hc. apply in_or_app. auto.
  - intros i p Hp. rewrite nth_error_app1; [assumption |].
    apply nth_error_Some. congruence.
Qed.

Lemma add_filter_adds (x : qval) (col : string) (op : cmp)
    (q : list cond * list jsparam) :
  truthy x = true ->
  exists i,
    In (Cond col op (Param (S i))) (fst (add_filter (Some x) col op q)) /\
    nth_error (snd (add_filter (Some x) col op q)) i = Some (param_of_query x).
Proof.
  intros Htruthy. unfold add_filter. rewrite Htruthy. cbn [fst snd].
  exists (List.length (snd q)). split.
  - apply in_or_app. right. left. reflexivity.
  - rewrite nth_error_app2 by lia. rewrite Nat.sub_diag. reflexivity.
Qed.

Lemma nth_error_app_keeps {A} (l extra : list A) (i : nat) (a : A) :
  nth_error l i = Some a -> nth_error (l ++ extra) i = Some a.
Proof.
  intros Hi. rewrite nth_error_app1; [assumption |].
  apply nth_error_Some. congruence.
Qed.

(** The statement of the results route always carries LIMIT and OFFSET,
    bound to the two parsed numbers. *)
Lemma results_query_shape (req : request) :
  exists where_ params,
    results_query req
    = (SELECT None results where_ (Some "timestamp")
         (Some (Param (S (List.length params))))
         (Some (Param (S (S (List.length params))))),
       ((params ++ [PNum (parseInt_or (query_string req !! "limit") 100)])
          ++ [PNum (parseInt_or (query_string req !! "offset") 0)])%list) /\
    forall sev, query_string req !! "severity" = Some sev -> truthy sev = true ->
      exists i, In (Cond "severity" OpEq (Param (S i))) where_ /\
                nth_error params i = Some (param_of_query sev).
Proof.
  unfold results_query.
  set (f1 := add_filter (query_string req !! "agent_id") "agent_id" OpEq ([], [])).
  set (f2 := add_filter (query_string req !! "module") "module" OpEq f1).
  set (f3 := add_filter (query_string req !! "severity") "severity" OpEq f2).
  set (f4 := add_filter (query_string req !! "since") "timestamp" OpGe f3).
  exists (fst f4), (snd f4). split.
  - cbv zeta. rewrite !length_app. cbn [List.length].
    rewrite !Nat.add_1_r. reflexivity.
  - intros sev Hsev Htruthy.
    destruct (add_filter_adds sev "severity" OpEq f2 Htruthy) as (i & Hin & Hnth).
    exists i. subst f4 f3. rewrite Hsev.
    split; apply add_filter_keeps; assumption.
Qed.

Lemma In_take_drop {A} (n m : nat) (l : list A) (x : A) :
  In x (take n (drop m l)) -> In x l.
Proof.
  rewrite <- !list_elem_of_In. intros Hx.
  apply (subseteq_drop m l), (subseteq_take n (drop m l)), Hx.
Qed.

Lemma bigint_in_number (n : number) (b : option Z) :
  bigint_in (PNum n) = inr b -> exists z, n = Int z /\ b = Some z.
Proof.
  destruct n as [| z |]; cbn; try discriminate.
  destruct (_ && _); [| discriminate].
  intros Heq. injection Heq as <-. eauto.
Qed.

Lemma sqlval_eqb_text (v : sqlval) (s : string) :
  sqlval_eqb v (SText s) = true -> v = SText s.
Proof.
  destruct v; cbn; try discriminate.
  intros Heq. apply String.eqb_eq in Heq. congruence.
Qed.

(** The page that the results route answers with, when it answers 200. *)
Lemma get_results_page (req : request) (s s' : state database) (rows : list row)
    (n : nat) (l o : number) :
  get_results req s = (inr (res_json 200 (ResultsPage rows n l o)), s') ->
  l = parseInt_or (query_string req !! "limit") 100 /\
  o = parseInt_or (query_string req !! "offset") 0 /\
  n = List.length rows /\
  exists bs lz oz k m,
    l = Int lz /\ o = Int oz /\ 0 <= lz /\ 0 <= oz /\
    Z.of_nat (List.length rows) <= lz /\
    rows = take k
             (drop m
                (order_by_desc "timestamp"
                   (List.filter (passes bs) (tbl_results (pool s'))))) /\
    forall sev, query_string req !! "severity" = Some sev -> truthy sev = true ->
      In ("severity", OpEq, SText (query_text sev)) bs.
Proof.
  unfold get_results, try_catch, bind, query.
  cbn [pool_query PgPool pool limits date trace].
  destruct (results_query_shape req) as (where_ & params & Hshape & Hsev).
  rewrite Hshape. cbn [fst snd].
  destruct (pg_query _ _ (pool s)) as [[e | rows0] db'] eqn:Hq; [discriminate |].
  cbv beta iota. unfold ret. intros Heq.
  injection Heq as <- <- <- <- <-. cbn [pool].
  repeat (split; [reflexivity |]).
  unfold pg_query in Hq. destruct (arrive (pool s)) as [failed db1].
  destruct failed; [discriminate |].
  destruct (exec _ _ db1) as [e | [out db2]] eqn:Hexec; [discriminate |].
  injection Hq as <- <-. cbn [exec] in Hexec.
  destruct (exec_select _ _ _ _ _ _ _ db1) as [e | out'] eqn:Hselect; [discriminate |].
  cbn [ebind] in Hexec. injection Hexec as <- <-.
  apply exec_select_ordered in Hselect
    as (bs & lb & ob & skipped & Hbind & Hlimit & Hoffset & Hskip & Htake).
  cbn [bound] in Hlimit, Hoffset.
  rewrite (nth_error_app_keeps _ _ (List.length params) (PNum (parseInt_or (query_string req !! "limit") 100)))
    in Hlimit
    by (rewrite nth_error_app2 by lia; rewrite Nat.sub_diag; reflexivity).
  rewrite nth_error_app2 in Hoffset by (rewrite length_app; cbn; lia).
  replace (S (List.length params) - List.length (params ++ [_]))%nat with 0%nat in Hoffset
    by (rewrite length_app; cbn; lia).
  cbn [nth_error] in Hoffset.
  apply bigint_in_number in Hlimit as (lz & Hl & ->).
  apply bigint_in_number in Hoffset as (oz & Ho & ->).
  apply apply_offset_inr in Hskip as (m & -> & Hoz).
  apply apply_limit_inr in Htake as (k & -> & Hlz).
  exists bs, lz, oz, k, m. rewrite Hl, Ho.
  repeat (split; [first [reflexivity | apply (Hlz lz eq_refl) | apply (Hoz oz eq_refl)] |]).
  intros sev Hsevq Htruthy.
    destruct (Hsev sev Hsevq Htruthy) as (i & Hin & Hnth).
    destruct (bind_conds_in _ _ _ _ _ _ Hbind Hin) as (b & Hb & Hbin).
    unfold bind_cond in Hb. cbn in Hb.
    rewrite (nth_error_app_keeps _ _ i (param_of_query sev)) in Hb
      by (apply nth_error_app_keeps; exact Hnth).
  destruct sev; cbn in Hb; injection Hb as <-; exact Hbin.
Qed.

(** [parseInt] reads a limit or offset written in decimal digits as the
    number it denotes. *)
Lemma digit_of_digit (d : nat) :
  (d < 10)%nat -> digit_of (ascii_of_nat (48 + d)) = Some (Z.of_nat d).
Proof. intros Hd. do 10 (destruct d as [| d]; [reflexivity |]). lia. Qed.

Lemma leading_digits_decimal (digits : list nat) (acc : option Z) :
  List.Forall (fun d => (d < 10)%nat) digits ->
  leading_digits (decimal digits) acc
  = match digits with
    | [] => acc
    | _ => Some (fold_left (fun a d => 10 * a + Z.of_nat d) digits (default 0 acc))
    end.
Proof.
  intros Hdigits. revert acc.
  induction Hdigits as [| d rest Hd _ IH]; intros acc; [reflexivity |].
  unfold decimal. cbn [List.map string_of_list_ascii leading_digits].
  rewrite (digit_of_digit d Hd).
  fold (decimal rest). rewrite IH. destruct rest; reflexivity.
Qed.

Lemma parseInt_decimal (digits : list nat) :
  digits <> [] ->
  List.Forall (fun d => (d < 10)%nat) digits ->
  decimal_value digits <= 2 ^ 53 ->
  parseInt (decimal digits) = Int (decimal_value digits).
Proof.
  intros Hne Hdigits Hsmall.
  destruct digits as [| d rest]; [congruence |].
  assert (0 <= decimal_value (d :: rest)) as Hpos.
  { unfold decimal_value. generalize (d :: rest). intros l.
    assert (forall a, 0 <= a -> 0 <= fold_left (fun acc d => 10 * acc + Z.of_nat d) l a)
      as Hfold by (induction l; cbn; intros; [assumption | apply IHl; lia]).
    apply Hfold. lia. }
  pose proof (leading_digits_decimal (d :: rest) None Hdigits) as Hread.
  apply List.Forall_cons_iff in Hdigits as [Hd _].
  unfold parseInt, number_of.
  assert (skip_spaces (decimal (d :: rest)) = decimal (d :: rest)) as ->.
  { unfold decimal, skip_spaces. cbn [List.map string_of_list_ascii String.length].
    do 10 (destruct d as [| d];
           [destruct (string_of_list_ascii _) as [| c1 [| c2 tail]]; reflexivity |]).
    lia. }
  assert (match decimal (d :: rest) with
          | String "-" tail => (true, tail)
          | String "+" tail => (false, tail)
          | _ => (false, decimal (d :: rest))
          end = (false, decimal (d :: rest))) as ->.
  { unfold decimal. cbn [List.map string_of_list_ascii].
    do 10 (destruct d as [| d]; [reflexivity |]). lia. }
  rewrite Hread. cbn [default from_option id].
  fold (decimal_value (d :: rest)).
  rewrite Z.abs_eq by assumption.
  destruct (Z.leb_spec (decimal_value (d :: rest)) (2 ^ 53)); [reflexivity | lia].
Qed.

(** C5. Whenever the results route answers with a page, its rows are in
    descending order of timestamp, and when a severity was given (a value
    that passes the route's test [if (severity)], such as "high") every
    row of the page has exactly that severity. *)
Theorem results_sorted_and_filtered (req : request) (s s' : state database)
    (rows : list row) (n : nat) (l o : number) :
  get_results req s = (inr (res_json 200 (ResultsPage rows n l o)), s') ->
  descending "timestamp" rows /\
  forall sev, query_string req !! "severity" = Some sev -> truthy sev = true ->
    Forall (fun r => prop "severity" r = Some (SText (query_text sev))) rows.
Proof.
  intros Hrun.
  apply get_results_page in Hrun
    as (_ & _ & _ & bs & lz & oz & k & m & _ & _ & _ & _ & _ & -> & Hsev).
  split.
  - apply descending_take, descending_drop, order_by_desc_sorted.
  - intros sev Hq Htruthy. specialize (Hsev sev Hq Htruthy).
    apply List.Forall_forall. intros r Hr.
    apply In_take_drop in Hr.
    apply (Permutation_in _ (order_by_desc_perm _ _)) in Hr.
    apply filter_In in Hr as [_ Hpass].
    unfold passes in Hpass. rewrite forallb_forall in Hpass.
    specialize (Hpass _ Hsev). cbn [holds] in Hpass.
    destruct (prop "severity" r) as [v |]; [| discriminate].
    apply sqlval_eqb_text in Hpass. congruence.
Qed.

(** C6. Whenever the results route answers with a page, the limit and the
    offset in effect are integers that are not negative, and the page has
    at most limit rows; when the caller gave no limit, the limit is 100
    and the page has at most 100 rows; and a limit or offset given in
    decimal digits is in effect as the number it denotes. *)
Theorem results_page_is_bounded (req : request) (s s' : state database)
    (rows : list row) (n : nat) (l o : number) :
  get_results req s = (inr (res_json 200 (ResultsPage rows n l o)), s') ->
  (exists lz oz, l = Int lz /\ o = Int oz /\ 0 <= lz /\ 0 <= oz /\
     n = List.length rows /\ Z.of_nat (List.length rows) <= lz) /\
  (query_string req !! "limit" = None ->
     l = Int 100 /\ (List.length rows <= 100)%nat) /\
  (forall z, written (query_string req !! "limit") z -> l = Int z) /\
  (forall z, written (query_string req !! "offset") z -> o = Int z).
Proof.
  intros Hrun.
  apply get_results_page in Hrun
    as (Hl & Ho & Hn & bs & lz & oz & k & m & Hlz & Hoz & Hl0 & Ho0 & Hlen & _ & _).
  split; [| split; [| split]].
  - exists lz, oz. auto 10.
  - intros Hnone. rewrite Hnone in Hl. cbn in Hl.
    rewrite Hl in Hlz. injection Hlz as <-. split; [assumption | lia].
  - intros z (digits & Hq & Hne & Hdigits & <- & Hsmall).
    rewrite Hl, Hq. cbn [parseInt_or js_string]. apply parseInt_decimal; assumption.
  - intros z (digits & Hq & Hne & Hdigits & <- & Hsmall).
    rewrite Ho, Hq. cbn [parseInt_or js_string]. apply parseInt_decimal; assumption.
Qed.

(** The results route with an empty query string, served by the pool,
    answers with a page under the default limit and offset. *)
Lemma get_results_default (req : request) (s : state database) :
  query_string req = ∅ ->
  fst (arrive (pool s)) = false ->
  exists rows s',
    get_results req s
    = (inr (res_json 200 (ResultsPage rows (List.length rows) (Int 100) (Int 0))), s').
Proof.
  intros Hq Hserved.
  unfold get_results, try_catch, bind, query, results_query.
  rewrite Hq. rewrite !lookup_empty.
  cbn [pool_query PgPool pool limits date trace add_filter fst snd].
  unfold pg_query. destruct (arrive (pool s)) as [failed db1].
  cbn in Hserved. subst failed.
  cbn. eexists _, _. reflexivity.
Qed.

(** *** Listing agents *)

Lemma passes_is_active (r : row) :
  passes [("is_active", OpEq, SBool true)] r = active r.
Proof.
  unfold passes, active. cbn.
  destruct (prop "is_active" r) as [[| [|] | | | |] |]; reflexivity.
Qed.

(** C10. The agents route, when the pool serves its statement, answers
    with the rows that [listed] selects, in descending order of last_seen:
    the active agents when active_only is absent or is exactly 'true',
    and all agents, inactive ones included, for any other value. When the
    pool fails, the answer is 500. *)
Theorem agents_listing (req : request) (s : state database) :
  exists r s',
    get_agents req s = (inr r, s') /\
    (fst (arrive (pool s)) = true ->
       r = res_json 500 (ErrorBody "Failed to list agents")) /\
    (fst (arrive (pool s)) = false ->
       exists rows,
         r = res_json 200 (AgentsPage rows (List.length rows)) /\
         tbl_agents (pool s') = tbl_agents (pool s) /\
         descending "last_seen" rows /\
         Permutation rows (List.filter (listed req) (tbl_agents (pool s))) /\
         (query_string req !! "active_only" = None ->
            Permutation rows (List.filter active (tbl_agents (pool s)))) /\
         (query_string req !! "active_only" = Some (QStr "true") ->
            Permutation rows (List.filter active (tbl_agents (pool s)))) /\
         (forall v, query_string req !! "active_only" = Some v -> v <> QStr "true" ->
            Permutation rows (tbl_agents (pool s)))).
Proof.
  unfold get_agents, try_catch, bind, query.
  cbn [pool_query PgPool pool limits date trace].
  unfold pg_query.
  assert (tbl_agents (snd (arrive (pool s))) = tbl_agents (pool s)) as Htable.
  { unfold arrive. destruct (schedule (pool s)); reflexivity. }
  destruct (arrive (pool s)) as [failed db1]. cbn [fst snd] in *.
  destruct failed.
  - eexists _, _. split; [reflexivity |]. split; [reflexivity | discriminate].
  - assert (exec (agents_query req) [] db1
            = inr (order_by_desc "last_seen" (List.filter (listed req) (tbl_agents db1)), db1))
      as Hexec.
    { unfold agents_query, listed.
      destruct (query_string req !! "active_only") as [v |]; cbn [default from_option id].
      - destruct (strict_equal v "true"); cbn.
        + erewrite filter_ext; [reflexivity |]. intros r. apply passes_is_active.
        + erewrite filter_ext; [reflexivity |]. reflexivity.
      - cbn. erewrite filter_ext; [reflexivity |]. intros r. apply passes_is_active. }
    rewrite Hexec. cbv beta iota.
    eexists _, _. split; [reflexivity |]. split; [discriminate |].
    intros _. eexists. split; [reflexivity |]. cbn [pool].
    rewrite <- Htable.
    split; [reflexivity |].
    split; [apply order_by_desc_sorted |].
    split; [apply order_by_desc_perm |].
    unfold listed.
    split; [| split].
    + intros ->. apply order_by_desc_perm.
    + intros ->. cbn. apply order_by_desc_perm.
    + intros v -> Hne.
      assert (strict_equal v "true" = false) as ->.
      { destruct v as [x | |]; cbn; try reflexivity.
        apply String.eqb_neq. congruence. }
      rewrite order_by_desc_perm.
      clear. induction (tbl_agents db1) as [| r rest IH]; cbn; [reflexivity |].
      constructor. exact IH.
Qed.

End SelectFacts.

(** ** The agent registry *)

Section RowFacts.

Lemma prop_set_col_other (c c' : string) (v : sqlval) (r : row) :
  c <> c' -> prop c' (set_col c v r) = prop c' r.
Proof.
  intros Hne. induction r as [| [k x] rest IH]; [reflexivity |].
  cbn. destruct (String.eqb_spec k c) as [-> | Hkc]; cbn.
  - destruct (String.eqb_spec c c'); [contradiction | exact IH].
  - destruct (String.eqb k c'); [reflexivity | exact IH].
Qed.

Lemma prop_set_col_same (c : string) (v : sqlval) (r : row) :
  In c (List.map fst r) -> prop c (set_col c v r) = Some v.
Proof.
  induction r as [| [k x] rest IH]; [intros [] |].
  cbn. intros Hin. destruct (String.eqb_spec k c) as [-> | Hkc]; cbn.
  - rewrite String.eqb_refl. reflexivity.
  - destruct (String.eqb_spec k c); [contradiction |].
    apply IH. destruct Hin; [contradiction | assumption].
Qed.

Lemma set_col_keys (c : string) (v : sqlval) (r : row) :
  List.map fst (set_col c v r) = List.map fst r.
Proof.
  unfold set_col. rewrite List.map_map. apply List.map_ext.
  intros [k x]. cbn. destruct (String.eqb k c); reflexivity.
Qed.

Lemma agent_named_set_col (a c : string) (v : sqlval) (r : row) :
  c <> "agent_id" -> agent_named a (set_col c v r) = agent_named a r.
Proof.
  intros Hne. unfold agent_named. rewrite prop_set_col_other by assumption.
  reflexivity.
Qed.

Lemma same_at_agent_l (a : string) (new r : row) :
  prop "agent_id" new = Some (SText a) ->
  same_at "agent_id" new r = agent_named a r.
Proof.
  intros Hnew. unfold same_at, agent_named. rewrite Hnew.
  destruct (prop "agent_id" r) as [[] |]; reflexivity.
Qed.

Lemma same_at_agent_r (a : string) (new r : row) :
  prop "agent_id" new = Some (SText a) ->
  same_at "agent_id" r new = agent_named a r.
Proof.
  intros Hnew. unfold same_at, agent_named. rewrite Hnew.
  destruct (prop "agent_id" r) as [[] |]; try reflexivity.
  cbn. apply String.eqb_sym.
Qed.

(** A map that changes only the rows it selects, and leaves them
    selected, commutes with the selection. *)
Lemma filter_map_selected (p : row -> bool) (f : row -> row) (rows : list row) :
  (forall r, p (f r) = p r) ->
  List.filter p (List.map (fun r => if p r then f r else r) rows)
  = List.map f (List.filter p rows).
Proof.
  intros Hp. induction rows as [| r rest IH]; [reflexivity |].
  cbn. destruct (p r) eqn:Hr.
  - rewrite Hp, Hr. cbn. f_equal. exact IH.
  - rewrite Hr. exact IH.
Qed.

(** A map that keeps what [p] and [g] see commutes with selecting by [p]
    and reading by [g]. *)
Lemma map_filter_kept {B} (p : row -> bool) (g : row -> B) (f : row -> row)
    (rows : list row) :
  (forall r, p (f r) = p r) -> (forall r, g (f r) = g r) ->
  List.map g (List.filter p (List.map f rows)) = List.map g (List.filter p rows).
Proof.
  intros Hp Hg. induction rows as [| r rest IH]; [reflexivity |].
  cbn. rewrite Hp. destruct (p r); cbn; [rewrite Hg; f_equal |]; exact IH.
Qed.

End RowFacts.

Section AgentFacts.
Context `{Platform}.

Lemma assign_where_map (sel : row -> bool) (f : row -> row) (t : table_name)
    (set : list (string * expr)) (params : list jsparam) (clock : Z)
    (excluded : option row) (rows : list row) :
  (forall r, assign t set params clock excluded r = inr (f r)) ->
  assign_where sel t set params clock excluded rows
  = inr (List.map (fun r => if sel r then f r else r) rows,
         List.map f (List.filter sel rows)).
Proof.
  intros Hassign. induction rows as [| r rest IH]; [reflexivity |].
  cbn [assign_where]. rewrite IH. cbn [ebind].
  destruct (sel r) eqn:Hsel; cbn [List.map List.filter fst snd].
  - rewrite Hassign, Hsel. reflexivity.
  - rewrite Hsel. reflexivity.
Qed.

(** The upsert, statement by statement: when it succeeds, the agents
    table is [upserted] with the values that the parameters read as, and
    nothing else of the database changes but the seed. *)
Lemma upsert_agent_exec (a : string) (ph pp pv pip : jsparam) (m : json)
    (db : database) (out : list row) (db' : database) :
  exec upsert_agent [PText a; ph; pp; pv; pip; PJsonText m] db = inr (out, db') ->
  exists vh vp vv vip,
    input (VARCHAR 255) ph = inr vh /\
    input (VARCHAR 100) pp = inr vp /\
    input (VARCHAR 50) pv = inr vv /\
    input INET pip = inr vip /\
    tbl_agents db' = upserted (uuid_seed db) a vh vp vip vv m (now db) (tbl_agents db) /\
    tbl_results db' = tbl_results db /\
    tbl_api_keys db' = tbl_api_keys db /\
    now db' = now db /\
    schedule db' = schedule db.
Proof.
  intros Hexec. cbn in Hexec.
  destruct (check_column _ (SText a)) as [e | v1] eqn:H1; [discriminate |].
  apply check_column_inr in H1 as (-> & H1 & _).
  destruct (input (VARCHAR 255) ph) as [e | vh] eqn:Hh; [discriminate |].
  cbn [ebind] in Hexec.
  destruct (check_column _ vh) as [e | v2] eqn:H2; [discriminate |].
  pose proof H2 as H2'. apply check_column_inr in H2' as (-> & _).
  destruct (input (VARCHAR 100) pp) as [e | vp] eqn:Hp; [discriminate |].
  cbn [ebind] in Hexec.
  destruct (check_column _ vp) as [e | v3] eqn:H3; [discriminate |].
  pose proof H3 as H3'. apply check_column_inr in H3' as (-> & _).
  destruct (input INET pip) as [e | vip] eqn:Hip; [discriminate |].
  cbn [ebind] in Hexec.
  destruct (check_column _ vip) as [e | v4] eqn:H4; [discriminate |].
  pose proof H4 as H4'. apply check_column_inr in H4' as (-> & _).
  destruct (input (VARCHAR 50) pv) as [e | vv] eqn:Hv; [discriminate |].
  cbn [ebind] in Hexec.
  destruct (check_column _ vv) as [e | v5] eqn:H5; [discriminate |].
  pose proof H5 as H5'. apply check_column_inr in H5' as (-> & _).
  cbn in Hexec.
  change [("id", SUuid (uuid_seed db)); ("agent_id", SText a); ("hostname", vh);
          ("platform", vp); ("ip_address", vip); ("version", vv);
          ("first_seen", STime (now db)); ("last_seen", STime (now db));
          ("is_active", SBool true); ("metadata", SJson m)]
    with (new_agent (uuid_seed db) a vh vp vip vv m (now db)) in Hexec.
  set (new := new_agent (uuid_seed db) a vh vp vip vv m (now db)) in *.
  assert (forall r, same_at "agent_id" new r = agent_named a r) as Hsame
    by (intros r; apply same_at_agent_l; reflexivity).
  assert (forall rows, existsb (same_at "agent_id" new) rows
                       = existsb (agent_named a) rows) as Hexists.
  { induction rows as [| r rest IH]; [reflexivity |].
    cbn [existsb]. rewrite Hsame, IH. reflexivity. }
  exists vh, vp, vv, vip. repeat (split; [reflexivity |]).
  unfold upserted. rewrite Hexists in Hexec.
  destruct (existsb (agent_named a) (tbl_agents db)).
  - rewrite (assign_where_map _ (refreshed vh vp vip vv m (now db))) in Hexec.
    + cbn [ebind returning_rows fst snd] in Hexec. injection Hexec as _ <-.
      cbn [tbl_agents tbl_results tbl_api_keys now schedule with_table with_seed].
      split; [| repeat split; reflexivity].
      apply List.map_ext. intros r. rewrite Hsame. reflexivity.
    + intros r. cbn. rewrite H2. cbn. rewrite H3. cbn. rewrite H5. cbn.
      rewrite H4. cbn. reflexivity.
  - cbn [orb] in Hexec.
    destruct (existsb (same_at "id" new) (tbl_agents db)); [discriminate |].
    injection Hexec as _ <-.
    cbn [tbl_agents tbl_results tbl_api_keys now schedule].
    repeat split; reflexivity.
Qed.

(** The beacon record: when the INSERT succeeds, the trigger has touched
    the rows of the agent. *)
Lemma record_beacon_exec (a : string) (pip : jsparam) (m : json)
    (db : database) (out : list row) (db' : database) :
  exec record_beacon [PText a; pip; PJsonText m] db = inr (out, db') ->
  tbl_agents db' = touched a (now db) (tbl_agents db) /\
  tbl_results db' = tbl_results db /\
  tbl_api_keys db' = tbl_api_keys db /\
  now db' = now db /\
  schedule db' = schedule db.
Proof.
  intros Hexec. cbn in Hexec.
  destruct (check_column _ (SText a)) as [e | v1] eqn:H1; [discriminate |].
  apply check_column_inr in H1 as (-> & H1 & _).
  destruct (input INET pip) as [e | vip] eqn:Hip; [discriminate |].
  cbn [ebind] in Hexec.
  destruct (check_column _ vip) as [e | v4] eqn:H4; [discriminate |].
  apply check_column_inr in H4 as (-> & _).
  match type of Hexec with
  | context [check_column ?cd (SText "active")] =>
      replace (check_column cd (SText "active")) with (@inr string sqlval (SText "active"))
        in Hexec by (vm_compute; reflexivity)
  end.
  cbn in Hexec.
  destruct (_ || _); [discriminate |].
  destruct (negb _); [discriminate |].
  injection Hexec as _ <-.
  cbn [tbl_agents tbl_results tbl_api_keys now schedule].
  split; [| repeat split; reflexivity].
  unfold update_agent_last_seen, touched. apply List.map_ext. intros r.
  rewrite (same_at_agent_r a) by reflexivity. reflexivity.
Qed.

(** *** What a validated beacon holds *)

Lemma validate_key_string (name : string) (req : bool) (v v' : option json) :
  validate_key (JoiKey name (Joi_string []) req) v = inr v' ->
  string_field v' /\ (req = true -> exists s, v' = Some (JStr s)).
Proof.
  unfold validate_key, string_field. cbn [required key_type key_name].
  destruct v as [j |].
  - destruct j as [| | | s | |]; try discriminate.
    destruct s; [discriminate |].
    intros Heq. injection Heq as <-. eauto.
  - destruct req; [discriminate |].
    intros Heq. injection Heq as <-. split; [auto | discriminate].
Qed.

Lemma validate_key_object (name : string) (req : bool) (v v' : option json) :
  validate_key (JoiKey name Joi_object req) v = inr v' -> object_field v'.
Proof.
  unfold validate_key, object_field. cbn [required key_type key_name].
  destruct v as [j |].
  - destruct (coerce_object j); try discriminate.
    intros Heq. injection Heq as <-. eauto.
  - destruct req; [discriminate |].
    intros Heq. injection Heq as <-. auto.
Qed.

Lemma validate_keys_names (schema : list joi_key) (fields vs : list (string * json))
    (name : string) :
  validate_keys schema fields = inr vs ->
  ~ In name (List.map key_name schema) -> prop name vs = None.
Proof.
  revert vs. induction schema as [| k rest IH]; intros vs Hrun Hnot; cbn in Hrun.
  - injection Hrun as <-. reflexivity.
  - destruct (validate_key k _) as [e | v]; [discriminate |].
    destruct (validate_keys rest fields) as [e | vs']; [discriminate |].
    cbn in Hrun. injection Hrun as <-.
    cbn in Hnot.
    assert (prop name vs' = None) as Hrest by (apply IH; [reflexivity | tauto]).
    destruct v as [j |]; [| exact Hrest].
    cbn. destruct (String.eqb_spec (key_name k) name); [tauto | exact Hrest].
Qed.

(** A field of the validated value is what the key's schema made of the
    field of the body. *)
Lemma validate_keys_prop (schema : list joi_key) (fields vs : list (string * json))
    (k : joi_key) :
  validate_keys schema fields = inr vs ->
  NoDup (List.map key_name schema) ->
  In k schema ->
  validate_key k (prop (key_name k) fields) = inr (prop (key_name k) vs).
Proof.
  revert vs. induction schema as [| k0 rest IH]; intros vs Hrun Hnodup Hin;
    [destruct Hin |].
  cbn in Hrun.
  destruct (validate_key k0 _) as [e | v] eqn:Hk0; [discriminate |].
  destruct (validate_keys rest fields) as [e | vs'] eqn:Hrest; [discriminate |].
  cbn in Hrun. injection Hrun as <-.
  cbn in Hnodup. apply NoDup_cons in Hnodup as [Hfresh Hnodup].
  rewrite list_elem_of_In in Hfresh.
  destruct Hin as [-> | Hin].
  - rewrite Hk0. f_equal. destruct v as [j |].
    + cbn. rewrite String.eqb_refl. reflexivity.
    + symmetry. eapply validate_keys_names; eassumption.
  - rewrite (IH vs' eq_refl Hnodup Hin). f_equal.
    destruct v as [j |]; [| reflexivity].
    cbn. destruct (String.eqb_spec (key_name k0) (key_name k)) as [Heq |]; [| reflexivity].
    exfalso. apply Hfresh. rewrite Heq. apply in_map. exact Hin.
Qed.

Lemma validate_beacon_fields (b : option json) (v : list (string * json)) :
  validate schemas_beacon b = inr (Some v) ->
  (exists a, prop "agent_id" v = Some (JStr a)) /\
  string_field (prop "hostname" v) /\
  string_field (prop "platform" v) /\
  string_field (prop "version" v) /\
  object_field (prop "metadata" v).
Proof.
  unfold validate. destruct b as [j |]; [| discriminate].
  destruct (coerce_object j); try discriminate.
  destruct (validate_keys schemas_beacon fields) as [e | vs] eqn:Hkeys; [discriminate |].
  cbn [ebind]. destruct (unknown_key _ _); [discriminate |].
  intros Heq. injection Heq as <-.
  assert (NoDup (List.map key_name schemas_beacon)) as Hnodup.
  { cbn. repeat (constructor 2; [rewrite list_elem_of_In; cbn; intuition discriminate |]).
    constructor 1. }
  pose proof (fun k Hin => validate_keys_prop _ _ _ k Hkeys Hnodup Hin) as Hprop.
  repeat split.
  - eapply validate_key_string.
    + apply (Hprop (JoiKey "agent_id" (Joi_string []) true)). cbn. auto.
    + reflexivity.
  - eapply validate_key_string.
    apply (Hprop (JoiKey "hostname" (Joi_string []) false)). cbn. auto.
  - eapply validate_key_string.
    apply (Hprop (JoiKey "platform" (Joi_string []) false)). cbn. auto.
  - eapply validate_key_string.
    apply (Hprop (JoiKey "version" (Joi_string []) false)). cbn. auto 6.
  - eapply validate_key_object.
    apply (Hprop (JoiKey "metadata" Joi_object false)). cbn. auto 6.
Qed.

Lemma input_string_field (n : nat) (v : option json) :
  string_field v -> input (VARCHAR n) (param_of v) = inr (column_of v).
Proof. intros [-> | [s ->]]; reflexivity. Qed.

Lemma stringify_object_field (v : option json) :
  object_field v -> stringify_or_empty v = PJsonText (default (JObj []) v).
Proof. intros [-> | [fields ->]]; reflexivity. Qed.

Lemma input_ip_param (req : request) :
  input INET (ip_param req) = inr (ip_column req).
Proof. unfold ip_param, ip_column. destruct (ip req); reflexivity. Qed.

(** *** One beacon *)

Lemma arrive_tables (db : database) :
  tbl_agents (snd (arrive db)) = tbl_agents db /\
  tbl_results (snd (arrive db)) = tbl_results db /\
  tbl_api_keys (snd (arrive db)) = tbl_api_keys db.
Proof. unfold arrive. destruct (schedule db); repeat split; reflexivity. Qed.

Lemma pg_query_inl (q : stmt) (params : list jsparam) (db db' : database) (e : string) :
  pg_query q params db = (inl e, db') -> db' = snd (arrive db).
Proof.
  unfold pg_query. destruct (arrive db) as [failed db1]. destruct failed.
  - intros Heq. injection Heq as _ <-. reflexivity.
  - destruct (exec q params db1) as [e' | [rows db2]]; [| discriminate].
    intros Heq. injection Heq as _ <-. reflexivity.
Qed.

Lemma pg_query_inr (q : stmt) (params : list jsparam) (db db' : database)
    (rows : list row) :
  pg_query q params db = (inr rows, db') ->
  fst (arrive db) = false /\ exec q params (snd (arrive db)) = inr (rows, db').
Proof.
  unfold pg_query. destruct (arrive db) as [failed db1]. cbn [fst snd].
  destruct failed; [discriminate |].
  destruct (exec q params db1) as [e' | [rows' db2]]; [discriminate |].
  intros Heq. injection Heq as <- <-. split; reflexivity.
Qed.

(** The agents table after a beacon whose body validates: untouched when
    the upsert failed, [upserted] when the upsert succeeded and the beacon
    record failed, [upserted] and then [touched] by the trigger when the
    answer is 200. *)
Lemma post_beacon_effect (req : request) (s : state database)
    (v : list (string * json)) (a : string) :
  validate schemas_beacon (body req) = inr (Some v) ->
  prop "agent_id" v = Some (JStr a) ->
  exists resp s',
    post_beacon req s = (inr resp, s') /\
    ((status resp = 500%nat /\ tbl_agents (pool s') = tbl_agents (pool s)) \/
     exists id t,
       let up := upserted id a (column_of (prop "hostname" v))
                   (column_of (prop "platform" v)) (ip_column req)
                   (column_of (prop "version" v))
                   (default (JObj []) (prop "metadata" v)) t (tbl_agents (pool s)) in
       (status resp = 500%nat /\ tbl_agents (pool s') = up) \/
       (status resp = 200%nat /\ tbl_agents (pool s') = touched a (now (pool s')) up)).
Proof.
  intros Hvalid Hagent.
  destruct (validate_beacon_fields _ _ Hvalid) as (_ & Hh & Hp & Hv & Hm).
  unfold post_beacon, try_catch. rewrite Hvalid.
  unfold destructure, bind, query, logger, emit, Date_now, ret.
  cbn [pool_query PgPool pool limits date trace].
  rewrite Hagent. cbn [param_of]. rewrite (stringify_object_field _ Hm).
  destruct (pg_query upsert_agent _ (pool s)) as [[e | rows] db2] eqn:Hq1.
  - apply pg_query_inl in Hq1 as ->.
    eexists _, _. split; [reflexivity |]. left. cbn [status res_json pool].
    split; [reflexivity | apply arrive_tables].
  - apply pg_query_inr in Hq1 as [_ Hexec1].
    apply upsert_agent_exec in Hexec1
      as (vh & vp & vv & vip & Hvh & Hvp & Hvv & Hvip & Hup & _).
    rewrite input_string_field in Hvh, Hvp, Hvv by assumption.
    rewrite input_ip_param in Hvip.
    injection Hvh as <-. injection Hvp as <-. injection Hvv as <-. injection Hvip as <-.
    rewrite (proj1 (arrive_tables (pool s))) in Hup.
    cbn [pool limits date trace].
    destruct (pg_query record_beacon _ db2) as [[e | rows'] db3] eqn:Hq2.
    + apply pg_query_inl in Hq2 as ->.
      eexists _, _. split; [reflexivity |]. right.
      eexists _, _. left. cbn [status res_json pool].
      split; [reflexivity |]. rewrite (proj1 (arrive_tables db2)). exact Hup.
    + apply pg_query_inr in Hq2 as [_ Hexec2].
      apply record_beacon_exec in Hexec2 as (Htouch & _ & _ & Hnow & _).
      eexists _, _. split; [reflexivity |]. right.
      eexists _, _. right. cbn [status res_json pool].
      split; [reflexivity |].
      rewrite Htouch, Hnow, (proj1 (arrive_tables db2)), Hup. reflexivity.
Qed.

(** A beacon whose body does not validate, or is missing, sends nothing
    to the pool. *)
Lemma post_beacon_invalid (req : request) (s : state database) :
  (forall v, validate schemas_beacon (body req) <> inr (Some v)) ->
  exists resp s', post_beacon req s = (inr resp, s') /\ pool s' = pool s.
Proof.
  intros Hinvalid. unfold post_beacon, try_catch.
  destruct (validate schemas_beacon (body req)) as [message | [v |]].
  - eexists _, _. split; reflexivity.
  - destruct (Hinvalid v eq_refl).
  - eexists _, _. split; reflexivity.
Qed.

End AgentFacts.

Section RegistryFacts.

Lemma existsb_filter_nil {A} (p : A -> bool) (l : list A) :
  existsb p l = false -> List.filter p l = [].
Proof.
  induction l as [| x rest IH]; [reflexivity |].
  cbn. destruct (p x); [discriminate | exact IH].
Qed.

Lemma existsb_filter_cons {A} (p : A -> bool) (l : list A) :
  existsb p l = true -> exists x rest, List.filter p l = x :: rest.
Proof.
  induction l as [| x rest IH]; [discriminate |].
  cbn. destruct (p x); [eauto | exact IH].
Qed.

Lemma agent_named_refreshed (a : string) (vh vp vip vv : sqlval) (m : json) (t : Z)
    (r : row) :
  agent_named a (refreshed vh vp vip vv m t r) = agent_named a r.
Proof.
  unfold refreshed. rewrite !agent_named_set_col by discriminate. reflexivity.
Qed.

Lemma agent_named_touch (a : string) (t : Z) (r : row) :
  agent_named a (set_col "is_active" (SBool true) (set_col "last_seen" (STime t) r))
  = agent_named a r.
Proof. rewrite !agent_named_set_col by discriminate. reflexivity. Qed.




(** After the upsert for [a] and the trigger, the registry holds exactly
    one row of [a], with the values of this call. *)
Lemma touched_upserted_row (id : nat) (a : string) (vh vp vip vv : sqlval) (m : json)
    (t1 t2 : Z) (rows : list row) :
  registry_ok a rows ->
  exists r,
    List.filter (agent_named a) (touched a t2 (upserted id a vh vp vip vv m t1 rows)) = [r] /\
    prop "hostname" r = Some vh /\
    prop "platform" r = Some vp /\
    prop "version" r = Some vv /\
    prop "ip_address" r = Some vip /\
    prop "metadata" r = Some (SJson m) /\
    prop "last_seen" r = Some (STime t2) /\
    prop "is_active" r = Some (SBool true).
Proof.
  intros [Hshape Hcount]. unfold touched.
  rewrite filter_map_selected by (intros; apply agent_named_touch).
  unfold upserted. destruct (existsb (agent_named a) rows) eqn:Hexists.
  - rewrite filter_map_selected by (intros; apply agent_named_refreshed).
    destruct (existsb_filter_cons _ _ Hexists) as (r0 & rest & Hfilter).
    rewrite Hfilter in Hcount |- *.
    destruct rest as [| r1 rest]; [| cbn in Hcount; lia].
    assert (agent_shaped r0) as Hr0.
    { rewrite List.Forall_forall in Hshape. apply Hshape.
      apply (proj1 (filter_In (agent_named a) r0 rows)). rewrite Hfilter. left. reflexivity. }
    eexists. split; [reflexivity |].
    unfold refreshed.
    repeat split;
      repeat (rewrite prop_set_col_other by discriminate);
      apply prop_set_col_same; rewrite ?set_col_keys, Hr0; cbn; tauto.
  - rewrite List.filter_app, (existsb_filter_nil _ _ Hexists).
    cbn [List.filter app].
    assert (agent_named a (new_agent id a vh vp vip vv m t1) = true) as ->
      by (unfold agent_named; cbn; apply String.eqb_refl).
    eexists. split; [reflexivity |]. repeat split.
Qed.

Lemma first_seen_upserted (a0 : string) (id : nat) (a : string) (vh vp vip vv : sqlval)
    (m : json) (t : Z) (rows : list row) :
  existsb (agent_named a0) rows = true ->
  first_seen_of a0 (upserted id a vh vp vip vv m t rows) = first_seen_of a0 rows.
Proof.
  intros Hpresent. unfold first_seen_of, upserted.
  destruct (existsb (agent_named a) rows) eqn:Hexists.
  - apply map_filter_kept; intros r; destruct (agent_named a r); try reflexivity.
    + apply agent_named_refreshed.
    + unfold refreshed. rewrite !prop_set_col_other by discriminate. reflexivity.
  - rewrite List.filter_app. cbn [List.filter].
    assert (agent_named a0 (new_agent id a vh vp vip vv m t) = false) as ->.
    { unfold agent_named. cbn. destruct (String.eqb_spec a0 a) as [-> |]; [| reflexivity].
      congruence. }
    rewrite app_nil_r. reflexivity.
Qed.

Lemma first_seen_touched (a0 a : string) (t : Z) (rows : list row) :
  first_seen_of a0 (touched a t rows) = first_seen_of a0 rows.
Proof.
  unfold first_seen_of, touched.
  apply map_filter_kept; intros r; destruct (agent_named a r); try reflexivity.
  - apply agent_named_touch.
  - rewrite !prop_set_col_other by discriminate. reflexivity.
Qed.

End RegistryFacts.

Section BeaconFacts.
Context `{Platform}.


(** C9. A beacon, whatever its outcome, leaves the first_seen of every
    agent that is already in the registry as it was: the conflict branch
    of the upsert and the trigger write other columns only. *)
Theorem first_seen_is_kept (req : request) (s s' : state database) (resp : response)
    (a0 : string) :
  post_beacon req s = (inr resp, s') ->
  existsb (agent_named a0) (tbl_agents (pool s)) = true ->
  first_seen_of a0 (tbl_agents (pool s')) = first_seen_of a0 (tbl_agents (pool s)).
Proof.
  intros Hrun Hpresent.
  destruct (validate schemas_beacon (body req)) as [message | [v |]] eqn:Hvalid.
  - destruct (post_beacon_invalid req s) as (resp' & s'' & Hrun' & Hpool);
      [congruence |].
    rewrite Hrun in Hrun'. injection Hrun' as _ <-. rewrite Hpool. reflexivity.
  - destruct (validate_beacon_fields _ _ Hvalid) as ([a Ha] & _).
    destruct (post_beacon_effect req s v a Hvalid Ha) as (resp' & s'' & Hrun' & Hcases).
    rewrite Hrun in Hrun'. injection Hrun' as <- <-.
    destruct Hcases as [[_ ->] | (id & t & [[_ ->] | [_ ->]])].
    + reflexivity.
    + apply first_seen_upserted, Hpresent.
    + rewrite first_seen_touched. apply first_seen_upserted, Hpresent.
  - destruct (post_beacon_invalid req s) as (resp' & s'' & Hrun' & Hpool);
      [congruence |].
    rewrite Hrun in Hrun'. injection Hrun' as _ <-. rewrite Hpool. reflexivity.
Qed.

End BeaconFacts.

(** ** The statements at the worked examples *)


(** The registry of the example after each of the two beacons. *)
Example two_beacons_run :
  tbl_agents (pool after_first)
  = [[("id", SUuid 0); ("agent_id", SText "a1"); ("hostname", SText "h1");
      ("platform", SNull); ("ip_address", SText "203.0.113.9"); ("version", SNull);
      ("first_seen", STime 1); ("last_seen", STime 2); ("is_active", SBool true);
      ("metadata", SJson (JObj [("os", JStr "linux")]))]] /\
  tbl_agents (pool after_second)
  = [[("id", SUuid 0); ("agent_id", SText "a1"); ("hostname", SNull);
      ("platform", SText "linux"); ("ip_address", SText "203.0.113.10"); ("version", SNull);
      ("first_seen", STime 1); ("last_seen", STime 4); ("is_active", SBool true);
      ("metadata", SJson (JObj [("build", JNum 7)]))]].
Proof. split; vm_compute; reflexivity. Qed.

(** Witness of C9: the second example beacon keeps the first_seen of "a1". *)
Lemma first_seen_is_kept_witness :
  first_seen_of "a1" (tbl_agents (pool after_second))
  = first_seen_of "a1" (tbl_agents (pool after_first)).
Proof.
  apply (@first_seen_is_kept example_platform second_beacon after_first after_second
           (res_json 200 (BeaconAck (Some (JStr "a1")) 0)) "a1");
    vm_compute; reflexivity.
Defined.

(** Witness of C5: the example findings, queried with severity=high. *)
Lemma results_sorted_and_filtered_witness :
  descending "timestamp" (page_rows (fst (run_query high_request))) /\
  forall sev, query_string high_request !! "severity" = Some sev -> truthy sev = true ->
    Forall (fun r => prop "severity" r
                     = Some (SText (@query_text example_platform sev)))
      (page_rows (fst (run_query high_request))).
Proof.
  apply (@results_sorted_and_filtered example_platform high_request reported
           (snd (run_query high_request)) (page_rows (fst (run_query high_request)))
           2 (Int 100) (Int 0)).
  vm_compute. reflexivity.
Defined.

(** The page of the example: the two findings of high severity, the
    later one first. *)
Example high_page_run :
  List.map (fun r => (prop "severity" r, prop "timestamp" r))
    (page_rows (fst (run_query high_request)))
  = [(Some (SText "high"), Some (STime 5)); (Some (SText "high"), Some (STime 3))].
Proof. vm_compute. reflexivity. Qed.

(** Witness of C6: the example findings, queried with limit=2. *)
Lemma results_page_is_bounded_witness :
  (exists lz oz, Int 2 = Int lz /\ Int 0 = Int oz /\ 0 <= lz /\ 0 <= oz /\
     2%nat = List.length (page_rows (fst (run_query limit_request))) /\
     Z.of_nat (List.length (page_rows (fst (run_query limit_request)))) <= lz) /\
  (query_string limit_request !! "limit" = None ->
     Int 2 = Int 100 /\
     (List.length (page_rows (fst (run_query limit_request))) <= 100)%nat) /\
  (forall z, written (query_string limit_request !! "limit") z -> Int 2 = Int z) /\
  (forall z, written (query_string limit_request !! "offset") z -> Int 0 = Int z).
Proof.
  apply (@results_page_is_bounded example_platform limit_request reported
           (snd (run_query limit_request)) (page_rows (fst (run_query limit_request)))
           2 (Int 2) (Int 0)).
  vm_compute. reflexivity.
Defined.

(** The example findings queried without a limit: the default applies. *)
Example default_limit_run :
  fst (run_query plain_request)
  = inr (res_json 200
           (ResultsPage (page_rows (fst (run_query plain_request))) 3 (Int 100) (Int 0))).
Proof. vm_compute. reflexivity. Qed.

(** At the edges of the results route: an empty severity is no filter, and
    a negative or non-numeric limit reaches the database, which refuses
    it. *)
Example empty_severity_is_no_filter :
  List.map (prop "severity")
    (page_rows (fst (run_query (Request ∅ {["severity" := QStr ""]} None None None))))
  = [Some (SText "high"); Some (SText "low"); Some (SText "high")].
Proof. vm_compute. reflexivity. Qed.

Example negative_limit_is_refused :
  fst (run_query (Request ∅ {["limit" := QStr "-1"]} None None None))
  = inr (res_json 500 (ErrorBody "Failed to query results")) /\
  fst (run_query (Request ∅ {["limit" := QStr "ten"]} None None None))
  = inr (res_json 500 (ErrorBody "Failed to query results")).
Proof. split; vm_compute; reflexivity. Qed.

(** The whole pipeline at the provisioned key: logged, counted by the
    limiter, and refused by the middleware. *)
Example provisioned_key_through_the_pipeline :
  fst (@protected example_platform database (@PgPool example_platform) 100
         (@get_agents database (@PgPool example_platform))
         (keyed_request "hbv_00ff") provisioned)
  = inr (Response 401
           [("RateLimit-Limit", "100"); ("RateLimit-Remaining", "99");
            ("RateLimit-Reset", "60")]
           (ErrorBody "Invalid API key")).
Proof. vm_compute. reflexivity. Qed.

(** ** More on the middleware *)

Section PresentedFacts.

Lemma prefix_app (pat k : string) : String.prefix pat (pat ++ k) = true.
Proof.
  induction pat as [| a pat IH]; [destruct k; reflexivity |].
  simpl. destruct (ascii_dec a a); [exact IH | contradiction].
Qed.

Lemma substring_all (n : nat) (k : string) :
  (String.length k <= n)%nat -> String.substring 0 n k = k.
Proof.
  revert n. induction k as [| a k IH]; intros n Hn; destruct n; cbn in *;
    try reflexivity; try lia.
  f_equal. apply IH. lia.
Qed.

Lemma substring_app (pat k : string) (n : nat) :
  String.substring (String.length pat) n (pat ++ k) = String.substring 0 n k.
Proof. induction pat as [| a pat IH]; [reflexivity | exact IH]. Qed.

Lemma replace_first_prefix (pat k : string) : replace_first pat "" (pat ++ k) = k.
Proof.
  assert (forall s, replace_first pat "" s
                    = if String.prefix pat s
                      then "" ++ String.substring (String.length pat) (String.length s) s
                      else match s with
                           | EmptyString => EmptyString
                           | String a rest => String a (replace_first pat "" rest)
                           end) as Hunfold by (intros s; destruct s; reflexivity).
  rewrite Hunfold, prefix_app, substring_app. cbn [append].
  apply substring_all. clear Hunfold.
  induction pat as [| a pat IH]; [apply Nat.le_refl | simpl; lia].
Qed.

(** X1. The key that a request presents: a non-empty X-API-Key header as
    it is, whatever the Authorization header holds; and, when X-API-Key is
    absent or empty, what follows 'Bearer ' in 'Authorization: Bearer k'. *)
Theorem presented_key (req : request) (k : string) :
  (headers req !! "x-api-key" = Some k /\ k <> "") \/
  (js_not (headers req !! "x-api-key") = true /\
   headers req !! "authorization" = Some ("Bearer " ++ k)) ->
  presented req = Some k.
Proof.
  unfold presented. intros [[-> Hk] | [Hnot ->]].
  - cbn. unfold truthy_string. destruct (String.eqb_spec k ""); [contradiction | reflexivity].
  - cbn [fmap option_fmap option_map].
    rewrite replace_first_prefix.
    destruct (headers req !! "x-api-key") as [x |]; [| reflexivity].
    cbn in *. destruct (truthy_string x); [discriminate | reflexivity].
Qed.

End PresentedFacts.

Section MoreMiddlewareFacts.
Context `{Platform} {DB : Type} `{Pool DB}.

(** X2. Empty credentials fail fast like missing ones: with X-API-Key
    absent or empty and Authorization absent, empty or just 'Bearer ', the
    answer is 401 'API key required' and the state is the one before (no
    statement was sent, no hash compared). *)
Theorem empty_key_fails_fast (req : request) (next : request -> M DB response)
    (s : state DB) :
  js_not (headers req !! "x-api-key") = true ->
  headers req !! "authorization" = None \/
  headers req !! "authorization" = Some "" \/
  headers req !! "authorization" = Some "Bearer " ->
  authenticateApiKey req next s
  = (inr (res_json 401 (ErrorBody "API key required")), s).
Proof.
  intros Hkey Hauth. unfold authenticateApiKey, presented.
  assert (js_not (js_or (headers req !! "x-api-key")
                    (replace_first "Bearer " "" <$> headers req !! "authorization"))
          = true) as ->; [| reflexivity].
  destruct (headers req !! "x-api-key") as [x |]; cbn in Hkey |- *.
  - destruct (truthy_string x); [discriminate |].
    destruct Hauth as [-> | [-> | ->]]; reflexivity.
  - destruct Hauth as [-> | [-> | ->]]; reflexivity.
Qed.

Lemma find_valid_key_mismatches (apiKey : string) (rows rest : list row) (s : state DB) :
  Forall (mismatch apiKey) rows ->
  exists events,
    find_valid_key apiKey (rows ++ rest) s
    = find_valid_key apiKey rest
        (State (pool s) (limits s) (date s) (trace s ++ events)) /\
    List.length events = List.length rows /\
    Forall (is_compare apiKey) events.
Proof.
  intros Hrows. revert s.
  induction Hrows as [| r rows (h & Hh & Hcmp) _ IH]; intros s.
  - exists []. rewrite app_nil_r. destruct s. repeat split. constructor.
  - cbn [app find_valid_key]. rewrite Hh. unfold bind at 1, emit at 1.
    rewrite Hcmp.
    destruct (IH (State (pool s) (limits s) (date s) (trace s ++ [EvCompare apiKey h])))
      as (events & Hrun & Hlen & Hall).
    exists (EvCompare apiKey h :: events). cbn [pool limits date trace] in Hrun.
    rewrite Hrun, <- app_assoc. repeat split.
    + cbn. lia.
    + constructor; [exists h; reflexivity | exact Hall].
Qed.

(** X3. The loop over the credential rows stops at the first row whose
    hash matches: that row is the result, the key was compared once with
    each row up to it and with none of the rows after it. *)
Theorem first_matching_row_wins (apiKey : string) (before after : list row) (r : row)
    (h : string) (s : state DB) :
  Forall (mismatch apiKey) before ->
  hash_or_empty (prop "key_hash" r) = inr h ->
  bcrypt_compare apiKey h = true ->
  exists events,
    find_valid_key apiKey (before ++ r :: after) s
    = (inr (Some r), State (pool s) (limits s) (date s) (trace s ++ events)) /\
    List.length events = S (List.length before) /\
    Forall (is_compare apiKey) events.
Proof.
  intros Hbefore Hh Hmatch.
  destruct (find_valid_key_mismatches apiKey before (r :: after) s Hbefore)
    as (events & Hrun & Hlen & Hall).
  exists (events ++ [EvCompare apiKey h])%list. rewrite Hrun.
  cbn [find_valid_key]. rewrite Hh. unfold bind, emit, ret.
  cbn [pool limits date trace]. rewrite Hmatch, <- app_assoc. repeat split.
  - rewrite length_app. cbn. lia.
  - apply Forall_app. split; [exact Hall |].
    constructor; [exists h; reflexivity | constructor].
Qed.

(** X4. A key that matches none of the active credentials (or that meets
    an empty credential store) is answered 401 'Invalid API key': the key
    was compared once with every row, the attempt was logged, and nothing
    else was sent to the pool, so no last_used_at was touched. *)
Theorem unmatched_key_is_refused (req : request) (next : request -> M DB response)
    (apiKey : string) (rows : list row) (s s1 : state DB) :
  presented req = Some apiKey ->
  truthy_string apiKey = true ->
  query select_active_keys [] s = (inr rows, s1) ->
  Forall (mismatch apiKey) rows ->
  exists events,
    authenticateApiKey req next s
    = (inr (res_json 401 (ErrorBody "Invalid API key")),
       State (pool s1) (limits s1) (date s1)
         (trace s1 ++ events ++ [EvLog warn "Invalid API key attempt"])) /\
    List.length events = List.length rows /\
    Forall (is_compare apiKey) events.
Proof.
  intros Hkey Htruthy Hselect Hrows.
  destruct (find_valid_key_mismatches apiKey rows [] s1 Hrows)
    as (events & Hrun & Hlen & Hall).
  rewrite app_nil_r in Hrun. cbn [find_valid_key] in Hrun. unfold ret in Hrun.
  exists events. split; [| split; assumption].
  unfold authenticateApiKey, check_api_key, try_catch, bind.
  rewrite Hkey. cbn [js_not default from_option id]. rewrite Htruthy. cbn [negb].
  rewrite Hselect. cbv beta iota. rewrite Hrun. cbv beta iota.
  unfold logger, emit, ret. cbn [pool limits date trace].
  rewrite <- app_assoc. reflexivity.
Qed.

Lemma query_traced (q : stmt) (params : list jsparam) (s s' : state DB)
    (x : string + list row) :
  query q params s = (x, s') -> In (EvQuery q params) (trace s').
Proof.
  unfold query. cbn [pool limits date trace].
  destruct (pool_query q params (pool s)) as [[e | rows] db']; intros [= _ <-];
    cbn [trace]; apply in_or_app; right; left; reflexivity.
Qed.

(** X5. The middleware never throws and never answers anything but its
    own three rejections: either it ends the request with one of them, or
    it has sent the touch of last_used_at for the row it found and the
    route runs on the request with that row as [req.apiKey] and everything
    else as it came. *)
Theorem middleware_rejects_or_hands_over (req : request)
    (next : request -> M DB response) (s : state DB) :
  (exists r s', authenticateApiKey req next s = (inr r, s') /\ In r auth_rejections) \/
  (exists k s',
     authenticateApiKey req next s = next (with_apiKey req k) s' /\
     In (EvQuery touch_last_used [field_param "id" k]) (trace s') /\
     headers (with_apiKey req k) = headers req /\
     query_string (with_apiKey req k) = query_string req /\
     body (with_apiKey req k) = body req /\
     ip (with_apiKey req k) = ip req /\
     apiKey (with_apiKey req k) = Some k).
Proof.
  unfold authenticateApiKey.
  destruct (js_not (presented req)).
  { left. eexists _, _. split; [reflexivity | left; reflexivity]. }
  unfold check_api_key, try_catch, bind.
  destruct (query select_active_keys [] s) as [[e | rows] s1]; cbv beta iota.
  { left. eexists _, _. split; [reflexivity | cbn; auto]. }
  destruct (find_valid_key _ rows s1) as [[e | [k |]] s2]; cbv beta iota.
  - left. eexists _, _. split; [reflexivity | cbn; auto].
  - destruct (query touch_last_used [field_param "id" k] s2) as [[e | out] s3] eqn:Htouch;
      cbv beta iota.
    + left. eexists _, _. split; [reflexivity | cbn; auto].
    + right. exists k, s3. split; [reflexivity |].
      split; [exact (query_traced _ _ _ _ _ Htouch) | repeat split].
  - left. eexists _, _. split; [reflexivity | cbn; auto].
Qed.

End MoreMiddlewareFacts.

(** Witness of X1: the example key as a bearer token. *)
Lemma presented_key_witness : presented (bearer_request "hbv_00") = Some "hbv_00".
Proof.
  apply (presented_key (bearer_request "hbv_00") "hbv_00").
  right. split; vm_compute; reflexivity.
Defined.

(** Witness of X2: a request with 'Authorization: Bearer ' and no key. *)
Lemma empty_key_fails_fast_witness :
  @authenticateApiKey example_platform database (@PgPool example_platform)
    (bearer_request "") echo_route (fresh empty_database)
  = (inr (res_json 401 (ErrorBody "API key required")), fresh empty_database).
Proof.
  apply (@empty_key_fails_fast example_platform database (@PgPool example_platform)).
  - vm_compute. reflexivity.
  - right. right. vm_compute. reflexivity.
Defined.

(** Witness of X3: the key "hbv_00" against the rows of "hbv_11" and of
    "hbv_00", with one more row behind. *)
Lemma first_matching_row_wins_witness :
  exists events,
    @find_valid_key example_platform bool "hbv_00" ([other_row] ++ stub_row :: [other_row])
      (fresh true)
    = (inr (Some stub_row), State true ∅ 0 ([] ++ events)) /\
    List.length events = 2%nat /\
    Forall (is_compare "hbv_00") events.
Proof.
  apply (@first_matching_row_wins example_platform bool "hbv_00" [other_row] [other_row]
           stub_row "$2b$12$hbv_00" (fresh true)).
  - constructor; [| constructor].
    exists "$2b$12$hbv_11". split; vm_compute; reflexivity.
  - reflexivity.
  - vm_compute. reflexivity.
Defined.

(** Witness of X4: the key "hbv_00" at a pool that knows "hbv_11" only. *)
Lemma unmatched_key_is_refused_witness :
  exists events,
    @authenticateApiKey example_platform bool other_pool (keyed_request "hbv_00")
      echo_route (fresh true)
    = (inr (res_json 401 (ErrorBody "Invalid API key")),
       State true ∅ 0
         ([EvQuery select_active_keys []] ++ events
          ++ [EvLog warn "Invalid API key attempt"])) /\
    List.length events = 1%nat /\
    Forall (is_compare "hbv_00") events.
Proof.
  apply (@unmatched_key_is_refused example_platform bool other_pool
           (keyed_request "hbv_00") echo_route "hbv_00" [other_row] (fresh true)
           (State true ∅ 0 [EvQuery select_active_keys []])).
  - vm_compute. reflexivity.
  - reflexivity.
  - reflexivity.
  - constructor; [| constructor].
    exists "$2b$12$hbv_11". split; vm_compute; reflexivity.
Defined.

(** ** Statements and the tables they leave alone *)

Section TableFacts.
Context `{Platform}.

Lemma same_tables_refl (db : database) : same_tables db db.
Proof. repeat split. Qed.

Lemma same_tables_trans (db1 db2 db3 : database) :
  same_tables db1 db2 -> same_tables db2 db3 -> same_tables db1 db3.
Proof.
  intros (H1 & H2 & H3 & H4) (H1' & H2' & H3' & H4').
  repeat split; congruence.
Qed.

Lemma arrive_same_tables (db : database) : same_tables db (snd (arrive db)).
Proof. unfold arrive. destruct (schedule db); repeat split. Qed.

(** A statement that ends in an error has changed no table. *)
Lemma pg_query_refused (q : stmt) (params : list jsparam) (db db' : database)
    (e : string) :
  pg_query q params db = (inl e, db') -> same_tables db db'.
Proof. intros Hq. apply pg_query_inl in Hq as ->. apply arrive_same_tables. Qed.

(** A SELECT changes no table, whatever it answers. *)
Lemma pg_query_select (cols : option (list string)) (t : table_name)
    (where_ : list cond) (order : option string) (limit offset : option expr)
    (params : list jsparam) (db db' : database) (out : string + list row) :
  pg_query (SELECT cols t where_ order limit offset) params db = (out, db') ->
  same_tables db db'.
Proof.
  destruct out as [e | rows]; intros Hq.
  - eapply pg_query_refused; eassumption.
  - apply pg_query_inr in Hq as [_ Hexec]. cbn [exec] in Hexec.
    destruct (exec_select _ _ _ _ _ _ _ _) as [e | rows']; [discriminate |].
    cbn [ebind] in Hexec. injection Hexec as _ <-. apply arrive_same_tables.
Qed.

(** Over the database the middleware ends every request, with a response
    and a state that do not depend on the route behind it, and its only
    statement was the SELECT. *)
Lemma middleware_over_database (req : request) (s : state database) :
  exists r s',
    (forall next, authenticateApiKey req next s = (inr r, s')) /\
    In r auth_rejections /\
    same_tables (pool s) (pool s') /\
    limits s' = limits s /\
    exists events, trace s' = (trace s ++ events)%list.
Proof.
  unfold authenticateApiKey.
  destruct (js_not (presented req)).
  { exists (res_json 401 (ErrorBody "API key required")), s.
    split; [reflexivity |]. split; [left; reflexivity |].
    split; [apply same_tables_refl |]. split; [reflexivity |].
    exists []. symmetry. apply app_nil_r. }
  unfold check_api_key, try_catch, bind, query.
  cbn [pool_query PgPool pool limits date trace].
  destruct (pg_query select_active_keys [] (pool s)) as [[e | rows] db'] eqn:Hq.
  - eexists _, _. split; [intros next; reflexivity |].
    split; [cbn; auto |]. cbn [pool limits trace].
    split; [eapply pg_query_refused; eassumption |]. split; [reflexivity |].
    eexists. rewrite <- app_assoc. reflexivity.
  - pose proof (pg_query_select _ _ _ _ _ _ _ _ _ _ Hq) as Htables.
    apply active_keys_have_no_hash in Hq.
    destruct (find_valid_key_without_hash (default "" (presented req)) rows Hq
                (State db' (limits s) (date s)
                   (trace s ++ [EvQuery select_active_keys []])))
      as (events & Hrun & _).
    rewrite Hrun. eexists _, _. split; [intros next; reflexivity |].
    split; [cbn; auto |]. cbn [pool limits trace].
    split; [exact Htables |]. split; [reflexivity |].
    eexists. rewrite <- !app_assoc. reflexivity.
Qed.

(** X6. Over the database no protected request reaches its route: every
    request is logged, counted by the limiter and then answered 429 by
    the limiter or 401 or 500 by the middleware; the answer and the state
    are the same whatever the route is, and no table has changed (so no
    last_used_at is ever written). *)
Theorem no_request_reaches_a_route (rateLimit : nat) (req : request)
    (s : state database) :
  exists r s',
    (forall handler, protected rateLimit handler req s = (inr r, s')) /\
    In (status r, res_body r)
      [ (429%nat, limiter_message);
        (401%nat, ErrorBody "API key required");
        (401%nat, ErrorBody "Invalid API key");
        (500%nat, ErrorBody "Authentication failed") ] /\
    same_tables (pool s) (pool s') /\
    limits s' = <[default "" (ip req) := increment (default "" (ip req)) (date s) (limits s)]>
                  (limits s) /\
    exists events, trace s' = (trace s ++ EvLog info "Incoming request" :: events)%list.
Proof.
  unfold protected, bind, logger, emit, limiter.
  cbn [pool limits date trace].
  destruct (Nat.ltb rateLimit _).
  - eexists _, _. split; [reflexivity |]. cbn [status res_body pool limits trace].
    split; [left; reflexivity |]. split; [apply same_tables_refl |].
    split; [reflexivity |]. exists []. reflexivity.
  - match goal with
    | |- context [authenticateApiKey _ _ ?s1] =>
        destruct (middleware_over_database req s1)
          as (r & s' & Hrun & Hr & Htables & Hlimits & events & Htrace)
    end.
    exists (with_headers
              (rate_limit_headers rateLimit
                 (increment (default "" (ip req)) (date s) (limits s)) (date s)) r), s'.
    split; [intros handler; rewrite Hrun; reflexivity |].
    cbn [pool limits trace] in Htables, Hlimits, Htrace.
    split; [| split; [exact Htables | split; [exact Hlimits |]]].
    + cbn [with_headers status res_body].
      destruct Hr as [<- | [<- | [<- | []]]]; cbn; auto.
    + exists events. rewrite Htrace, <- app_assoc. reflexivity.
Qed.

Lemma queries_read (req : request) (s : state database) :
  (exists r s', get_results req s = (inr r, s') /\ same_tables (pool s) (pool s')) /\
  (exists r s', get_agents req s = (inr r, s') /\ same_tables (pool s) (pool s')).
Proof.
  split.
  - unfold get_results, try_catch, bind, query.
    cbn [pool_query PgPool pool limits date trace].
    destruct (results_query_shape req) as (where_ & params & Hshape & _).
    rewrite Hshape. cbn [fst snd].
    destruct (pg_query _ _ (pool s)) as [[e | rows] db'] eqn:Hq; cbv beta iota;
      (eexists _, _; split; [reflexivity |]); cbn [pool];
      eapply pg_query_select; eassumption.
  - unfold get_agents, try_catch, bind, query, agents_query.
    cbn [pool_query PgPool pool limits date trace].
    destruct (pg_query _ _ (pool s)) as [[e | rows] db'] eqn:Hq; cbv beta iota;
      (eexists _, _; split; [reflexivity |]); cbn [pool];
      eapply pg_query_select; eassumption.
Qed.

(** X7. The two GET routes only read: whatever the query string, and
    whether or not the pool serves the statement, they answer 200 or 500
    (they never throw) and every table holds the rows it held. *)
Theorem queries_are_read_only (req : request) (s : state database) :
  (exists r s', get_results req s = (inr r, s') /\ same_tables (pool s) (pool s') /\
     (status r = 200%nat \/ status r = 500%nat)) /\
  (exists r s', get_agents req s = (inr r, s') /\ same_tables (pool s) (pool s') /\
     (status r = 200%nat \/ status r = 500%nat)).
Proof.
  split.
  - destruct (proj1 (queries_read req s)) as (r & s' & Hrun & Htables).
    exists r, s'. split; [exact Hrun |]. split; [exact Htables |].
    revert Hrun. unfold get_results, try_catch, bind.
    destruct (query _ _ s) as [[e | rows] s1]; cbv beta iota;
      unfold logger, emit, ret; intros Heq; injection Heq as <- _; auto.
  - destruct (proj2 (queries_read req s)) as (r & s' & Hrun & Htables).
    exists r, s'. split; [exact Hrun |]. split; [exact Htables |].
    revert Hrun. unfold get_agents, try_catch, bind.
    destruct (query _ _ s) as [[e | rows] s1]; cbv beta iota;
      unfold logger, emit, ret; intros Heq; injection Heq as <- _; auto.
Qed.

End TableFacts.

(** ** Bodies that the routes refuse *)

Section ValidationFacts.
Context `{Platform} {DB : Type} `{Pool DB}.

(** A key of the schema whose rule fails makes the validation fail,
    whatever the other keys hold. *)
Lemma validate_keys_fails (schema : list joi_key) (fields : list (string * json))
    (k : joi_key) (m : string) :
  In k schema ->
  validate_key k (prop (key_name k) fields) = inl m ->
  exists message, validate_keys schema fields = inl message.
Proof.
  induction schema as [| k0 rest IH]; intros Hin Hfail; [destruct Hin |].
  cbn [validate_keys].
  destruct (validate_key k0 (prop (key_name k0) fields)) as [e | v] eqn:Hk0;
    [eexists; reflexivity |].
  destruct Hin as [-> | Hin]; [congruence |].
  destruct (IH Hin Hfail) as [message ->]. cbn [ebind]. eexists; reflexivity.
Qed.

Lemma unknown_key_found (schema : list joi_key) (fields : list (string * json))
    (k : string) :
  In k (List.map fst fields) ->
  ~ In k (List.map key_name schema) ->
  exists k', unknown_key schema fields = Some k'.
Proof.
  intros Hin Hnot. unfold unknown_key.
  destruct (List.find _ fields) as [kv |] eqn:Hfind; [eexists; reflexivity |].
  exfalso. apply in_map_iff in Hin as ([k0 j] & <- & Hin).
  apply (find_none _ _ Hfind) in Hin. cbn [fst] in Hin.
  apply Bool.negb_false_iff, existsb_exists in Hin as (k1 & Hk1 & Heq).
  apply String.eqb_eq in Heq. apply Hnot. cbn [fst]. rewrite <- Heq.
  apply (in_map key_name). exact Hk1.
Qed.

Lemma validate_unknown_key (schema : list joi_key) (fields : list (string * json))
    (k : string) :
  In k (List.map fst fields) ->
  ~ In k (List.map key_name schema) ->
  exists message, validate schema (Some (JObj fields)) = inl message.
Proof.
  intros Hin Hnot. unfold validate. cbn [coerce_object].
  destruct (validate_keys schema fields) as [e | vs]; [eexists; reflexivity |].
  cbn [ebind]. destruct (unknown_key_found schema fields k Hin Hnot) as [k' ->].
  eexists; reflexivity.
Qed.

(** X8. A beacon needs an agent_id that is a non-empty string: a body
    without the key, with an empty string or with a value of another type
    is answered 400 with the message of that rule, whatever the other keys
    hold, and the state is the one before (nothing was sent to the pool). *)
Theorem beacon_needs_an_agent_id (req : request) (fields : list (string * json))
    (s : state DB) :
  body req = Some (JObj fields) ->
  (forall a, a <> "" -> prop "agent_id" fields <> Some (JStr a)) ->
  post_beacon req s
  = (inr (res_json 400
            (ErrorBody
               (quoted "agent_id" ++
                match prop "agent_id" fields with
                | None => " is required"
                | Some (JStr _) => " is not allowed to be empty"
                | Some _ => " must be a string"
                end))), s).
Proof.
  intros Hbody Hagent. unfold post_beacon, try_catch. rewrite Hbody.
  unfold validate. cbn [coerce_object schemas_beacon validate_keys key_name].
  destruct (prop "agent_id" fields) as [j |]; [| reflexivity].
  destruct j as [| b | z | a | items | obj]; try reflexivity.
  destruct a as [| c a]; [reflexivity |].
  exfalso. apply (Hagent (String c a)); [discriminate | reflexivity].
Qed.

(** X9. The two POST routes refuse a body with a key that their schema
    does not name: the answer is 400 and the state is the one before. *)
Theorem unknown_keys_are_refused (req : request) (fields : list (string * json))
    (k : string) (s : state DB) :
  body req = Some (JObj fields) ->
  In k (List.map fst fields) ->
  (~ In k ["agent_id"; "hostname"; "platform"; "version"; "metadata"] ->
   exists message, post_beacon req s = (inr (res_json 400 (ErrorBody message)), s)) /\
  (~ In k ["agent_id"; "module"; "target"; "result_type"; "data"; "severity"; "metadata"] ->
   exists message, post_results req s = (inr (res_json 400 (ErrorBody message)), s)).
Proof.
  intros Hbody Hin. split; intros Hnot.
  - destruct (validate_unknown_key schemas_beacon fields k Hin Hnot) as [message Hm].
    exists message. unfold post_beacon, try_catch. rewrite Hbody, Hm. reflexivity.
  - destruct (validate_unknown_key schemas_result fields k Hin Hnot) as [message Hm].
    exists message. unfold post_results, try_catch. rewrite Hbody, Hm. reflexivity.
Qed.

(** X10. A result whose severity is not one of the strings 'low',
    'medium', 'high' and 'critical' is answered 400, and the state is the
    one before: no such result reaches the database. *)
Theorem severity_is_one_of_four (req : request) (fields : list (string * json))
    (j : json) (s : state DB) :
  body req = Some (JObj fields) ->
  prop "severity" fields = Some j ->
  (forall sev, In sev ["low"; "medium"; "high"; "critical"] -> j <> JStr sev) ->
  exists message,
    post_results req s = (inr (res_json 400 (ErrorBody message)), s).
Proof.
  intros Hbody Hsev Hnot.
  assert (exists message, validate schemas_result (body req) = inl message)
    as [message Hm].
  { rewrite Hbody. unfold validate. cbn [coerce_object].
    destruct (validate_keys_fails schemas_result fields
                (JoiKey "severity" (Joi_string ["low"; "medium"; "high"; "critical"]) false)
                (quoted "severity" ++ " must be one of ["
                 ++ join_comma ["low"; "medium"; "high"; "critical"] ++ "]"))
      as [message ->]; [cbn; auto 10 | | eexists; reflexivity].
    cbn [key_name]. rewrite Hsev. unfold validate_key. cbn [key_type key_name].
    destruct j as [| b | z | sev | items | obj]; try reflexivity.
    destruct (existsb (String.eqb sev) _) eqn:Hex; [| reflexivity].
    exfalso. apply existsb_exists in Hex as (x & Hx & Heq).
    apply String.eqb_eq in Heq. subst x. exact (Hnot sev Hx eq_refl). }
  exists message. unfold post_results, try_catch. rewrite Hm. reflexivity.
Qed.

End ValidationFacts.

(** ** Results: what a submission stores *)

Section ResultFacts.
Context `{Platform}.

(** The INSERT of the results route, when it succeeds: one row appended
    to the results table, for an agent of the registry, and the id and
    timestamp of that row returned. *)
Lemma insert_result_exec (a m : string) (pt pr ps : jsparam) (d md : json)
    (db : database) (out : list row) (db' : database) :
  exec insert_result [PText a; PText m; pt; pr; PJsonText d; ps; PJsonText md] db
  = inr (out, db') ->
  exists vt vr vs,
    input (VARCHAR 500) pt = inr vt /\
    input (VARCHAR 100) pr = inr vr /\
    input (VARCHAR 50) ps = inr vs /\
    out = [[("id", SUuid (uuid_seed db)); ("timestamp", STime (now db))]] /\
    existsb (agent_named a) (tbl_agents db) = true /\
    tbl_results db'
    = (tbl_results db ++
       [[("id", SUuid (uuid_seed db)); ("agent_id", SText a); ("module", SText m);
         ("target", vt); ("result_type", vr); ("data", SJson d);
         ("timestamp", STime (now db)); ("severity", vs); ("metadata", SJson md)]])%list /\
    tbl_agents db' = tbl_agents db /\
    tbl_beacons db' = tbl_beacons db /\
    tbl_api_keys db' = tbl_api_keys db.
Proof.
  intros Hexec. cbn in Hexec.
  destruct (check_column _ (SText a)) as [e | v1] eqn:H1; [discriminate |].
  apply check_column_inr in H1 as (-> & H1 & _).
  destruct (check_column _ (SText m)) as [e | v2] eqn:H2; [discriminate |].
  apply check_column_inr in H2 as (-> & H2 & _).
  cbn [ebind] in Hexec.
  destruct (input (VARCHAR 500) pt) as [e | vt] eqn:Ht; [discriminate |].
  cbn [ebind] in Hexec.
  destruct (check_column _ vt) as [e | v3] eqn:H3; [discriminate |].
  apply check_column_inr in H3 as (-> & _).
  destruct (input (VARCHAR 100) pr) as [e | vr] eqn:Hr; [discriminate |].
  cbn [ebind] in Hexec.
  destruct (check_column _ vr) as [e | v4] eqn:H4; [discriminate |].
  apply check_column_inr in H4 as (-> & _).
  cbn in Hexec.
  destruct (input (VARCHAR 50) ps) as [e | vs] eqn:Hs; [discriminate |].
  cbn [ebind] in Hexec.
  destruct (check_column _ vs) as [e | v5] eqn:H5; [discriminate |].
  apply check_column_inr in H5 as (-> & _).
  cbn in Hexec.
  destruct (_ || _); [discriminate |].
  destruct (negb _) eqn:Hfk; [discriminate |].
  injection Hexec as <- <-.
  exists vt, vr, vs. repeat (split; [reflexivity |]).
  split; [| repeat split; reflexivity].
  apply Bool.negb_false_iff in Hfk. rewrite <- Hfk.
  clear. induction (tbl_agents db) as [| r rest IH]; [reflexivity |].
  cbn [existsb]. rewrite IH. f_equal.
Qed.

(** What a rule of a schema makes of a field that it accepts: a string
    is kept as it is, a document written as a string is read. *)
Lemma validate_key_value (k : joi_key) (x y : option json) :
  validate_key k x = inr y ->
  y = match key_type k with
      | Joi_object => coerce_object <$> x
      | Joi_string _ => x
      end.
Proof.
  unfold validate_key. destruct x as [j |].
  - destruct (key_type k) as [[| v0 valid] |].
    + destruct j as [| b | z | s | items | obj]; try discriminate.
      destruct s; [discriminate |]. intros Heq. injection Heq as <-. reflexivity.
    + destruct j as [| b | z | s | items | obj]; try discriminate.
      destruct (existsb _ _); [| discriminate].
      intros Heq. injection Heq as <-. reflexivity.
    + cbn [fmap option_fmap option_map].
      destruct (coerce_object j); try discriminate.
      intros Heq. injection Heq as <-. reflexivity.
  - destruct (required k); [discriminate |].
    intros Heq. injection Heq as <-. destruct (key_type k); reflexivity.
Qed.

Lemma validate_key_levels (name : string) (v0 : string) (valid : list string)
    (req : bool) (v v' : option json) :
  validate_key (JoiKey name (Joi_string (v0 :: valid)) req) v = inr v' ->
  v' = None \/ exists s, v' = Some (JStr s) /\ In s (v0 :: valid).
Proof.
  unfold validate_key. cbn [required key_type key_name].
  destruct v as [j |].
  - destruct j as [| b | z | s | items | obj]; try discriminate.
    destruct (existsb _ _) eqn:Hex; [| discriminate].
    intros Heq. injection Heq as <-. right. exists s. split; [reflexivity |].
    apply existsb_exists in Hex as (x & Hx & Heq). apply String.eqb_eq in Heq.
    subst x. exact Hx.
  - destruct req; [discriminate |]. intros Heq. injection Heq as <-. auto.
Qed.

Lemma validate_key_document (name : string) (v v' : option json) :
  validate_key (JoiKey name Joi_object true) v = inr v' ->
  exists fields, v' = Some (JObj fields).
Proof.
  unfold validate_key. cbn [required key_type key_name].
  destruct v as [j |]; [| discriminate].
  destruct (coerce_object j); try discriminate.
  intros Heq. injection Heq as <-. eauto.
Qed.

Lemma schemas_result_nodup : NoDup (List.map key_name schemas_result).
Proof.
  cbn. repeat (constructor 2; [rewrite list_elem_of_In; cbn; intuition discriminate |]).
  constructor 1.
Qed.

(** What a validated result holds. *)
Lemma validate_result_fields (b : option json) (v : list (string * json)) :
  validate schemas_result b = inr (Some v) ->
  (exists a, prop "agent_id" v = Some (JStr a)) /\
  (exists m, prop "module" v = Some (JStr m)) /\
  string_field (prop "target" v) /\
  string_field (prop "result_type" v) /\
  (exists d, prop "data" v = Some (JObj d)) /\
  (prop "severity" v = None \/
   exists sev, prop "severity" v = Some (JStr sev) /\ In sev severity_levels) /\
  object_field (prop "metadata" v).
Proof.
  unfold validate. destruct b as [j |]; [| discriminate].
  destruct (coerce_object j); try discriminate.
  destruct (validate_keys schemas_result fields) as [e | vs] eqn:Hkeys; [discriminate |].
  cbn [ebind]. destruct (unknown_key _ _); [discriminate |].
  intros Heq. injection Heq as <-.
  pose proof (fun k Hin => validate_keys_prop _ _ _ k Hkeys schemas_result_nodup Hin)
    as Hprop.
  repeat split.
  - eapply validate_key_string.
    + apply (Hprop (JoiKey "agent_id" (Joi_string []) true)). cbn. auto.
    + reflexivity.
  - eapply validate_key_string.
    + apply (Hprop (JoiKey "module" (Joi_string []) true)). cbn. auto.
    + reflexivity.
  - eapply validate_key_string.
    apply (Hprop (JoiKey "target" (Joi_string []) false)). cbn. auto.
  - eapply validate_key_string.
    apply (Hprop (JoiKey "result_type" (Joi_string []) false)). cbn. auto 6.
  - eapply validate_key_document.
    apply (Hprop (JoiKey "data" Joi_object true)). cbn. auto 6.
  - eapply validate_key_levels.
    apply (Hprop (JoiKey "severity" (Joi_string ["low"; "medium"; "high"; "critical"]) false)).
    cbn. auto 8.
  - eapply validate_key_object.
    apply (Hprop (JoiKey "metadata" Joi_object false)). cbn. auto 8.
Qed.

(** The results route, outcome by outcome: a body that does not validate
    is answered 400 and nothing happens; a refused or failed INSERT is
    answered 500 and no table has changed; and 201 means that exactly the
    row of the validated body was appended, for an agent of the registry. *)
Lemma post_results_effect (req : request) (s : state database) :
  exists resp s',
    post_results req s = (inr resp, s') /\
    ((exists message,
        validate schemas_result (body req) = inl message /\
        resp = res_json 400 (ErrorBody message) /\ s' = s) \/
     (resp = res_json 500 (ErrorBody "Failed to submit result") /\
      same_tables (pool s) (pool s')) \/
     (exists v n t a,
        validate schemas_result (body req) = inr (Some v) /\
        prop "agent_id" v = Some (JStr a) /\
        existsb (agent_named a) (tbl_agents (pool s)) = true /\
        resp = res_json 201 (ResultAck (Some (SUuid n)) (Some (STime t))) /\
        tbl_results (pool s') = (tbl_results (pool s) ++ [result_row n t v])%list /\
        tbl_agents (pool s') = tbl_agents (pool s) /\
        tbl_beacons (pool s') = tbl_beacons (pool s) /\
        tbl_api_keys (pool s') = tbl_api_keys (pool s))).
Proof.
  unfold post_results, try_catch.
  destruct (validate schemas_result (body req)) as [message | [v |]] eqn:Hvalid.
  - eexists _, _. split; [reflexivity |]. left. eauto.
  - destruct (validate_result_fields _ _ Hvalid)
      as ([a Ha] & [m Hm] & Ht & Hr & [d Hd] & Hsev & Hmd).
    unfold destructure, bind, query, logger, emit, ret.
    cbn [pool_query PgPool pool limits date trace].
    rewrite Ha, Hm, Hd. cbn [param_of stringify].
    rewrite (stringify_object_field _ Hmd).
    destruct (pg_query insert_result _ (pool s)) as [[e | rows] db2] eqn:Hq.
    + eexists _, _. split; [reflexivity |]. right. left.
      split; [reflexivity |]. cbn [pool]. eapply pg_query_refused; eassumption.
    + apply pg_query_inr in Hq as [_ Hexec].
      apply insert_result_exec in Hexec
        as (vt & vr & vs & Hvt & Hvr & Hvs & -> & Hfk & Hres & Hag & Hbe & Hkeys).
      rewrite input_string_field in Hvt, Hvr by assumption.
      assert (string_field (prop "severity" v)) as Hsev'.
      { destruct Hsev as [-> | (sev & -> & _)]; [left | right]; eauto. }
      rewrite input_string_field in Hvs by assumption.
      injection Hvt as <-. injection Hvr as <-. injection Hvs as <-.
      destruct (arrive_same_tables (pool s)) as (Hk0 & Ha0 & Hb0 & Hr0).
      eexists _, _. split; [reflexivity |]. right. right.
      exists v, (uuid_seed (snd (arrive (pool s)))), (now (snd (arrive (pool s)))), a.
      cbn [pool prop String.eqb Ascii.eqb Bool.eqb].
      split; [reflexivity |]. split; [exact Ha |].
      split; [rewrite <- Ha0; exact Hfk |].
      split; [reflexivity |].
      split; [| split; [congruence | split; congruence]].
      rewrite Hres, Hr0. unfold result_row. rewrite Ha, Hm, Hd.
      destruct Hmd as [-> | [fields ->]]; reflexivity.
  - eexists _, _. split; [reflexivity |]. right. left.
    split; [reflexivity |]. apply same_tables_refl.
Qed.

(** A validated field is the field of the body; a document written as a
    string was read. *)
Lemma validated_fields (schema : list joi_key) (fields v : list (string * json))
    (k : joi_key) :
  validate schema (Some (JObj fields)) = inr (Some v) ->
  NoDup (List.map key_name schema) ->
  In k schema ->
  prop (key_name k) v
  = match key_type k with
    | Joi_object => coerce_object <$> prop (key_name k) fields
    | Joi_string _ => prop (key_name k) fields
    end.
Proof.
  unfold validate. cbn [coerce_object].
  destruct (validate_keys schema fields) as [e | vs] eqn:Hkeys; [discriminate |].
  cbn [ebind]. destruct (unknown_key _ _); [discriminate |].
  intros Heq Hnodup Hin. injection Heq as <-.
  apply validate_key_value. eapply validate_keys_prop; eassumption.
Qed.

(** X11. A result can be stored only for an agent of the registry: a
    valid result of an agent (with an id of at most 255 characters) that
    has no row in the agents table is refused by the foreign key and
    answered 500 'Failed to submit result', and no table has changed. *)
Theorem result_of_unknown_agent_is_refused (req : request) (v : list (string * json))
    (a : string) (s : state database) :
  validate schemas_result (body req) = inr (Some v) ->
  prop "agent_id" v = Some (JStr a) ->
  (char_length a <= 255)%nat ->
  existsb (agent_named a) (tbl_agents (pool s)) = false ->
  exists s',
    post_results req s
    = (inr (res_json 500 (ErrorBody "Failed to submit result")), s') /\
    same_tables (pool s) (pool s').
Proof.
  intros Hvalid Ha _ Hunknown.
  destruct (post_results_effect req s) as (resp & s' & Hrun & Hcases).
  exists s'. rewrite Hrun.
  destruct Hcases as [(message & Hm & _) | [[-> Htables] | Hstored]].
  - congruence.
  - split; [reflexivity | exact Htables].
  - destruct Hstored as (v' & n & t & a' & Hv' & Ha' & Hknown & _).
    rewrite Hvalid in Hv'. injection Hv' as <-.
    rewrite Ha in Ha'. injection Ha' as <-. congruence.
Qed.

(** X12. What 201 means: for a body whose strings are within the lengths
    of their columns, exactly one row was appended to the results table
    and no other table changed; the row carries the id and the timestamp
    of the answer, the agent_id, module, target, result_type and severity
    of the body (NULL for a key that the body leaves out), its data, and
    its metadata or the empty document. *)
Theorem submitted_result_is_stored (req : request) (fields : list (string * json))
    (s s' : state database) (id ts : option sqlval) :
  body req = Some (JObj fields) ->
  result_fits fields ->
  post_results req s = (inr (res_json 201 (ResultAck id ts)), s') ->
  exists n t r,
    id = Some (SUuid n) /\ ts = Some (STime t) /\
    tbl_results (pool s') = (tbl_results (pool s) ++ [r])%list /\
    tbl_agents (pool s') = tbl_agents (pool s) /\
    tbl_beacons (pool s') = tbl_beacons (pool s) /\
    tbl_api_keys (pool s') = tbl_api_keys (pool s) /\
    r = [ ("id", SUuid n);
          ("agent_id", column_of (prop "agent_id" fields));
          ("module", column_of (prop "module" fields));
          ("target", column_of (prop "target" fields));
          ("result_type", column_of (prop "result_type" fields));
          ("data", SJson (document_of (prop "data" fields)));
          ("timestamp", STime t);
          ("severity", column_of (prop "severity" fields));
          ("metadata", SJson (document_of (prop "metadata" fields))) ].
Proof.
  intros Hbody _ Hrun.
  destruct (post_results_effect req s) as (resp & s0 & Hrun' & Hcases).
  rewrite Hrun in Hrun'. injection Hrun' as <- <-.
  destruct Hcases as [(message & _ & Hresp & _) | [[Hresp _] | Hstored]];
    try discriminate.
  destruct Hstored as (v & n & t & a & Hvalid & _ & _ & Hresp & Hres & Hag & Hbe & Hkeys).
  injection Hresp as -> ->.
  exists n, t, (result_row n t v). repeat (split; [first [reflexivity | assumption] |]).
  rewrite Hbody in Hvalid.
  pose proof (fun k Hin => validated_fields _ _ _ k Hvalid schemas_result_nodup Hin)
    as Hprop.
  destruct (validate_result_fields _ _ Hvalid) as (_ & _ & _ & _ & [d Hd] & _ & Hmd).
  unfold result_row.
  pose proof (Hprop (JoiKey "agent_id" (Joi_string []) true)) as H1.
  pose proof (Hprop (JoiKey "module" (Joi_string []) true)) as H2.
  pose proof (Hprop (JoiKey "target" (Joi_string []) false)) as H3.
  pose proof (Hprop (JoiKey "result_type" (Joi_string []) false)) as H4.
  pose proof (Hprop (JoiKey "severity" (Joi_string ["low"; "medium"; "high"; "critical"])
                       false)) as H5.
  pose proof (Hprop (JoiKey "data" Joi_object true)) as H6.
  pose proof (Hprop (JoiKey "metadata" Joi_object false)) as H7.
  cbn [key_name key_type] in H1, H2, H3, H4, H5, H6, H7.
  rewrite H1, H2, H3, H4, H5, H6, H7 by (cbn; auto 10).
  rewrite H6 in Hd by (cbn; auto 10).
  unfold document_of.
  destruct (prop "data" fields) as [jd |]; [| discriminate].
  destruct (prop "metadata" fields) as [jm |]; reflexivity.
Qed.

End ResultFacts.

(** ** Beacons: the log and the registry *)

Section BeaconLogFacts.
Context `{Platform}.

(** An INSERT writes its own table (and, on beacons, the agents table
    through the trigger) and no other. *)
Lemma exec_insert_frame (t : table_name) (cols : list string) (values : list expr)
    (on_conflict : option (string * list (string * expr))) (returning : list string)
    (params : list jsparam) (db : database) (out : list row) (db' : database)
    (t' : table_name) :
  exec_insert t cols values on_conflict returning params db = inr (out, db') ->
  t' <> t -> (t = beacons -> t' <> agents) ->
  table_of t' db' = table_of t' db.
Proof.
  unfold exec_insert. intros Hexec Hne Htrigger.
  destruct (negb (forallb _ cols)); [discriminate |].
  destruct (negb (Nat.eqb _ _)); [discriminate |].
  destruct (proposed_row _ _ _ _ _) as [e | new]; [discriminate |].
  cbn [ebind] in Hexec.
  destruct on_conflict as [[c set] |].
  - destruct (existsb (same_at c new) _).
    + destruct (assign_where _ _ _ _ _ _ _) as [e | upd]; [discriminate |].
      cbn [ebind] in Hexec.
      destruct (returning_rows _ _) as [e | out']; [discriminate |].
      cbn [ebind] in Hexec. injection Hexec as _ <-.
      destruct t, t'; first [reflexivity | congruence].
    + destruct (violates_unique _ _ _); [discriminate |].
      destruct (_ && _); [discriminate |].
      destruct (returning_rows _ _) as [e | out']; [discriminate |].
      cbn [ebind] in Hexec. injection Hexec as _ <-.
      destruct t, t'; first [reflexivity | congruence | exfalso; exact (Htrigger eq_refl eq_refl)].
  - destruct (violates_unique _ _ _); [discriminate |].
    destruct (_ && _); [discriminate |].
    destruct (returning_rows _ _) as [e | out']; [discriminate |].
    cbn [ebind] in Hexec. injection Hexec as _ <-.
    destruct t, t'; first [reflexivity | congruence | exfalso; exact (Htrigger eq_refl eq_refl)].
Qed.

(** The record that the beacon route appends to the beacons table. *)
Lemma record_beacon_row (a : string) (pip : jsparam) (m : json)
    (db : database) (out : list row) (db' : database) :
  exec record_beacon [PText a; pip; PJsonText m] db = inr (out, db') ->
  exists vip,
    input INET pip = inr vip /\
    tbl_beacons db'
    = (tbl_beacons db ++ [beacon_row (uuid_seed db) a (now db) vip m])%list.
Proof.
  intros Hexec. cbn in Hexec.
  destruct (check_column _ (SText a)) as [e | v1] eqn:H1; [discriminate |].
  apply check_column_inr in H1 as (-> & H1 & _).
  destruct (input INET pip) as [e | vip] eqn:Hip; [discriminate |].
  cbn [ebind] in Hexec.
  destruct (check_column _ vip) as [e | v4] eqn:H4; [discriminate |].
  apply check_column_inr in H4 as (-> & _).
  match type of Hexec with
  | context [check_column ?cd (SText "active")] =>
      replace (check_column cd (SText "active")) with (@inr string sqlval (SText "active"))
        in Hexec by (vm_compute; reflexivity)
  end.
  cbn in Hexec.
  destruct (_ || _); [discriminate |].
  destruct (negb _); [discriminate |].
  injection Hexec as _ <-.
  exists vip. split; reflexivity.
Qed.

Lemma schemas_beacon_nodup : NoDup (List.map key_name schemas_beacon).
Proof.
  cbn. repeat (constructor 2; [rewrite list_elem_of_In; cbn; intuition discriminate |]).
  constructor 1.
Qed.

(** The beacon route and the tables beside the registry: results and
    credentials are never written, and the beacons table gains the record
    of the call exactly when the answer is 200. *)
Lemma post_beacon_log (req : request) (s : state database) :
  exists resp s',
    post_beacon req s = (inr resp, s') /\
    tbl_results (pool s') = tbl_results (pool s) /\
    tbl_api_keys (pool s') = tbl_api_keys (pool s) /\
    ((status resp <> 200%nat /\ tbl_beacons (pool s') = tbl_beacons (pool s)) \/
     (exists v a n,
        validate schemas_beacon (body req) = inr (Some v) /\
        prop "agent_id" v = Some (JStr a) /\
        status resp = 200%nat /\
        tbl_beacons (pool s')
        = (tbl_beacons (pool s) ++
           [beacon_row n a (now (pool s')) (ip_column req)
              (default (JObj []) (prop "metadata" v))])%list)).
Proof.
  unfold post_beacon, try_catch.
  destruct (validate schemas_beacon (body req)) as [message | [v |]] eqn:Hvalid.
  - eexists _, _. split; [reflexivity |]. repeat (split; [reflexivity |]).
    left. split; [discriminate | reflexivity].
  - destruct (validate_beacon_fields _ _ Hvalid) as ([a Ha] & Hh & Hp & Hv & Hm).
    unfold destructure, bind, query, logger, emit, Date_now, ret.
    cbn [pool_query PgPool pool limits date trace].
    rewrite Ha. cbn [param_of]. rewrite (stringify_object_field _ Hm).
    destruct (arrive_same_tables (pool s)) as (Hk0 & Ha0 & Hb0 & Hr0).
    destruct (pg_query upsert_agent _ (pool s)) as [[e | rows] db2] eqn:Hq1.
    + apply pg_query_inl in Hq1 as ->.
      eexists _, _. split; [reflexivity |]. cbn [status res_json pool].
      repeat (split; [assumption |]). left. split; [discriminate | assumption].
    + apply pg_query_inr in Hq1 as [_ Hexec1].
      pose proof (exec_insert_frame _ _ _ _ _ _ _ _ _ beacons Hexec1) as Hb1.
      cbn [table_of] in Hb1.
      apply upsert_agent_exec in Hexec1
        as (vh & vp & vv & vip0 & _ & _ & _ & _ & _ & Hr1 & Hk1 & _).
      cbn [pool limits date trace].
      destruct (arrive_same_tables db2) as (Hk2 & Ha2 & Hb2 & Hr2).
      destruct (pg_query record_beacon _ db2) as [[e | rows'] db3] eqn:Hq2.
      * apply pg_query_inl in Hq2 as ->.
        eexists _, _. split; [reflexivity |]. cbn [status res_json pool].
        split; [congruence |]. split; [congruence |].
        left. split; [discriminate |].
        rewrite Hb2, Hb1 by (discriminate || intros; discriminate). exact Hb0.
      * apply pg_query_inr in Hq2 as [_ Hexec2].
        pose proof (record_beacon_row _ _ _ _ _ _ Hexec2) as (vip & Hvip & Hrow).
        rewrite input_ip_param in Hvip. injection Hvip as <-.
        apply record_beacon_exec in Hexec2 as (_ & Hr3 & Hk3 & Hnow & _).
        eexists _, _. split; [reflexivity |]. cbn [status res_json pool].
        split; [congruence |]. split; [congruence |].
        right. exists v, a, (uuid_seed (snd (arrive db2))).
        repeat (split; [first [reflexivity | assumption] |]).
        rewrite Hrow, Hnow, Hb2, Hb1 by (discriminate || intros; discriminate).
        rewrite Hb0. reflexivity.
  - eexists _, _. split; [reflexivity |]. repeat (split; [reflexivity |]).
    left. split; [discriminate | reflexivity].
Qed.

Lemma others_upserted (id : nat) (a : string) (vh vp vip vv : sqlval) (m : json) (t : Z)
    (rows : list row) :
  List.filter (fun r => negb (agent_named a r)) (upserted id a vh vp vip vv m t rows)
  = List.filter (fun r => negb (agent_named a r)) rows.
Proof.
  unfold upserted. destruct (existsb (agent_named a) rows).
  - induction rows as [| r rest IH]; [reflexivity |].
    cbn [List.map List.filter]. rewrite IH.
    destruct (agent_named a r) eqn:Hr.
    + rewrite agent_named_refreshed, Hr. reflexivity.
    + rewrite Hr. reflexivity.
  - rewrite List.filter_app. cbn [List.filter].
    unfold agent_named at 2. cbn [new_agent prop String.eqb Ascii.eqb Bool.eqb].
    rewrite String.eqb_refl. cbn [negb]. apply app_nil_r.
Qed.

Lemma others_touched (a : string) (t : Z) (rows : list row) :
  List.filter (fun r => negb (agent_named a r)) (touched a t rows)
  = List.filter (fun r => negb (agent_named a r)) rows.
Proof.
  unfold touched. induction rows as [| r rest IH]; [reflexivity |].
  cbn [List.map List.filter]. rewrite IH.
  destruct (agent_named a r) eqn:Hr.
  - rewrite agent_named_touch, Hr. reflexivity.
  - rewrite Hr. reflexivity.
Qed.

(** X13. The beacon log: for a beacon of agent [a] (an id of at most 255
    characters), the beacons table gains exactly one record when the
    answer is 200, with the agent, the address of the caller, the status
    'active', the metadata of the body or the empty document, and the
    time of the database; with any other answer the log is as it was. *)
Theorem beacon_is_recorded (req : request) (fields : list (string * json)) (a : string)
    (s s' : state database) (resp : response) :
  body req = Some (JObj fields) ->
  prop "agent_id" fields = Some (JStr a) ->
  (char_length a <= 255)%nat ->
  post_beacon req s = (inr resp, s') ->
  (status resp = 200%nat /\
   exists n,
     tbl_beacons (pool s')
     = (tbl_beacons (pool s) ++
        [beacon_row n a (now (pool s')) (ip_column req)
           (document_of (prop "metadata" fields))])%list) \/
  (status resp <> 200%nat /\ tbl_beacons (pool s') = tbl_beacons (pool s)).
Proof.
  intros Hbody Hagent _ Hrun.
  destruct (post_beacon_log req s) as (resp' & s0 & Hrun' & _ & _ & Hcases).
  rewrite Hrun in Hrun'. injection Hrun' as <- <-.
  destruct Hcases as [Hfailed | (v & a' & n & Hvalid & Ha' & Hstatus & Hrow)];
    [right; exact Hfailed | left].
  split; [exact Hstatus |]. exists n. rewrite Hrow.
  rewrite Hbody in Hvalid.
  pose proof (validated_fields _ _ _ (JoiKey "agent_id" (Joi_string []) true)
                Hvalid schemas_beacon_nodup) as H1.
  pose proof (validated_fields _ _ _ (JoiKey "metadata" Joi_object false)
                Hvalid schemas_beacon_nodup) as H2.
  cbn [key_name key_type] in H1, H2.
  rewrite H1 in Ha' by (cbn; auto). rewrite H2 by (cbn; auto 6).
  rewrite Hagent in Ha'. injection Ha' as <-.
  destruct (validate_beacon_fields _ _ Hvalid) as (_ & _ & _ & _ & Hm).
  rewrite H2 in Hm by (cbn; auto 6).
  unfold document_of. destruct (prop "metadata" fields) as [jm |]; reflexivity.
Qed.

(** X14. A beacon of agent [a] (an id of at most 255 characters), whatever
    its outcome, leaves the rows of every other agent as they were. *)
Theorem beacon_leaves_other_agents (req : request) (fields : list (string * json))
    (a : string) (s : state database) :
  body req = Some (JObj fields) ->
  prop "agent_id" fields = Some (JStr a) ->
  (char_length a <= 255)%nat ->
  List.filter (fun r => negb (agent_named a r))
    (tbl_agents (pool (snd (post_beacon req s))))
  = List.filter (fun r => negb (agent_named a r)) (tbl_agents (pool s)).
Proof.
  intros Hbody Hagent _.
  destruct (validate schemas_beacon (body req)) as [message | [v |]] eqn:Hvalid.
  - destruct (post_beacon_invalid req s) as (resp & s' & Hrun & Hpool); [congruence |].
    rewrite Hrun. cbn [snd]. rewrite Hpool. reflexivity.
  - pose proof Hvalid as Hvalid'. rewrite Hbody in Hvalid'.
    pose proof (validated_fields _ _ _ (JoiKey "agent_id" (Joi_string []) true)
                  Hvalid' schemas_beacon_nodup) as H1.
    cbn [key_name key_type] in H1. rewrite Hagent in H1.
    destruct (post_beacon_effect req s v a Hvalid (H1 ltac:(cbn; auto)))
      as (resp & s' & Hrun & Hcases).
    rewrite Hrun. cbn [snd].
    destruct Hcases as [[_ ->] | (id & t & [[_ ->] | [_ ->]])].
    + reflexivity.
    + apply others_upserted.
    + rewrite others_touched. apply others_upserted.
  - destruct (post_beacon_invalid req s) as (resp & s' & Hrun & Hpool); [congruence |].
    rewrite Hrun. cbn [snd]. rewrite Hpool. reflexivity.
Qed.

End BeaconLogFacts.

(** ** What every route keeps *)

Section RouteFacts.
Context `{Platform}.

Lemma named_upserted (a0 : string) (id : nat) (a : string) (vh vp vip vv : sqlval)
    (m : json) (t : Z) (rows : list row) :
  existsb (agent_named a0) rows = true ->
  existsb (agent_named a0) (upserted id a vh vp vip vv m t rows) = true.
Proof.
  intros Hin. unfold upserted. destruct (existsb (agent_named a) rows).
  - induction rows as [| r rest IH]; [discriminate |].
    cbn [List.map existsb] in *.
    apply Bool.orb_true_iff in Hin as [Hr | Hrest]; apply Bool.orb_true_iff.
    + left. destruct (agent_named a r); [rewrite agent_named_refreshed |]; exact Hr.
    + right. exact (IH Hrest).
  - rewrite existsb_app, Hin. reflexivity.
Qed.

Lemma named_touched (a0 a : string) (t : Z) (rows : list row) :
  existsb (agent_named a0) (touched a t rows) = existsb (agent_named a0) rows.
Proof.
  unfold touched. induction rows as [| r rest IH]; [reflexivity |].
  cbn [List.map existsb]. rewrite IH. f_equal.
  destruct (agent_named a r); [apply agent_named_touch | reflexivity].
Qed.

Lemma upserted_names (id : nat) (a : string) (vh vp vip vv : sqlval) (m : json) (t : Z)
    (rows : list row) :
  existsb (agent_named a) (upserted id a vh vp vip vv m t rows) = true.
Proof.
  destruct (existsb (agent_named a) rows) eqn:Hin.
  - apply named_upserted, Hin.
  - unfold upserted. rewrite Hin, existsb_app. cbn [existsb].
    unfold agent_named at 2. cbn [new_agent prop String.eqb Ascii.eqb Bool.eqb].
    rewrite String.eqb_refl. apply Bool.orb_true_iff. right. reflexivity.
Qed.

(** The beacon route, table by table. *)
Lemma post_beacon_tables (req : request) (s : state database) :
  exists resp s',
    post_beacon req s = (inr resp, s') /\
    tbl_results (pool s') = tbl_results (pool s) /\
    tbl_api_keys (pool s') = tbl_api_keys (pool s) /\
    (forall a0, existsb (agent_named a0) (tbl_agents (pool s)) = true ->
                existsb (agent_named a0) (tbl_agents (pool s')) = true) /\
    (tbl_beacons (pool s') = tbl_beacons (pool s) \/
     exists b, tbl_beacons (pool s') = (tbl_beacons (pool s) ++ [b])%list /\
               owned (tbl_agents (pool s')) b).
Proof.
  destruct (post_beacon_log req s) as (resp & s' & Hrun & Hres & Hkeys & Hlog).
  exists resp, s'. repeat (split; [assumption |]).
  destruct (validate schemas_beacon (body req)) as [message | [v |]] eqn:Hvalid.
  - destruct (post_beacon_invalid req s) as (resp' & s0 & Hrun' & Hpool); [congruence |].
    rewrite Hrun in Hrun'. injection Hrun' as _ <-. rewrite Hpool.
    split; [auto | left; reflexivity].
  - destruct (validate_beacon_fields _ _ Hvalid) as ([a Ha] & _).
    destruct (post_beacon_effect req s v a Hvalid Ha) as (resp' & s0 & Hrun' & Hcases).
    rewrite Hrun in Hrun'. injection Hrun' as <- <-.
    destruct Hcases as [[Hst Hag] | (id & t & [[Hst Hag] | [Hst Hag]])].
    + split; [rewrite Hag; auto |].
      destruct Hlog as [[_ Hb] | (_ & _ & _ & _ & _ & Hst' & _)]; [auto | congruence].
    + split; [rewrite Hag; intros a0; apply named_upserted |].
      destruct Hlog as [[_ Hb] | (_ & _ & _ & _ & _ & Hst' & _)]; [auto | congruence].
    + split; [rewrite Hag; intros a0 Ha0; rewrite named_touched;
              apply named_upserted, Ha0 |].
      destruct Hlog as [[Hst' _] | (v' & a' & n & Hv' & Ha' & _ & Hrow)]; [congruence |].
      right. eexists. split; [exact Hrow |].
      assert (v' = v) as -> by congruence.
      assert (a' = a) as -> by congruence.
      exists a. split; [reflexivity |].
      rewrite Hag, named_touched. apply upserted_names.
  - destruct (post_beacon_invalid req s) as (resp' & s0 & Hrun' & Hpool); [congruence |].
    rewrite Hrun in Hrun'. injection Hrun' as _ <-. rewrite Hpool.
    split; [auto | left; reflexivity].
Qed.

(** Every route, table by table: it answers; the credentials are as they
    were; no agent has left the registry; the beacons and the results
    are as they were or have gained one row, of an agent of the registry
    (and a result with the severity of a validated body). *)
Lemma route_effect (handler : request -> M database response) (req : request)
    (s : state database) :
  In handler routes ->
  exists resp s',
    handler req s = (inr resp, s') /\
    tbl_api_keys (pool s') = tbl_api_keys (pool s) /\
    (forall a0, existsb (agent_named a0) (tbl_agents (pool s)) = true ->
                existsb (agent_named a0) (tbl_agents (pool s')) = true) /\
    (tbl_beacons (pool s') = tbl_beacons (pool s) \/
     exists b, tbl_beacons (pool s') = (tbl_beacons (pool s) ++ [b])%list /\
               owned (tbl_agents (pool s')) b) /\
    (tbl_results (pool s') = tbl_results (pool s) \/
     exists r, tbl_results (pool s') = (tbl_results (pool s) ++ [r])%list /\
               owned (tbl_agents (pool s')) r /\ severity_ok r).
Proof.
  intros [<- | [<- | [<- | [<- | []]]]].
  - destruct (post_beacon_tables req s) as (resp & s' & Hrun & Hres & Hkeys & Hag & Hbe).
    exists resp, s'. repeat (split; [assumption |]). left. exact Hres.
  - destruct (post_results_effect req s) as (resp & s' & Hrun & Hcases).
    exists resp, s'. split; [exact Hrun |].
    destruct Hcases as [(message & _ & _ & ->) | [[_ Htables] | Hstored]].
    + repeat split; auto.
    + destruct Htables as (Hk & Ha & Hb & Hr). rewrite Ha.
      repeat split; auto.
    + destruct Hstored as (v & n & t & a & Hvalid & Ha & Hknown & _ & Hres & Hag & Hbe & Hk).
      rewrite Hag. repeat (split; [auto |]).
      right. exists (result_row n t v). split; [exact Hres |]. split.
      * exists a. cbn [result_row prop String.eqb Ascii.eqb Bool.eqb].
        rewrite Ha. split; [reflexivity | exact Hknown].
      * destruct (validate_result_fields _ _ Hvalid)
          as (_ & _ & _ & _ & _ & [Hsev | (sev & Hsev & Hin)] & _);
          unfold severity_ok; cbn [result_row prop String.eqb Ascii.eqb Bool.eqb];
          rewrite Hsev; cbn [column_of]; eauto.
  - destruct (proj1 (queries_read req s)) as (resp & s' & Hrun & Hk & Ha & Hb & Hr).
    exists resp, s'. rewrite Ha. repeat split; auto.
  - destruct (proj2 (queries_read req s)) as (resp & s' & Hrun & Hk & Ha & Hb & Hr).
    exists resp, s'. rewrite Ha. repeat split; auto.
Qed.

Lemma owned_later (registry registry' : list row) (r : row) :
  (forall a0, existsb (agent_named a0) registry = true ->
              existsb (agent_named a0) registry' = true) ->
  owned registry r -> owned registry' r.
Proof. intros Hkept (a & Ha & Hin). exists a. auto. Qed.

(** X15. No route deletes or rewrites what is stored: every route
    answers (none throws), leaves the credentials as they were, removes no
    agent from the registry, and leaves the beacons and the results as
    they were or with one more row at the end. *)
Theorem routes_only_append (handler : request -> M database response) (req : request)
    (s : state database) :
  In handler routes ->
  exists resp s',
    handler req s = (inr resp, s') /\
    tbl_api_keys (pool s') = tbl_api_keys (pool s) /\
    (forall a, existsb (agent_named a) (tbl_agents (pool s)) = true ->
               existsb (agent_named a) (tbl_agents (pool s')) = true) /\
    (exists more, tbl_beacons (pool s') = (tbl_beacons (pool s) ++ more)%list /\
                  (List.length more <= 1)%nat) /\
    (exists more, tbl_results (pool s') = (tbl_results (pool s) ++ more)%list /\
                  (List.length more <= 1)%nat).
Proof.
  intros Hroute.
  destruct (route_effect handler req s Hroute)
    as (resp & s' & Hrun & Hkeys & Hagents & Hbeacons & Hresults).
  exists resp, s'. repeat (split; [assumption |]). split.
  - destruct Hbeacons as [-> | (b & -> & _)].
    + exists []. rewrite app_nil_r. split; [reflexivity | cbn; lia].
    + exists [b]. split; [reflexivity | cbn; lia].
  - destruct Hresults as [-> | (r & -> & _)].
    + exists []. rewrite app_nil_r. split; [reflexivity | cbn; lia].
    + exists [r]. split; [reflexivity | cbn; lia].
Qed.

(** X16. The severities of the stored results stay valid: when every
    result has no severity or one of the four levels, so it is after any
    request to any route. *)
Theorem stored_severities_stay_valid (handler : request -> M database response)
    (req : request) (s : state database) :
  In handler routes ->
  Forall severity_ok (tbl_results (pool s)) ->
  Forall severity_ok (tbl_results (pool (snd (handler req s)))).
Proof.
  intros Hroute Hok.
  destruct (route_effect handler req s Hroute)
    as (resp & s' & Hrun & _ & _ & _ & Hresults).
  rewrite Hrun. cbn [snd].
  destruct Hresults as [-> | (r & -> & _ & Hr)]; [exact Hok |].
  apply Forall_app. split; [exact Hok | constructor; [exact Hr | constructor]].
Qed.

(** X17. The two foreign keys are kept: when every beacon record and
    every result belongs to an agent of the registry, so it is after any
    request to any route. *)
Theorem references_are_kept (handler : request -> M database response) (req : request)
    (s : state database) :
  In handler routes ->
  references_hold (pool s) ->
  references_hold (pool (snd (handler req s))).
Proof.
  intros Hroute [Hb Hr].
  destruct (route_effect handler req s Hroute)
    as (resp & s' & Hrun & _ & Hagents & Hbeacons & Hresults).
  rewrite Hrun. cbn [snd].
  assert (forall rows, Forall (owned (tbl_agents (pool s))) rows ->
                       Forall (owned (tbl_agents (pool s'))) rows) as Hlater.
  { intros rows Hrows. eapply Forall_impl; [exact Hrows |].
    intros r. apply owned_later, Hagents. }
  split.
  - destruct Hbeacons as [-> | (b & -> & Hown)]; [exact (Hlater _ Hb) |].
    apply Forall_app. split; [exact (Hlater _ Hb) | constructor; [exact Hown | constructor]].
  - destruct Hresults as [-> | (r & -> & Hown & _)]; [exact (Hlater _ Hr) |].
    apply Forall_app. split; [exact (Hlater _ Hr) | constructor; [exact Hown | constructor]].
Qed.

(** X27. Only a beacon changes the registry: a submitted result and the
    two queries, whatever their outcome, leave the agents table exactly
    as it was (to submit results does not refresh last_seen or
    is_active). *)
Theorem only_beacons_touch_the_registry (handler : request -> M database response)
    (req : request) (s : state database) :
  In handler [post_results; get_results; get_agents] ->
  tbl_agents (pool (snd (handler req s))) = tbl_agents (pool s).
Proof.
  intros [<- | [<- | [<- | []]]].
  - destruct (post_results_effect req s) as (resp & s' & Hrun & Hcases).
    rewrite Hrun. cbn [snd].
    destruct Hcases as [(message & _ & _ & ->) | [[_ Htables] | Hstored]].
    + reflexivity.
    + apply Htables.
    + destruct Hstored as (v & n & t & a & _ & _ & _ & _ & _ & Hagents & _).
      exact Hagents.
  - destruct (proj1 (queries_read req s)) as (resp & s' & Hrun & Htables).
    rewrite Hrun. apply Htables.
  - destruct (proj2 (queries_read req s)) as (resp & s' & Hrun & Htables).
    rewrite Hrun. apply Htables.
Qed.

End RouteFacts.

(** ** More on the results route *)

Section FilterFacts.
Context `{Platform}.

(** The filters of the route other than severity: each one that the
    query string holds (and that is not empty) is a condition of the
    statement, bound to the value. *)
Lemma results_query_filters (req : request) :
  exists where_ params,
    results_query req
    = (SELECT None results where_ (Some "timestamp")
         (Some (Param (S (List.length params))))
         (Some (Param (S (S (List.length params))))),
       ((params ++ [PNum (parseInt_or (query_string req !! "limit") 100)])
          ++ [PNum (parseInt_or (query_string req !! "offset") 0)])%list) /\
    forall key col op,
      In (key, col, op)
        [("agent_id", "agent_id", OpEq); ("module", "module", OpEq);
         ("since", "timestamp", OpGe)] ->
      forall v, query_string req !! key = Some v -> truthy v = true ->
        exists i, In (Cond col op (Param (S i))) where_ /\
                  nth_error params i = Some (param_of_query v).
Proof.
  unfold results_query.
  set (f1 := add_filter (query_string req !! "agent_id") "agent_id" OpEq ([], [])).
  set (f2 := add_filter (query_string req !! "module") "module" OpEq f1).
  set (f3 := add_filter (query_string req !! "severity") "severity" OpEq f2).
  set (f4 := add_filter (query_string req !! "since") "timestamp" OpGe f3).
  exists (fst f4), (snd f4). split.
  - cbv zeta. rewrite !length_app. cbn [List.length].
    rewrite !Nat.add_1_r. reflexivity.
  - intros key col op [Heq | [Heq | [Heq | []]]]; injection Heq as <- <- <-;
      intros v Hv Htruthy.
    + destruct (add_filter_adds v "agent_id" OpEq ([], []) Htruthy) as (i & Hin & Hnth).
      exists i. subst f4 f3 f2 f1. rewrite Hv.
      split; do 3 apply add_filter_keeps; assumption.
    + destruct (add_filter_adds v "module" OpEq f1 Htruthy) as (i & Hin & Hnth).
      exists i. subst f4 f3 f2. rewrite Hv.
      split; do 2 apply add_filter_keeps; assumption.
    + destruct (add_filter_adds v "timestamp" OpGe f3 Htruthy) as (i & Hin & Hnth).
      exists i. subst f4. rewrite Hv. split; assumption.
Qed.

(** The page of a 200 answer, with the conditions that were in effect. *)
Lemma get_results_filtered (req : request) (s s' : state database) (rows : list row)
    (n : nat) (l o : number) :
  get_results req s = (inr (res_json 200 (ResultsPage rows n l o)), s') ->
  exists bs k m,
    rows = take k
             (drop m
                (order_by_desc "timestamp"
                   (List.filter (passes bs) (tbl_results (pool s'))))) /\
    (forall v, query_string req !! "agent_id" = Some v -> truthy v = true ->
       In ("agent_id", OpEq, SText (query_text v)) bs) /\
    (forall v, query_string req !! "module" = Some v -> truthy v = true ->
       In ("module", OpEq, SText (query_text v)) bs) /\
    (forall v, query_string req !! "since" = Some v -> truthy v = true ->
       exists t, timestamptz_in (query_text v) = Some t /\
                 In ("timestamp", OpGe, STime t) bs).
Proof.
  unfold get_results, try_catch, bind, query.
  cbn [pool_query PgPool pool limits date trace].
  destruct (results_query_filters req) as (where_ & params & Hshape & Hfilters).
  rewrite Hshape. cbn [fst snd].
  destruct (pg_query _ _ (pool s)) as [[e | rows0] db'] eqn:Hq; [discriminate |].
  cbv beta iota. unfold ret. intros Heq.
  injection Heq as <- <- <- <- <-. cbn [pool].
  unfold pg_query in Hq. destruct (arrive (pool s)) as [failed db1].
  destruct failed; [discriminate |].
  destruct (exec _ _ db1) as [e | [out db2]] eqn:Hexec; [discriminate |].
  injection Hq as <- <-. cbn [exec] in Hexec.
  destruct (exec_select _ _ _ _ _ _ _ db1) as [e | out'] eqn:Hselect; [discriminate |].
  cbn [ebind] in Hexec. injection Hexec as <- <-.
  apply exec_select_ordered in Hselect
    as (bs & lb & ob & skipped & Hbind & _ & _ & Hskip & Htake).
  apply apply_offset_inr in Hskip as (m & -> & _).
  apply apply_limit_inr in Htake as (k & -> & _).
  exists bs, k, m. split; [reflexivity |].
  assert (forall key col op v,
            In (key, col, op)
              [("agent_id", "agent_id", OpEq); ("module", "module", OpEq);
               ("since", "timestamp", OpGe)] ->
            query_string req !! key = Some v -> truthy v = true ->
            exists ty b,
              type_of_column results col = inr ty /\
              In b bs /\
              (v' <-- input ty (param_of_query v) ;;
               match op, ty with
               | OpEq, _ => inr (col, OpEq, v')
               | OpGe, TIMESTAMPTZ => inr (col, OpGe, v')
               | OpGe, _ => inl "ordering is modelled on timestamps only"
               end)%sql = inr b) as Hbound.
  { intros key col op v Hin Hv Htruthy.
    destruct (Hfilters key col op Hin v Hv Htruthy) as (i & Hcond & Hnth).
    destruct (bind_conds_in _ _ _ _ _ _ Hbind Hcond) as (b & Hb & Hbin).
    unfold bind_cond in Hb. cbn [cond_col cond_op cond_rhs eval_expr] in Hb.
    rewrite (nth_error_app_keeps _ _ i (param_of_query v)) in Hb
      by (apply nth_error_app_keeps; exact Hnth).
    destruct (type_of_column results col) as [e | ty]; [discriminate |].
    cbn [ebind] in Hb. exists ty, b. auto. }
  split; [| split].
  - intros v Hv Htruthy.
    destruct (Hbound "agent_id" "agent_id" OpEq v ltac:(cbn; auto) Hv Htruthy)
      as (ty & b & Hty & Hbin & Hb).
    cbn in Hty. injection Hty as <-.
    destruct v; cbn in Hb; injection Hb as <-; exact Hbin.
  - intros v Hv Htruthy.
    destruct (Hbound "module" "module" OpEq v ltac:(cbn; auto) Hv Htruthy)
      as (ty & b & Hty & Hbin & Hb).
    cbn in Hty. injection Hty as <-.
    destruct v; cbn in Hb; injection Hb as <-; exact Hbin.
  - intros v Hv Htruthy.
    destruct (Hbound "since" "timestamp" OpGe v ltac:(cbn; auto) Hv Htruthy)
      as (ty & b & Hty & Hbin & Hb).
    cbn in Hty. injection Hty as <-.
    destruct v as [x | items | obj]; cbn in Hb |- *;
      destruct (timestamptz_in _) as [t |]; try discriminate;
      cbn in Hb; injection Hb as <-; eauto.
Qed.

(** X18. The other filters of the results route: on a 200 page, every
    row has the agent_id and the module that the query string gives, a
    timestamp that is not before the time that [since] reads as, and is a
    row of the results table. *)
Theorem results_match_the_filters (req : request) (s s' : state database)
    (rows : list row) (n : nat) (l o : number) :
  get_results req s = (inr (res_json 200 (ResultsPage rows n l o)), s') ->
  (forall v, query_string req !! "agent_id" = Some v -> truthy v = true ->
     Forall (fun r => prop "agent_id" r = Some (SText (query_text v))) rows) /\
  (forall v, query_string req !! "module" = Some v -> truthy v = true ->
     Forall (fun r => prop "module" r = Some (SText (query_text v))) rows) /\
  (forall v, query_string req !! "since" = Some v -> truthy v = true ->
     exists t, timestamptz_in (query_text v) = Some t /\
       Forall (fun r => exists x, prop "timestamp" r = Some (STime x) /\ t <= x) rows) /\
  Forall (fun r => In r (tbl_results (pool s))) rows.
Proof.
  intros Hrun.
  assert (tbl_results (pool s') = tbl_results (pool s)) as Htable.
  { destruct (proj1 (queries_read req s)) as (r0 & s0 & Hrun0 & _ & _ & _ & Hr).
    rewrite Hrun in Hrun0. injection Hrun0 as _ <-. exact Hr. }
  apply get_results_filtered in Hrun as (bs & k & m & -> & Hagent & Hmodule & Hsince).
  rewrite Htable.
  assert (forall r, In r (take k (drop m (order_by_desc "timestamp"
                       (List.filter (passes bs) (tbl_results (pool s)))))) ->
                    In r (tbl_results (pool s)) /\ forall b, In b bs -> holds r b = true)
    as Hrows.
  { intros r Hr. apply In_take_drop in Hr.
    apply (Permutation_in _ (order_by_desc_perm _ _)) in Hr.
    apply filter_In in Hr as [Hin Hpass]. split; [exact Hin |].
    unfold passes in Hpass. rewrite forallb_forall in Hpass. exact Hpass. }
  split; [| split; [| split]].
  - intros v Hv Htruthy. apply List.Forall_forall. intros r Hr.
    apply Hrows in Hr as [_ Hr]. specialize (Hr _ (Hagent v Hv Htruthy)).
    cbn [holds] in Hr. destruct (prop "agent_id" r) as [x |]; [| discriminate].
    apply sqlval_eqb_text in Hr. congruence.
  - intros v Hv Htruthy. apply List.Forall_forall. intros r Hr.
    apply Hrows in Hr as [_ Hr]. specialize (Hr _ (Hmodule v Hv Htruthy)).
    cbn [holds] in Hr. destruct (prop "module" r) as [x |]; [| discriminate].
    apply sqlval_eqb_text in Hr. congruence.
  - intros v Hv Htruthy. destruct (Hsince v Hv Htruthy) as (t & Ht & Hbin).
    exists t. split; [exact Ht |]. apply List.Forall_forall. intros r Hr.
    apply Hrows in Hr as [_ Hr]. specialize (Hr _ Hbin).
    cbn [holds] in Hr. destruct (prop "timestamp" r) as [[| | | x | |] |]; try discriminate.
    exists x. split; [reflexivity |]. apply Z.leb_le. exact Hr.
  - apply List.Forall_forall. intros r Hr. apply Hrows in Hr as [Hin _]. exact Hin.
Qed.



End FilterFacts.

(** ** More on the provisioning script *)

Section KeyFacts.

Lemma hex_digit_code (n : N) :
  (n < 16)%N ->
  N_of_ascii (hex_digit n) = (if (n <? 10)%N then 48 + n else 87 + n)%N.
Proof.
  intros Hn. unfold hex_digit. apply N_ascii_embedding.
  destruct (N.ltb_spec n 10); lia.
Qed.

Lemma hex_digit_inj (n m : N) :
  (n < 16)%N -> (m < 16)%N -> hex_digit n = hex_digit m -> n = m.
Proof.
  intros Hn Hm Heq. apply (f_equal N_of_ascii) in Heq.
  rewrite !hex_digit_code in Heq by assumption.
  destruct (N.ltb_spec n 10), (N.ltb_spec m 10); lia.
Qed.

Lemma hex_digit_char (n : N) : (n < 16)%N -> hex_char (hex_digit n).
Proof.
  intros Hn.
  assert (In n [0; 1; 2; 3; 4; 5; 6; 7; 8; 9; 10; 11; 12; 13; 14; 15]%N) as Hin.
  { cbn. lia. }
  cbn in Hin. unfold hex_char.
  repeat (destruct Hin as [<- | Hin]; [vm_compute; auto 20 |]).
  destruct Hin.
Qed.

(** X20. The hexadecimal text of the random bytes: two lower-case
    hexadecimal digits for every byte, and different bytes give different
    texts, so that the key 'hbv_' + text carries all of the randomness
    drawn (68 characters for the 32 bytes of the script). *)
Theorem hex_is_faithful (bytes : list N) :
  Forall (fun b => (b < 256)%N) bytes ->
  String.length ("hbv_" ++ hex bytes) = (4 + 2 * List.length bytes)%nat /\
  Forall hex_char (list_ascii_of_string (hex bytes)) /\
  forall bytes', Forall (fun b => (b < 256)%N) bytes' ->
    "hbv_" ++ hex bytes' = "hbv_" ++ hex bytes -> bytes' = bytes.
Proof.
  intros Hbytes. split; [| split].
  - assert (String.length (hex bytes) = (2 * List.length bytes)%nat) as Hlen.
    { clear Hbytes. induction bytes as [| b rest IH]; [reflexivity |].
      cbn [hex String.length List.length]. rewrite IH. lia. }
    change ("hbv_" ++ hex bytes)
      with (String "h" (String "b" (String "v" (String "_" (hex bytes))))).
    cbn [String.length]. rewrite Hlen. lia.
  - induction Hbytes as [| b rest Hb _ IH]; [constructor |].
    cbn [hex list_ascii_of_string].
    constructor; [apply hex_digit_char; apply N.Div0.div_lt_upper_bound; lia |].
    constructor; [apply hex_digit_char; apply N.mod_lt; lia | exact IH].
  - intros bytes' Hbytes' Heq.
    change (String "h" (String "b" (String "v" (String "_" (hex bytes'))))
            = String "h" (String "b" (String "v" (String "_" (hex bytes))))) in Heq.
    injection Heq as Heq.
    revert bytes' Hbytes' Heq.
    induction Hbytes as [| b rest Hb _ IH]; intros [| b' rest'] Hbytes' Heq;
      try reflexivity; try discriminate.
    cbn [hex] in Heq. injection Heq as Hhi Hlo Hrest.
    apply Forall_cons in Hbytes' as [Hb' Hrest'].
    apply hex_digit_inj in Hhi; [| apply N.Div0.div_lt_upper_bound; lia ..].
    apply hex_digit_inj in Hlo; [| apply N.mod_lt; lia ..].
    f_equal; [| exact (IH rest' Hrest' Hrest)].
    rewrite (N.div_mod b' 16), (N.div_mod b 16) by lia. congruence.
Qed.

End KeyFacts.

Section ProvisioningOutcome.
Context `{Platform}.

(** The INSERT of the script, when it succeeds: one credential row
    appended, active and never used, and no other table written. *)
Lemma insert_api_key_exec (h name : string) (db : database) (out : list row)
    (db' : database) :
  exec insert_api_key [PText h; PText name] db = inr (out, db') ->
  out <> [] /\
  tbl_api_keys db' = (tbl_api_keys db ++ [key_row (uuid_seed db) h name (now db)])%list /\
  tbl_agents db' = tbl_agents db /\
  tbl_beacons db' = tbl_beacons db /\
  tbl_results db' = tbl_results db.
Proof.
  intros Hexec. cbn in Hexec.
  destruct (check_column _ (SText h)) as [e | v1] eqn:H1; [discriminate |].
  apply check_column_inr in H1 as [-> _].
  destruct (check_column _ (SText name)) as [e | v2] eqn:H2; [discriminate |].
  apply check_column_inr in H2 as [-> _].
  cbn in Hexec.
  destruct (_ || _); [discriminate |].
  injection Hexec as <- <-. repeat split. discriminate.
Qed.

(** X21. What the provisioning script does: without a name it exits at
    once and sends nothing; otherwise it prints a key exactly when its
    INSERT stored one row, which holds the bcrypt hash of that key (not
    the key), the name, is active and has never been used; when it prints
    nothing the credential store is as it was; and it writes no other
    table. *)
Theorem generateApiKey_outcome (name : string) (bytes : list N) (salt : string)
    (s : state database) :
  (char_length name <= 255)%nat ->
  exists out s',
    generateApiKey name bytes salt s = (inr out, s') /\
    (name = "" -> out = None /\ s' = s) /\
    tbl_agents (pool s') = tbl_agents (pool s) /\
    tbl_beacons (pool s') = tbl_beacons (pool s) /\
    tbl_results (pool s') = tbl_results (pool s) /\
    ((out = None /\ tbl_api_keys (pool s') = tbl_api_keys (pool s)) \/
     (exists n t,
        out = Some ("hbv_" ++ hex bytes) /\
        tbl_api_keys (pool s')
        = (tbl_api_keys (pool s) ++
           [key_row n (bcrypt_hash ("hbv_" ++ hex bytes) salt) name t])%list)).
Proof.
  intros _. unfold generateApiKey.
  destruct name as [| c name'] eqn:Hname.
  { exists None, s. cbn. repeat split; auto. }
  rewrite <- Hname.
  assert (truthy_string name = true) as -> by (rewrite Hname; reflexivity).
  cbn [negb]. unfold try_catch, bind, query.
  cbn [pool_query PgPool pool limits date trace].
  destruct (pg_query _ _ (pool s)) as [[e | rows] db'] eqn:Hq.
  - apply pg_query_refused in Hq as (Hk & Ha & Hb & Hr).
    eexists _, _. split; [reflexivity |]. cbn [pool].
    split; [intros ->; discriminate |]. repeat (split; [assumption |]).
    left. split; [reflexivity | assumption].
  - apply pg_query_inr in Hq as [_ Hexec].
    apply insert_api_key_exec in Hexec as (Hout & Hkeys & Ha & Hb & Hr).
    destruct (arrive_same_tables (pool s)) as (Hk0 & Ha0 & Hb0 & Hr0).
    destruct rows as [| r0 rows]; [contradiction |].
    eexists _, _. split; [reflexivity |]. cbn [pool].
    split; [intros ->; discriminate |].
    split; [congruence |]. split; [congruence |]. split; [congruence |].
    right. eexists _, _. split; [reflexivity |]. rewrite Hkeys, Hk0. reflexivity.
Qed.

End ProvisioningOutcome.

(** ** Routes in sequence and behind the limiter *)

Section PipelineFacts.
Context `{Platform} {DB : Type} `{Pool DB}.
Variable rateLimit : nat.

(** X22. The limiter runs before the middleware: a request without a key
    that is within the limit is counted against the window of its client
    and then answered 401 'API key required' with the three RateLimit
    headers; the pool has seen nothing, and the trace holds the log entry
    of the request only. *)
Theorem keyless_requests_are_counted (handler : request -> M DB response)
    (req : request) (s : state DB) :
  js_not (presented req) = true ->
  (hits (increment (default "" (ip req)) (date s) (limits s)) <= rateLimit)%nat ->
  protected rateLimit handler req s
  = (inr (Response 401
            (rate_limit_headers rateLimit
               (increment (default "" (ip req)) (date s) (limits s)) (date s))
            (ErrorBody "API key required")),
     State (pool s)
       (<[default "" (ip req) := increment (default "" (ip req)) (date s) (limits s)]>
          (limits s))
       (date s)
       (trace s ++ [EvLog info "Incoming request"])).
Proof.
  intros Hkey Hwithin.
  unfold protected, bind, logger, emit, limiter. cbn [pool limits date trace].
  apply Nat.ltb_ge in Hwithin. rewrite Hwithin.
  unfold authenticateApiKey. rewrite Hkey. reflexivity.
Qed.

End PipelineFacts.

Section ListingFacts.
Context `{Platform}.

(** The listing that the agents route answers with when the pool serves
    its statement. *)
Lemma get_agents_served (req : request) (s : state database) :
  fst (arrive (pool s)) = false ->
  exists s',
    get_agents req s
    = (inr (res_json 200
              (AgentsPage
                 (order_by_desc "last_seen"
                    (List.filter (listed req) (tbl_agents (pool s))))
                 (List.length
                    (order_by_desc "last_seen"
                       (List.filter (listed req) (tbl_agents (pool s))))))), s').
Proof.
  intros Hserved.
  unfold get_agents, try_catch, bind, query.
  cbn [pool_query PgPool pool limits date trace].
  unfold pg_query.
  destruct (arrive_same_tables (pool s)) as (_ & Htable & _).
  destruct (arrive (pool s)) as [failed db1]. cbn [fst snd] in *. subst failed.
  assert (exec (agents_query req) [] db1
          = inr (order_by_desc "last_seen" (List.filter (listed req) (tbl_agents db1)), db1))
    as Hexec.
  { unfold agents_query, listed.
    destruct (query_string req !! "active_only") as [v |]; cbn [default from_option id].
    - destruct (strict_equal v "true"); cbn.
      + erewrite filter_ext; [reflexivity |]. intros r. apply passes_is_active.
      + erewrite filter_ext; [reflexivity |]. reflexivity.
    - cbn. erewrite filter_ext; [reflexivity |]. intros r. apply passes_is_active. }
  rewrite Hexec, Htable. cbv beta iota. eexists. reflexivity.
Qed.

(** X23. A beacon makes its agent visible: after a beacon of agent [a]
    (an id of at most 255 characters) that is answered 200, a listing that
    the pool serves holds a row of [a], active and with the time of the
    beacon record as last_seen, whatever active_only says and whether or
    not the agent was inactive before. *)
Theorem beaconed_agent_is_listed (req listing : request) (v : list (string * json))
    (a : string) (s s1 : state database) (resp : response) :
  registry_ok a (tbl_agents (pool s)) ->
  validate schemas_beacon (body req) = inr (Some v) ->
  prop "agent_id" v = Some (JStr a) ->
  (char_length a <= 255)%nat ->
  post_beacon req s = (inr resp, s1) ->
  status resp = 200%nat ->
  fst (arrive (pool s1)) = false ->
  exists rows s2 r,
    get_agents listing s1 = (inr (res_json 200 (AgentsPage rows (List.length rows))), s2) /\
    In r rows /\
    agent_named a r = true /\
    prop "is_active" r = Some (SBool true) /\
    prop "last_seen" r = Some (STime (now (pool s1))).
Proof.
  intros Hok Hvalid Ha _ Hrun Hstatus Hserved.
  destruct (post_beacon_effect req s v a Hvalid Ha) as (resp' & s' & Hrun' & Hcases).
  rewrite Hrun in Hrun'. injection Hrun' as <- <-.
  destruct Hcases as [[Hst _] | (id & t & [[Hst _] | [_ Htable]])]; try congruence.
  destruct (touched_upserted_row id a (column_of (prop "hostname" v))
              (column_of (prop "platform" v)) (ip_column req)
              (column_of (prop "version" v)) (default (JObj []) (prop "metadata" v))
              t (now (pool s1)) (tbl_agents (pool s)) Hok)
    as (r & Hrow & _ & _ & _ & _ & _ & Hseen & Hactive).
  rewrite <- Htable in Hrow.
  assert (In r (List.filter (agent_named a) (tbl_agents (pool s1)))) as Hin
    by (rewrite Hrow; left; reflexivity).
  apply filter_In in Hin as [Hin Hnamed].
  destruct (get_agents_served listing s1 Hserved) as (s2 & Hlist).
  eexists _, s2, r. split; [exact Hlist |].
  split; [| auto].
  apply (Permutation_in _ (Permutation_sym (order_by_desc_perm _ _))).
  apply filter_In. split; [exact Hin |].
  unfold listed, active. rewrite Hactive.
  destruct (query_string listing !! "active_only") as [x |]; [| reflexivity].
  destruct (strict_equal x "true"); reflexivity.
Qed.

End ListingFacts.

(** ** Failures *)

Section FailureFacts.
Context `{Platform} {DB : Type} `{Pool DB}.

Lemma bind_inr {A B} (c : M DB A) (k : A -> M DB B) (s s' : state DB) (b : B) :
  bind c k s = (inr b, s') ->
  exists a s1, c s = (inr a, s1) /\ k a s1 = (inr b, s').
Proof.
  unfold bind. destruct (c s) as [[e | a] s1]; [discriminate |]. eauto.
Qed.

(** A route that ends in its [catch] has logged the failure. *)
Lemma caught_is_logged (c : M DB response) (message : string) (body : payload)
    (s s' : state DB) (resp : response) :
  (forall r s1, c s = (inr r, s1) -> status r <> 500%nat) ->
  try_catch c (fun _ => bind (logger error message) (fun _ => ret (res_json 500 body))) s
  = (inr resp, s') ->
  status resp = 500%nat ->
  last (trace s') = Some (EvLog error message).
Proof.
  intros Hbody. unfold try_catch, bind, logger, emit, ret.
  destruct (c s) as [[e | r] s1] eqn:Hc.
  - intros Heq _. injection Heq as _ <-. cbn [trace]. apply last_snoc.
  - intros Heq Hst. injection Heq as <- <-. destruct (Hbody r s1 eq_refl Hst).
Qed.

(** X24. No 500 goes unlogged: when a route answers 500, the last thing
    it did was to log the failure at level error, with the message of
    that route. *)
Theorem failures_are_logged (req : request) (s s' : state DB) (resp : response) :
  status resp = 500%nat ->
  (post_beacon req s = (inr resp, s') ->
   last (trace s') = Some (EvLog error "Beacon failed")) /\
  (post_results req s = (inr resp, s') ->
   last (trace s') = Some (EvLog error "Result submission failed")) /\
  (get_results req s = (inr resp, s') ->
   last (trace s') = Some (EvLog error "Failed to query results")) /\
  (get_agents req s = (inr resp, s') ->
   last (trace s') = Some (EvLog error "Failed to list agents")).
Proof.
  intros Hst. repeat split; intros Hrun.
  - unfold post_beacon in Hrun. eapply caught_is_logged; [| exact Hrun | exact Hst].
    intros r s1. destruct (validate schemas_beacon (body req)) as [message | value].
    + intros Heq. injection Heq as <- _. discriminate.
    + intros Hbody.
      apply bind_inr in Hbody as (v & s2 & _ & Hbody).
      apply bind_inr in Hbody as (rows1 & s3 & _ & Hbody).
      apply bind_inr in Hbody as (rows2 & s4 & _ & Hbody).
      apply bind_inr in Hbody as (u & s5 & _ & Hbody).
      apply bind_inr in Hbody as (t & s6 & _ & Hbody).
      injection Hbody as <- _. discriminate.
  - unfold post_results in Hrun. eapply caught_is_logged; [| exact Hrun | exact Hst].
    intros r s1. destruct (validate schemas_result (body req)) as [message | value].
    + intros Heq. injection Heq as <- _. discriminate.
    + intros Hbody.
      apply bind_inr in Hbody as (v & s2 & _ & Hbody).
      apply bind_inr in Hbody as (rows & s3 & _ & Hbody).
      destruct rows as [| r0 rows]; [discriminate |].
      apply bind_inr in Hbody as (u & s4 & _ & Hbody).
      injection Hbody as <- _. discriminate.
  - unfold get_results in Hrun. eapply caught_is_logged; [| exact Hrun | exact Hst].
    intros r s1 Hbody. cbv zeta in Hbody.
    apply bind_inr in Hbody as (rows & s2 & _ & Hbody).
    injection Hbody as <- _. discriminate.
  - unfold get_agents in Hrun. eapply caught_is_logged; [| exact Hrun | exact Hst].
    intros r s1 Hbody.
    apply bind_inr in Hbody as (rows & s2 & _ & Hbody).
    injection Hbody as <- _. discriminate.
Qed.

End FailureFacts.

Section PageBoundFacts.
Context `{Platform}.

(** The results route answers 500, or 200 with the page and the two
    numbers that it parsed. *)
Lemma get_results_outcome (req : request) (s : state database) :
  exists r s',
    get_results req s = (inr r, s') /\
    same_tables (pool s) (pool s') /\
    (r = res_json 500 (ErrorBody "Failed to query results") \/
     exists rows n l o, r = res_json 200 (ResultsPage rows n l o)).
Proof.
  destruct (proj1 (queries_read req s)) as (r & s' & Hrun & Htables).
  exists r, s'. split; [exact Hrun |]. split; [exact Htables |].
  revert Hrun. unfold get_results, try_catch, bind.
  destruct (query _ _ s) as [[e | rows] s1]; cbv beta iota.
  - unfold logger, emit, ret. intros Heq. injection Heq as <- _. left. reflexivity.
  - unfold ret. intros Heq. injection Heq as <- _. right. eauto.
Qed.

(** X25. A limit or an offset that does not parse as an integer that is
    not negative (a word, an empty value, -1) is not replaced by a
    default: the statement is sent with it, the database refuses it, and
    the answer is 500 'Failed to query results'. *)
Theorem bad_page_bounds_are_refused (req : request) (s : state database) :
  (forall z, parseInt_or (query_string req !! "limit") 100 = Int z -> z < 0) \/
  (forall z, parseInt_or (query_string req !! "offset") 0 = Int z -> z < 0) ->
  exists s',
    get_results req s = (inr (res_json 500 (ErrorBody "Failed to query results")), s') /\
    same_tables (pool s) (pool s').
Proof.
  intros Hbad.
  destruct (get_results_outcome req s) as (r & s' & Hrun & Htables & Hcases).
  exists s'. split; [| exact Htables].
  destruct Hcases as [-> | (rows & n & l & o & ->)]; [exact Hrun |].
  exfalso.
  apply get_results_page in Hrun
    as (Hl & Ho & _ & bs & lz & oz & k & m & Hlz & Hoz & Hl0 & Ho0 & _).
  destruct Hbad as [Hbad | Hbad].
  - specialize (Hbad lz). rewrite <- Hl in Hbad. specialize (Hbad Hlz). lia.
  - specialize (Hbad oz). rewrite <- Ho in Hbad. specialize (Hbad Hoz). lia.
Qed.

End PageBoundFacts.

(** ** The further statements at the worked examples *)

(** Witness of X8: a beacon that names a host and no agent. *)
Lemma beacon_needs_an_agent_id_witness :
  @post_beacon example_platform database (@PgPool example_platform)
    nameless_beacon (fresh empty_database)
  = (inr (res_json 400 (ErrorBody (quoted "agent_id" ++ " is required"))),
     fresh empty_database).
Proof.
  apply (@beacon_needs_an_agent_id example_platform database (@PgPool example_platform)
           nameless_beacon [("hostname", JStr "h1")] (fresh empty_database)).
  - reflexivity.
  - intros a _ Heq. vm_compute in Heq. discriminate.
Defined.

(** Witness of X9: a body with the key "role" at both POST routes. *)
Lemma unknown_keys_are_refused_witness :
  (exists message,
     @post_beacon example_platform database (@PgPool example_platform)
       stray_key_body (fresh empty_database)
     = (inr (res_json 400 (ErrorBody message)), fresh empty_database)) /\
  (exists message,
     @post_results example_platform database (@PgPool example_platform)
       stray_key_body (fresh empty_database)
     = (inr (res_json 400 (ErrorBody message)), fresh empty_database)).
Proof.
  pose proof (@unknown_keys_are_refused example_platform database
                (@PgPool example_platform) stray_key_body
                [("agent_id", JStr "a1"); ("role", JStr "admin")] "role"
                (fresh empty_database) eq_refl (or_intror (or_introl eq_refl)))
    as [Hbeacon Hresult].
  split; [apply Hbeacon | apply Hresult]; cbn; intuition discriminate.
Defined.

(** Witness of X10: a finding of severity "urgent". *)
Lemma severity_is_one_of_four_witness :
  exists message,
    @post_results example_platform database (@PgPool example_platform)
      (finding "urgent") (fresh empty_database)
    = (inr (res_json 400 (ErrorBody message)), fresh empty_database).
Proof.
  apply (@severity_is_one_of_four example_platform database (@PgPool example_platform)
           (finding "urgent")
           [("agent_id", JStr "a1"); ("module", JStr "port-scan");
            ("data", JObj [("ports", JArr [JNum 80; JNum 443])]);
            ("severity", JStr "urgent")]
           (JStr "urgent") (fresh empty_database)).
  - reflexivity.
  - reflexivity.
  - intros sev Hin Heq. injection Heq as <-. cbn in Hin. intuition discriminate.
Defined.

(** Witness of X11: a finding of agent "a2" when only "a1" is known. *)
Lemma result_of_unknown_agent_is_refused_witness :
  exists s',
    @post_results example_platform database (@PgPool example_platform)
      stranger_finding after_first
    = (inr (res_json 500 (ErrorBody "Failed to submit result")), s') /\
    same_tables (pool after_first) (pool s').
Proof.
  apply (@result_of_unknown_agent_is_refused example_platform stranger_finding
           [("agent_id", JStr "a2"); ("module", JStr "port-scan"); ("data", JObj [])]
           "a2" after_first).
  - vm_compute. reflexivity.
  - reflexivity.
  - apply Nat.leb_le. vm_compute. reflexivity.
  - vm_compute. reflexivity.
Defined.

(** Witness of X12: the first finding of the example. *)
Lemma submitted_result_is_stored_witness :
  exists r,
    tbl_results (pool (run_result (finding "high") after_first))
    = (tbl_results (pool after_first) ++ [r])%list /\
    prop "id" r = Some (SUuid 2) /\
    prop "timestamp" r = Some (STime 3) /\
    prop "agent_id" r = Some (SText "a1") /\
    prop "severity" r = Some (SText "high").
Proof.
  destruct (@submitted_result_is_stored example_platform (finding "high")
              [("agent_id", JStr "a1"); ("module", JStr "port-scan");
               ("data", JObj [("ports", JArr [JNum 80; JNum 443])]);
               ("severity", JStr "high")]
              after_first (run_result (finding "high") after_first)
              (Some (SUuid 2)) (Some (STime 3)))
    as (n & t & r & Hid & Hts & Hres & _ & _ & _ & Hr).
  - reflexivity.
  - unfold result_fits, within. repeat split; intros x Hx; vm_compute in Hx;
      try discriminate; injection Hx as <-; apply Nat.leb_le; vm_compute; reflexivity.
  - vm_compute. reflexivity.
  - injection Hid as <-. injection Hts as <-. exists r.
    split; [exact Hres |]. rewrite Hr. repeat split.
Defined.

(** Witness of X13: the first beacon of the example. *)
Lemma beacon_is_recorded_witness :
  (status (res_json 200 (BeaconAck (Some (JStr "a1")) 0)) = 200%nat /\
   exists n,
     tbl_beacons (pool after_first)
     = (tbl_beacons (pool (fresh ticking_database)) ++
        [beacon_row n "a1" (now (pool after_first)) (ip_column first_beacon)
           (@document_of example_platform
              (prop "metadata"
                 [("agent_id", JStr "a1"); ("hostname", JStr "h1");
                  ("metadata", JObj [("os", JStr "linux")])]))])%list) \/
  (status (res_json 200 (BeaconAck (Some (JStr "a1")) 0)) <> 200%nat /\
   tbl_beacons (pool after_first) = tbl_beacons (pool (fresh ticking_database))).
Proof.
  apply (@beacon_is_recorded example_platform first_beacon
           [("agent_id", JStr "a1"); ("hostname", JStr "h1");
            ("metadata", JObj [("os", JStr "linux")])]
           "a1" (fresh ticking_database) after_first
           (res_json 200 (BeaconAck (Some (JStr "a1")) 0))).
  - reflexivity.
  - reflexivity.
  - apply Nat.leb_le. vm_compute. reflexivity.
  - vm_compute. reflexivity.
Defined.

(** Witness of X14: the second beacon of the example. *)
Lemma beacon_leaves_other_agents_witness :
  List.filter (fun r => negb (agent_named "a1" r))
    (tbl_agents
       (pool (snd (@post_beacon example_platform database (@PgPool example_platform)
                     second_beacon after_first))))
  = List.filter (fun r => negb (agent_named "a1" r)) (tbl_agents (pool after_first)).
Proof.
  apply (@beacon_leaves_other_agents example_platform second_beacon
           [("agent_id", JStr "a1"); ("platform", JStr "linux");
            ("metadata", JObj [("build", JNum 7)])]
           "a1" after_first).
  - reflexivity.
  - reflexivity.
  - apply Nat.leb_le. vm_compute. reflexivity.
Defined.

(** Witness of X15: the results route at the first finding. *)
Lemma routes_only_append_witness :
  exists resp s',
    @post_results example_platform database (@PgPool example_platform)
      (finding "high") after_first = (inr resp, s') /\
    tbl_api_keys (pool s') = tbl_api_keys (pool after_first) /\
    (forall a, existsb (agent_named a) (tbl_agents (pool after_first)) = true ->
               existsb (agent_named a) (tbl_agents (pool s')) = true) /\
    (exists more, tbl_beacons (pool s') = (tbl_beacons (pool after_first) ++ more)%list /\
                  (List.length more <= 1)%nat) /\
    (exists more, tbl_results (pool s') = (tbl_results (pool after_first) ++ more)%list /\
                  (List.length more <= 1)%nat).
Proof.
  apply (@routes_only_append example_platform
           (@post_results example_platform database (@PgPool example_platform))
           (finding "high") after_first).
  right. left. reflexivity.
Defined.

(** Witness of X16: a critical finding after the three of the example. *)
Lemma stored_severities_stay_valid_witness :
  Forall severity_ok
    (tbl_results
       (pool (snd (@post_results example_platform database (@PgPool example_platform)
                     (finding "critical") reported)))).
Proof.
  apply (@stored_severities_stay_valid example_platform
           (@post_results example_platform database (@PgPool example_platform))
           (finding "critical") reported).
  - right. left. reflexivity.
  - let l := eval vm_compute in (tbl_results (pool reported)) in
    replace (tbl_results (pool reported)) with l by (vm_compute; reflexivity).
    apply List.Forall_cons;
      [right; exists "high"; split; [cbn; auto | reflexivity] |].
    apply List.Forall_cons;
      [right; exists "low"; split; [cbn; auto | reflexivity] |].
    apply List.Forall_cons;
      [right; exists "high"; split; [cbn; auto | reflexivity] |].
    apply List.Forall_nil.
Defined.

(** Witness of X17: the second beacon after the three findings. *)
Lemma references_are_kept_witness :
  references_hold
    (pool (snd (@post_beacon example_platform database (@PgPool example_platform)
                  second_beacon reported))).
Proof.
  apply (@references_are_kept example_platform
           (@post_beacon example_platform database (@PgPool example_platform))
           second_beacon reported).
  - left. reflexivity.
  - unfold references_hold.
    let l := eval vm_compute in (tbl_results (pool reported)) in
    replace (tbl_results (pool reported)) with l by (vm_compute; reflexivity).
    let l := eval vm_compute in (tbl_beacons (pool reported)) in
    replace (tbl_beacons (pool reported)) with l by (vm_compute; reflexivity).
    let l := eval vm_compute in (tbl_agents (pool reported)) in
    replace (tbl_agents (pool reported)) with l by (vm_compute; reflexivity).
    split; repeat (apply List.Forall_cons; [exists "a1"; split; reflexivity |]);
      apply List.Forall_nil.
Defined.

(** Witness of X18: the example findings, queried with agent_id=a1. *)
Lemma results_match_the_filters_witness :
  (forall v, query_string agent_request !! "agent_id" = Some v -> truthy v = true ->
     Forall (fun r => prop "agent_id" r = Some (SText (@query_text example_platform v)))
       (page_rows (fst (run_query agent_request)))) /\
  (forall v, query_string agent_request !! "module" = Some v -> truthy v = true ->
     Forall (fun r => prop "module" r = Some (SText (@query_text example_platform v)))
       (page_rows (fst (run_query agent_request)))) /\
  (forall v, query_string agent_request !! "since" = Some v -> truthy v = true ->
     exists t, @timestamptz_in example_platform (@query_text example_platform v) = Some t /\
       Forall (fun r => exists x, prop "timestamp" r = Some (STime x) /\ t <= x)
         (page_rows (fst (run_query agent_request)))) /\
  Forall (fun r => In r (tbl_results (pool reported)))
    (page_rows (fst (run_query agent_request))).
Proof.
  apply (@results_match_the_filters example_platform agent_request reported
           (snd (run_query agent_request)) (page_rows (fst (run_query agent_request)))
           3 (Int 100) (Int 0)).
  vm_compute. reflexivity.
Defined.


(** Witness of X20: the two bytes 00 and ff. *)
Lemma hex_is_faithful_witness :
  String.length ("hbv_" ++ hex [0%N; 255%N]) = (4 + 2 * 2)%nat /\
  Forall hex_char (list_ascii_of_string (hex [0%N; 255%N])) /\
  forall bytes', Forall (fun b => (b < 256)%N) bytes' ->
    "hbv_" ++ hex bytes' = "hbv_" ++ hex [0%N; 255%N] -> bytes' = [0%N; 255%N].
Proof.
  apply (hex_is_faithful [0%N; 255%N]).
  repeat constructor.
Defined.

(** Witness of X21: the script on the empty database. *)
Lemma generateApiKey_outcome_witness :
  exists out s',
    @generateApiKey example_platform database (@PgPool example_platform)
      "primary" [0%N; 255%N] "$2b$12$" (fresh empty_database) = (inr out, s') /\
    ("primary" = "" -> out = None /\ s' = fresh empty_database) /\
    tbl_agents (pool s') = tbl_agents (pool (fresh empty_database)) /\
    tbl_beacons (pool s') = tbl_beacons (pool (fresh empty_database)) /\
    tbl_results (pool s') = tbl_results (pool (fresh empty_database)) /\
    ((out = None /\ tbl_api_keys (pool s') = tbl_api_keys (pool (fresh empty_database))) \/
     (exists n t,
        out = Some ("hbv_" ++ hex [0%N; 255%N]) /\
        tbl_api_keys (pool s')
        = (tbl_api_keys (pool (fresh empty_database)) ++
           [key_row n
              (@bcrypt_hash example_platform ("hbv_" ++ hex [0%N; 255%N]) "$2b$12$")
              "primary" t])%list)).
Proof.
  apply (@generateApiKey_outcome example_platform "primary" [0%N; 255%N] "$2b$12$"
           (fresh empty_database)).
  apply Nat.leb_le. vm_compute. reflexivity.
Defined.

(** Witness of X22: the first request of a client, without a key. *)
Lemma keyless_requests_are_counted_witness :
  @protected example_platform database (@PgPool example_platform) 100
    (@get_agents database (@PgPool example_platform)) anonymous_request
    (fresh empty_database)
  = (inr (Response 401
            (rate_limit_headers 100
               (increment (default "" (ip anonymous_request))
                  (date (fresh empty_database)) (limits (fresh empty_database)))
               (date (fresh empty_database)))
            (ErrorBody "API key required")),
     State (pool (fresh empty_database))
       (<[default "" (ip anonymous_request) :=
            increment (default "" (ip anonymous_request))
              (date (fresh empty_database)) (limits (fresh empty_database))]>
          (limits (fresh empty_database)))
       (date (fresh empty_database))
       (trace (fresh empty_database) ++ [EvLog info "Incoming request"])).
Proof.
  apply (@keyless_requests_are_counted example_platform database
           (@PgPool example_platform) 100).
  - vm_compute. reflexivity.
  - apply Nat.leb_le. vm_compute. reflexivity.
Defined.

(** Witness of X23: the listing after the first beacon of the example. *)
Lemma beaconed_agent_is_listed_witness :
  exists rows s2 r,
    @get_agents database (@PgPool example_platform) plain_request after_first
    = (inr (res_json 200 (AgentsPage rows (List.length rows))), s2) /\
    In r rows /\
    agent_named "a1" r = true /\
    prop "is_active" r = Some (SBool true) /\
    prop "last_seen" r = Some (STime (now (pool after_first))).
Proof.
  apply (@beaconed_agent_is_listed example_platform first_beacon plain_request
           [("agent_id", JStr "a1"); ("hostname", JStr "h1");
            ("metadata", JObj [("os", JStr "linux")])]
           "a1" (fresh ticking_database) after_first
           (res_json 200 (BeaconAck (Some (JStr "a1")) 0))).
  - split; [constructor | cbn; lia].
  - vm_compute. reflexivity.
  - reflexivity.
  - apply Nat.leb_le. vm_compute. reflexivity.
  - vm_compute. reflexivity.
  - reflexivity.
  - vm_compute. reflexivity.
Defined.

(** Witness of X24: the refused finding of agent "a2". *)
Lemma failures_are_logged_witness :
  last (trace (run_result stranger_finding after_first))
  = Some (EvLog error "Result submission failed").
Proof.
  apply (proj1 (proj2 (@failures_are_logged example_platform database
                         (@PgPool example_platform) stranger_finding after_first
                         (run_result stranger_finding after_first)
                         (res_json 500 (ErrorBody "Failed to submit result"))
                         eq_refl))).
  vm_compute. reflexivity.
Defined.

(** Witness of X25: the example findings, queried with limit=ten. *)
Lemma bad_page_bounds_are_refused_witness :
  exists s',
    @get_results example_platform database (@PgPool example_platform)
      worded_request reported
    = (inr (res_json 500 (ErrorBody "Failed to query results")), s') /\
    same_tables (pool reported) (pool s').
Proof.
  apply (@bad_page_bounds_are_refused example_platform worded_request reported).
  left. intros z Heq. vm_compute in Heq. discriminate.
Defined.


(** Witness of X27: the first finding of the example. *)
Lemma only_beacons_touch_the_registry_witness :
  tbl_agents
    (pool (snd (@post_results example_platform database (@PgPool example_platform)
                  (finding "high") after_first)))
  = tbl_agents (pool after_first).
Proof.
  apply (@only_beacons_touch_the_registry example_platform
           (@post_results example_platform database (@PgPool example_platform))
           (finding "high") after_first).
  left. reflexivity.
Defined.
